(** * streamlit-browser: the HTML sanitizers of [app.py]

    A shallow embedding of the two sanitizers of [app.py]
    ([sanitize_html_], the strict one, and [sanitize_html], the light one
    that the Streamlit pipeline calls) and of the pipeline's
    sanitize-and-render step, together with the properties the
    specification states about them.

    The parse tree is the one BeautifulSoup builds: tags with a name, an
    insertion-ordered attribute dictionary and a list of children, plus
    text, comment and other preformatted leaves.  Text is the string of
    the bytes of its UTF-8 encoding.  Python holds references to the nodes that
    [find_all] returned while it mutates the tree; here a reference is
    the path of the node from the document root, and a loop
    [for tag in soup.find_all(...): body] is a left fold of in-place
    updates over the list of paths that [find_all] computed before the
    loop started. *)

From Stdlib Require Import String Ascii List Bool Arith Lia.
Import ListNotations.
Set Warnings "-register-all".
Open Scope string_scope.
Open Scope list_scope.

(* ================================================================= *)
(** * Python strings *)

(** [s.startswith(p)] *)
Definition startswith (s p : string) : bool := String.prefix p s.

(** [c.lower()] on one character.  Only the ASCII letters are mapped:
    the literals the source compares lowered strings with ("on",
    "refresh", "submit", "image", "button") contain no letter that a
    non-ASCII character lowers to. *)
Definition lower_ascii (c : ascii) : ascii :=
  let n := nat_of_ascii c in
  if Nat.leb 65 n && Nat.leb n 90 then ascii_of_nat (n + 32) else c.

(** [s.lower()] *)
Fixpoint lower (s : string) : string :=
  match s with
  | EmptyString => EmptyString
  | String c s' => String (lower_ascii c) (lower s')
  end.

(** [x in (a, b, c)] for strings *)
Definition str_in (x : string) (l : list string) : bool :=
  existsb (String.eqb x) l.

(** Truthiness of a Python string: [bool(s)] *)
Definition truthy (s : string) : bool :=
  match s with EmptyString => false | _ => true end.

(* ================================================================= *)
(** * Attribute dictionaries

    [Tag.attrs] is a Python [dict]: keys are unique and keep their
    insertion order.  The value of a multi-valued attribute ([class],
    [rel], ...), a list in bs4, is the string the serializer prints for
    it; no loop of the sanitizers reads or writes such an attribute. *)

Definition dict := list (string * string).

(** [d.get(k)] *)
Fixpoint dict_get (d : dict) (k : string) : option string :=
  match d with
  | [] => None
  | (k', v) :: d' => if String.eqb k' k then Some v else dict_get d' k
  end.

(** [k in d] *)
Definition dict_has (d : dict) (k : string) : bool :=
  match dict_get d k with Some _ => true | None => false end.

(** [d[k] = v]: an existing key keeps its position, a new key goes last. *)
Fixpoint dict_set (d : dict) (k v : string) : dict :=
  match d with
  | [] => [(k, v)]
  | (k', v') :: d' =>
      if String.eqb k' k then (k', v) :: d' else (k', v') :: dict_set d' k v
  end.

(** [del d[k]] / [d.pop(k, None)] *)
Definition dict_del (d : dict) (k : string) : dict :=
  filter (fun kv => negb (String.eqb (fst kv) k)) d.

(** [list(d)] / [list(d.keys())] *)
Definition dict_keys (d : dict) : list string := map fst d.

(* ================================================================= *)
(** * The parse tree *)

(** The strings other than comments that the tree builder keeps as
    they are ([PreformattedString]): [<![CDATA[...]]>], [<?...>],
    a declaration and [<!DOCTYPE ...>]. *)
Inductive special : Type :=
| CData | ProcessingInstruction | Declaration | Doctype.

(** A node of the tree.  [Decomposed] is the slot a node leaves behind
    when [decompose()] or [extract()] takes it out of the tree: it has
    no name, no attributes, no children, is invisible to every search
    and serializes to nothing.  Keeping the slot keeps the paths of the
    node's siblings stable, as the Python references to them are.  bs4
    itself keeps no slot: its tree is this one with the slots left out
    ([erase]), so that the children of a tag there are its children
    here that are not slots. *)
Inductive PageElement : Type :=
| Tag (name : string) (attrs : dict) (contents : list PageElement)
| NavigableString (text : string)
| Comment (text : string)
| Decomposed
| Preformatted (class : special) (text : string).

(** The document: the children of the [BeautifulSoup] root object. *)
Definition Soup := list PageElement.

(** A reference to a node: child indices from the root down. *)
Definition path := list nat.

(** [l[i] = f(l[i])] *)
Fixpoint alter_nth {A : Type} (f : A -> A) (i : nat) (l : list A) : list A :=
  match l, i with
  | [], _ => []
  | x :: l', O => f x :: l'
  | x :: l', S i' => x :: alter_nth f i' l'
  end.

(** Mutation of the node that [p] refers to, seen from the node [e]
    ([p = []] is [e] itself).  A path that leads into a slot that is no
    longer a tag reaches nothing: mutating a node that sits below a
    decomposed ancestor has no effect on the tree. *)
Fixpoint update (f : PageElement -> PageElement) (p : path) (e : PageElement)
  : PageElement :=
  match p with
  | [] => f e
  | i :: p' =>
      match e with
      | Tag n a cs => Tag n a (alter_nth (update f p') i cs)
      | _ => e
      end
  end.

(** The same, seen from a list of siblings. *)
Definition update_in (f : PageElement -> PageElement) (p : path) (cs : Soup)
  : Soup :=
  match p with
  | [] => cs
  | i :: p' => alter_nth (update f p') i cs
  end.

(** The node a path refers to. *)
Fixpoint get_node (p : path) (e : PageElement) : option PageElement :=
  match p with
  | [] => Some e
  | i :: p' =>
      match e with
      | Tag _ _ cs =>
          match nth_error cs i with
          | Some c => get_node p' c
          | None => None
          end
      | _ => None
      end
  end.

Definition get_in (p : path) (cs : Soup) : option PageElement :=
  match p with
  | [] => None
  | i :: p' =>
      match nth_error cs i with
      | Some c => get_node p' c
      | None => None
      end
  end.

(* ----------------------------------------------------------------- *)
(** ** Searching: [find_all] *)

Definition shift (p : path) : path :=
  match p with
  | [] => []
  | i :: p' => S i :: p'
  end.

(** Paths below a list of siblings, in document order, given the paths
    [f c] found at and below each sibling [c]. *)
Definition in_children (f : PageElement -> list path) : Soup -> list path :=
  fix go (cs : Soup) : list path :=
    match cs with
    | [] => []
    | c :: cs' => map (cons 0) (f c) ++ map shift (go cs')
    end.

(** The tags at or below [e] that a tag filter [m] accepts. *)
Fixpoint tag_paths (m : string -> dict -> bool) (e : PageElement) : list path :=
  match e with
  | Tag n a cs => (if m n a then [[]] else []) ++ in_children (tag_paths m) cs
  | _ => []
  end.

(** [soup.find_all(...)] / [tag.find_all(...)] with a filter on tags:
    every matching descendant, in document order. *)
Definition find_all (m : string -> dict -> bool) (cs : Soup) : list path :=
  in_children (tag_paths m) cs.

(** [soup.find(...)]: the first match, or [None]. *)
Definition find (m : string -> dict -> bool) (cs : Soup) : option path :=
  hd_error (find_all m cs).

(** The text and comment nodes at or below [e] that [m] accepts:
    [find_all(string=m)]. *)
Fixpoint string_paths (m : PageElement -> bool) (e : PageElement) : list path :=
  match e with
  | Tag n a cs => in_children (string_paths m) cs
  | NavigableString _ | Comment _ | Preformatted _ _ => if m e then [[]] else []
  | Decomposed => []
  end.

Definition find_all_string (m : PageElement -> bool) (cs : Soup) : list path :=
  in_children (string_paths m) cs.

(** The filters the source passes to [find_all]. *)
Definition by_name (name : string) : string -> dict -> bool :=
  fun n _ => String.eqb n name.                 (* find_all("script") *)
Definition by_names (names : list string) : string -> dict -> bool :=
  fun n _ => str_in n names.                    (* find_all(["input", "button"]) *)
Definition by_attr (k : string) : string -> dict -> bool :=
  fun _ a => dict_has a k.                      (* find_all(href=True) *)
Definition by_name_attr (name k : string) : string -> dict -> bool :=
  fun n a => String.eqb n name && dict_has a k. (* find_all("a", href=True) *)
Definition any_tag : string -> dict -> bool :=
  fun _ _ => true.                              (* find_all() *)

(** [for x in refs: body(x)] over the document. *)
Definition for_each (refs : list path) (body : PageElement -> PageElement)
  (soup : Soup) : Soup :=
  fold_left (fun s p => update_in body p s) refs soup.

(* ----------------------------------------------------------------- *)
(** ** Operations on one tag *)

Definition name_of (e : PageElement) : string :=
  match e with Tag n _ _ => n | _ => "" end.

Definition attrs_of (e : PageElement) : dict :=
  match e with Tag _ a _ => a | _ => [] end.

Definition contents_of (e : PageElement) : Soup :=
  match e with Tag _ _ cs => cs | _ => [] end.

(** A mutation of the attribute dictionary of a tag. *)
Definition on_attrs (g : dict -> dict) (e : PageElement) : PageElement :=
  match e with
  | Tag n a cs => Tag n (g a) cs
  | _ => e
  end.

(** [tag.get(k, default)] *)
Definition get (e : PageElement) (k default : string) : string :=
  match dict_get (attrs_of e) k with Some v => v | None => default end.

(** [tag[k]].  The source reads [tag["href"]] and [img["src"]] only on
    tags that [find_all(..., href=True)] / [find_all(..., src=True)]
    returned, where the key is present and no [KeyError] can arise
    (lemma [find_all_matches] below). *)
Definition getitem (e : PageElement) (k : string) : string := get e k "".

(** [tag.has_attr(k)] *)
Definition has_attr (e : PageElement) (k : string) : bool :=
  dict_has (attrs_of e) k.

(** [tag[k] = v] *)
Definition setitem (k v : string) (e : PageElement) : PageElement :=
  on_attrs (fun a => dict_set a k v) e.

(** [del tag[k]] *)
Definition delitem (k : string) (e : PageElement) : PageElement :=
  on_attrs (fun a => dict_del a k) e.

(** [tag.decompose()] and [node.extract()]: the node leaves the tree. *)
Definition decompose (e : PageElement) : PageElement := Decomposed.
Definition extract (e : PageElement) : PageElement := Decomposed.

(** [tag.insert(0, new)] *)
Definition insert0 (new : PageElement) (e : PageElement) : PageElement :=
  match e with
  | Tag n a cs => Tag n a (new :: cs)
  | _ => e
  end.

(* ================================================================= *)
(** * [sanitize_html_]: the strict sanitizer *)

Module Strict.

(** Lines 103-106: one loop per name of the tuple. *)
Definition remove_tags (names : list string) (soup : Soup) : Soup :=
  fold_left (fun s tag_name => for_each (find_all (by_name tag_name) s) decompose s)
            names soup.

(** Lines 109-110. *)
Definition remove_links (soup : Soup) : Soup :=
  for_each (find_all (by_name "link") soup) decompose soup.

(** Lines 111-118: both branches of the test on [http-equiv] decompose. *)
Definition meta_body (meta : PageElement) : PageElement :=
  let http_equiv := get meta "http-equiv" "" in
  if truthy http_equiv && String.eqb (lower http_equiv) "refresh"
  then decompose meta
  else decompose meta.

Definition remove_metas (soup : Soup) : Soup :=
  for_each (find_all (by_name "meta") soup) meta_body soup.

(** Lines 121-122. *)
Definition strip_srcset (soup : Soup) : Soup :=
  for_each (find_all (by_attr "srcset") soup) (delitem "srcset") soup.

(** Lines 126-135. *)
Definition img_body (img : PageElement) : PageElement :=
  let img := if has_attr img "src" then delitem "src" img else img in
  let img := if has_attr img "srcset" then delitem "srcset" img else img in
  fold_left (fun img attr => if startswith attr "on" then delitem attr img else img)
            (dict_keys (attrs_of img)) img.

Definition neutralize_imgs (soup : Soup) : Soup :=
  for_each (find_all (by_name "img") soup) img_body soup.

(** Lines 138-145. *)
Definition href_body (tag : PageElement) : PageElement :=
  let href := get tag "href" "" in
  if startswith href "#" || startswith href "mailto:" || startswith href "javascript:"
  then tag
  else setitem "href" "#" tag.

Definition neutralize_hrefs (soup : Soup) : Soup :=
  for_each (find_all (by_attr "href") soup) href_body soup.

(** Lines 148-150. *)
Definition strip_src (soup : Soup) : Soup :=
  for_each (find_all (by_attr "src") soup) (delitem "src") soup.

(** Lines 153-157. *)
Definition handlers_body (tag : PageElement) : PageElement :=
  fold_left (fun tag a => if startswith (lower a) "on"
                          then on_attrs (fun d => dict_del d a) tag else tag)
            (dict_keys (attrs_of tag)) tag.

Definition strip_handlers (soup : Soup) : Soup :=
  for_each (find_all any_tag soup) handlers_body soup.

(** Lines 160-168. *)
Definition btn_body (btn : PageElement) : PageElement :=
  let btn :=
    if String.eqb (name_of btn) "input"
       && str_in (lower (get btn "type" "")) ["submit"; "image"; "button"]
    then setitem "disabled" "disabled" btn else btn in
  if String.eqb (name_of btn) "button"
  then setitem "disabled" "disabled" btn else btn.

Definition form_body (form : PageElement) : PageElement :=
  let form := setitem "action" "#" form in
  let form := setitem "method" "get" form in
  match form with
  | Tag n a cs =>
      Tag n a (for_each (find_all (by_names ["input"; "button"]) cs) btn_body cs)
  | _ => form
  end.

Definition disable_forms (soup : Soup) : Soup :=
  for_each (find_all (by_name "form") soup) form_body soup.

(** Lines 181-182.  [soup.Comment] is not the class [bs4.Comment]: the
    soup object has no such attribute, so [Tag.__getattr__] answers with
    [soup.find("Comment")], a tag or [None]; the filter then asks whether
    a text node is an instance of the class of that value. *)
Inductive py_class : Type :=
| NoneType | TagClass | NavigableStringClass | CommentClass
| PreformattedClass (class : special).

Definition special_eqb (k k' : special) : bool :=
  match k, k' with
  | CData, CData | ProcessingInstruction, ProcessingInstruction
  | Declaration, Declaration | Doctype, Doctype => true
  | _, _ => false
  end.

Definition type_of (o : option PageElement) : py_class :=
  match o with
  | Some (Tag _ _ _) => TagClass
  | Some (NavigableString _) => NavigableStringClass
  | Some (Comment _) => CommentClass
  | Some (Preformatted k _) => PreformattedClass k
  | Some Decomposed | None => NoneType
  end.

(** [isinstance(e, c)]; [Comment] and the other preformatted strings
    are subclasses of [NavigableString]. *)
Definition isinstance (e : PageElement) (c : py_class) : bool :=
  match e, c with
  | Tag _ _ _, TagClass => true
  | NavigableString _, NavigableStringClass => true
  | Comment _, NavigableStringClass => true
  | Comment _, CommentClass => true
  | Preformatted _ _, NavigableStringClass => true
  | Preformatted k _, PreformattedClass k' => special_eqb k k'
  | _, _ => false
  end.

(** [soup.Comment] *)
Definition soup_Comment (soup : Soup) : option PageElement :=
  match find (by_name "Comment") soup with
  | Some p => get_in p soup
  | None => None
  end.

Definition remove_comments (soup : Soup) : Soup :=
  for_each
    (find_all_string (fun text => isinstance text (type_of (soup_Comment soup))) soup)
    extract soup.

(** Lines 185-188. *)
Definition notice : PageElement :=
  Tag "div"
      [("style",
        "font-family:monospace; font-size:12px; opacity:0.85; padding:6px; border-bottom:1px solid #ddd;")]
      [NavigableString
         "/* This page was sanitized: scripts, iframes, external links and auto-fetching resources removed */"].

(** Lines 190-193: [soup.body] is [soup.find("body")]. *)
Definition add_notice (soup : Soup) : Soup :=
  match find (by_name "body") soup with
  | Some body => update_in (insert0 notice) body soup
  | None => notice :: soup
  end.

(** Lines 103-182: the loops of [sanitize_html_], in the order of the
    source.  Nothing is inserted into the tree and no slot is dropped,
    so that a reference into the parsed document refers to the same
    node afterwards. *)
Definition before_notice (soup : Soup) : Soup :=
  let soup := remove_tags ["script"; "iframe"; "object"; "embed"; "noscript"; "base"] soup in
  let soup := remove_links soup in
  let soup := remove_metas soup in
  let soup := strip_srcset soup in
  let soup := neutralize_imgs soup in
  let soup := neutralize_hrefs soup in
  let soup := strip_src soup in
  let soup := strip_handlers soup in
  let soup := disable_forms soup in
  let soup := remove_tags ["video"; "audio"; "source"; "track"] soup in
  remove_comments soup.

(** The body of [sanitize_html_] between parsing and serializing:
    lines 103-193. *)
Definition sanitize_html__soup (soup : Soup) : Soup :=
  let soup := before_notice soup in
  add_notice soup.

End Strict.

(* ================================================================= *)
(** * [sanitize_html]: the light sanitizer, the one the pipeline calls *)

Module Light.

Definition noice : string := "https://noice://".

(** Lines 207-214. *)
Definition a_body (tag : PageElement) : PageElement :=
  let original := getitem tag "href" in
  if startswith original "#"
  then tag
  else setitem "href" (noice ++ original)%string tag.

(** Lines 217-225. *)
Definition img_body (img : PageElement) : PageElement :=
  let original := getitem img "src" in
  let img := setitem "src" (noice ++ original)%string img in
  if negb (truthy (get img "alt" ""))
  then setitem "alt" "[image disabled]" img
  else img.

(** The body of [sanitize_html] between parsing and serializing. *)
Definition sanitize_html_soup (soup : Soup) : Soup :=
  let soup := for_each (find_all (by_name_attr "a" "href") soup) a_body soup in
  for_each (find_all (by_name_attr "img" "src") soup) img_body soup.

End Light.

(* ================================================================= *)
(** * Serialization: [str(soup)]

    [Tag.decode] with the default ("minimal") formatter of bs4's HTML
    tree builders. *)

Module Serializer.

Definition dquote : ascii := ascii_of_nat 34.
Definition squote : ascii := ascii_of_nat 39.

(** [EntitySubstitution.substitute_xml]: ampersands and angle brackets. *)
Fixpoint substitute_xml (s : string) : string :=
  match s with
  | EmptyString => EmptyString
  | String c s' =>
      ((if Ascii.eqb c "&" then "&amp;"
        else if Ascii.eqb c "<" then "&lt;"
        else if Ascii.eqb c ">" then "&gt;"
        else String c EmptyString) ++ substitute_xml s')%string
  end.

Fixpoint contains_char (c : ascii) (s : string) : bool :=
  match s with
  | EmptyString => false
  | String c' s' => Ascii.eqb c' c || contains_char c s'
  end.

Fixpoint replace_char (c : ascii) (r : string) (s : string) : string :=
  match s with
  | EmptyString => EmptyString
  | String c' s' =>
      ((if Ascii.eqb c' c then r else String c' EmptyString) ++ replace_char c r s')%string
  end.

(** [EntitySubstitution.quoted_attribute_value] *)
Definition quoted_attribute_value (value : string) : string :=
  if contains_char dquote value then
    if contains_char squote value
    then String dquote (replace_char dquote "&quot;" value ++ String dquote EmptyString)
    else String squote (value ++ String squote EmptyString)
  else String dquote (value ++ String dquote EmptyString).

(** The void elements of [HTMLTreeBuilder]. *)
Definition empty_element_tags : list string :=
  ["area"; "base"; "br"; "col"; "embed"; "hr"; "img"; "input"; "keygen";
   "link"; "menuitem"; "meta"; "param"; "source"; "track"; "wbr";
   "basefont"; "bgsound"; "command"; "frame"; "image"; "isindex";
   "nextid"; "spacer"].

(** Text inside these tags is printed as it is. *)
Definition cdata_containing_tags : list string := ["script"; "style"].

Definition is_live (e : PageElement) : bool :=
  match e with Decomposed => false | _ => true end.

(** [tag.is_empty_element]: a void element without children. *)
Definition is_empty_element (n : string) (cs : Soup) : bool :=
  match filter is_live cs with
  | [] => str_in n empty_element_tags
  | _ => false
  end.

Definition decode_attr (kv : string * string) : string :=
  (" " ++ fst kv ++ "=" ++ quoted_attribute_value (substitute_xml (snd kv)))%string.

(** [Formatter.attributes]: [sorted(tag.attrs.items())], the
    attributes in the order of their names.  [String.leb] compares byte
    by byte, which on UTF-8 is the order of the characters. *)
Fixpoint insert_sorted (kv : string * string) (l : dict) : dict :=
  match l with
  | [] => [kv]
  | kv' :: l' =>
      if String.leb (fst kv) (fst kv') then kv :: l else kv' :: insert_sorted kv l'
  end.

Definition attributes (a : dict) : dict := fold_right insert_sorted [] a.

Definition join (l : list string) : string := String.concat "" l.

(** [PREFIX] and [SUFFIX] of the classes of preformatted strings. *)
Definition prefix_of (k : special) : string :=
  match k with
  | CData => "<![CDATA["
  | ProcessingInstruction => "<?"
  | Declaration => "<?"
  | Doctype => "<!DOCTYPE "
  end.

Definition suffix_of (k : special) : string :=
  match k with
  | CData => "]]>"
  | ProcessingInstruction => ">"
  | Declaration => "?>"
  | Doctype => String ">" (String (ascii_of_nat 10) EmptyString)
  end.

(** [element.decode()]; [parent] is the name of the enclosing tag. *)
Fixpoint decode (parent : string) (e : PageElement) : string :=
  match e with
  | Tag n a cs =>
      let attribute_string := join (map decode_attr (attributes a)) in
      if is_empty_element n cs
      then ("<" ++ n ++ attribute_string ++ "/>")%string
      else ("<" ++ n ++ attribute_string ++ ">"
                ++ join (map (decode n) cs)
                ++ "</" ++ n ++ ">")%string
  | NavigableString s =>
      if str_in parent cdata_containing_tags then s else substitute_xml s
  | Comment s => ("<!--" ++ s ++ "-->")%string
  | Preformatted k s => (prefix_of k ++ s ++ suffix_of k)%string
  | Decomposed => EmptyString
  end.

(** [str(soup)] *)
Definition str (soup : Soup) : string := join (map (decode "[document]") soup).

End Serializer.

(** The tree as bs4 holds it: without the slots. *)
Fixpoint erase (e : PageElement) : PageElement :=
  match e with
  | Tag n a cs => Tag n a (filter Serializer.is_live (map erase cs))
  | _ => e
  end.

(* ================================================================= *)
(** * The pipeline's sanitize-and-render step (lines 295-305) *)

Module Pipeline.

(** An instance of [Exception] with its [str(e)]. *)
Record Exception : Type := { message : string }.

(** What a Python call does: it returns or it raises. *)
Inductive outcome (A : Type) : Type :=
| Returned (x : A)
| Raised (e : Exception).
Arguments Returned {A} x.
Arguments Raised {A} e.

(** [try: c  except Exception as e: handler(e)] *)
Definition try_except {A : Type} (c : outcome A) (handler : Exception -> outcome A)
  : outcome A :=
  match c with
  | Returned x => Returned x
  | Raised e => handler e
  end.

(** The calls into Streamlit that the step makes, in order. *)
Inductive ui_call : Type :=
| st_error (msg : string)
| st_success (msg : string)
| components_html (html : string) (height : nat) (scrolling : bool).

Definition fallback : string := "<p>Unable to sanitize content.</p>".

(** [html] is the fetched text, or [None] when both fetches failed.
    The result is the list of Streamlit calls made. *)
Definition render (sanitize : string -> string -> outcome string)
  (html : option string) (final_url : string) : outcome (list ui_call) :=
  match html with
  | Some html =>
      if truthy html then
        match
          try_except
            (match sanitize html final_url with
             | Returned sanitized => Returned (sanitized, [])
             | Raised e => Raised e
             end)
            (fun e =>
               Returned (fallback,
                         [st_error ("Error while sanitizing HTML: " ++ message e)%string]))
        with
        | Returned (sanitized, calls) =>
            Returned (calls ++ [st_success "Rendering sanitized HTML below.";
                                components_html sanitized 800 true])
        | Raised e => Raised e
        end
      else Returned []
  | None => Returned []
  end.

End Pipeline.

(* ================================================================= *)
(** * The two functions of [app.py], from text to text *)

Section EntryPoints.

(** [BeautifulSoup(html, "html.parser")]: the parser of the bs4
    library.  It returns the tree, or it raises: bs4 raises
    [ParserRejectedMarkup] when [html.parser] gives up on the text. *)
Variable BeautifulSoup : string -> Pipeline.outcome Soup.



End EntryPoints.

(* ================================================================= *)
(** * What each loop computes, by recursion on the tree

    The loops of the sanitizers are folds over lists of references.
    The functions below describe their results by structural recursion;
    the refinement lemmas further down prove that the loops compute
    them. *)

(** Induction on trees with the hypothesis for every child. *)
Section PageElement_induction.
Variable P : PageElement -> Prop.
Hypothesis H_tag : forall n a cs, Forall P cs -> P (Tag n a cs).
Hypothesis H_string : forall s, P (NavigableString s).
Hypothesis H_comment : forall s, P (Comment s).
Hypothesis H_decomposed : P Decomposed.
Hypothesis H_preformatted : forall k s, P (Preformatted k s).

Fixpoint PageElement_tree_ind (e : PageElement) : P e :=
  match e with
  | Tag n a cs =>
      H_tag n a cs
        ((fix go (l : list PageElement) : Forall P l :=
            match l with
            | [] => Forall_nil P
            | c :: l' => Forall_cons c (PageElement_tree_ind c) (go l')
            end) cs)
  | NavigableString s => H_string s
  | Comment s => H_comment s
  | Decomposed => H_decomposed
  | Preformatted k s => H_preformatted k s
  end.
End PageElement_induction.

(** A loop over the references computed from [e0], run on [e]. *)
Definition for_each_at (refs : list path) (body : PageElement -> PageElement)
  (e : PageElement) : PageElement :=
  fold_left (fun e p => update body p e) refs e.

(** [for tag in find_all(m): tag.decompose()] *)
Fixpoint prune (m : string -> dict -> bool) (e : PageElement) : PageElement :=
  match e with
  | Tag n a cs => if m n a then Decomposed else Tag n a (map (prune m) cs)
  | _ => e
  end.

(** A rewrite of the attributes of every tag. *)
Fixpoint amap (g : string -> dict -> dict) (e : PageElement) : PageElement :=
  match e with
  | Tag n a cs => Tag n (g n a) (map (amap g) cs)
  | _ => e
  end.

(** [for tag in find_all(m): tag.attrs = g(tag.attrs)] *)
Definition only (m : string -> dict -> bool) (g : string -> dict -> dict)
  : string -> dict -> dict :=
  fun n a => if m n a then g n a else a.

(** The attribute rewrites of the loop bodies. *)
Definition del_attr (k : string) : string -> dict -> dict :=
  fun _ a => dict_del a k.

Definition strip_prefix_on (fold_case : bool) : string -> dict -> dict :=
  fun _ a =>
    filter (fun kv => negb (startswith (if fold_case then lower (fst kv) else fst kv) "on")) a.

Definition dict_get_default (a : dict) (k default : string) : string :=
  match dict_get a k with Some v => v | None => default end.

Definition exempt_href (href : string) : bool :=
  startswith href "#" || startswith href "mailto:" || startswith href "javascript:".

Definition strict_img_attrs : string -> dict -> dict :=
  fun n a => strip_prefix_on false n (dict_del (dict_del a "src") "srcset").

Definition strict_href_attrs : string -> dict -> dict :=
  fun _ a => if exempt_href (dict_get_default a "href" "") then a else dict_set a "href" "#".

Definition submit_types : list string := ["submit"; "image"; "button"].

Definition btn_attrs : string -> dict -> dict :=
  fun n a =>
    if (String.eqb n "input" && str_in (lower (dict_get_default a "type" "")) submit_types)
       || String.eqb n "button"
    then dict_set a "disabled" "disabled" else a.

Definition form_attrs (a : dict) : dict :=
  dict_set (dict_set a "action" "#") "method" "get".

(** The attributes of a tag after the form loop; [inside] tells whether
    the tag has a [form] ancestor. *)
Definition forms_attrs (inside : bool) (n : string) (a : dict) : dict :=
  if String.eqb n "form" then form_attrs a
  else if inside && str_in n ["input"; "button"] then btn_attrs n a
  else a.

Fixpoint forms_rec (inside : bool) (e : PageElement) : PageElement :=
  match e with
  | Tag n a cs =>
      Tag n (forms_attrs inside n a) (map (forms_rec (inside || String.eqb n "form")) cs)
  | _ => e
  end.

Definition light_a_attrs : string -> dict -> dict :=
  fun _ a =>
    let original := dict_get_default a "href" "" in
    if startswith original "#" then a
    else dict_set a "href" (Light.noice ++ original)%string.

Definition light_img_attrs : string -> dict -> dict :=
  fun _ a =>
    let a1 := dict_set a "src" (Light.noice ++ dict_get_default a "src" "")%string in
    if negb (truthy (dict_get_default a1 "alt" ""))
    then dict_set a1 "alt" "[image disabled]" else a1.

(** The inner loop over [form.find_all(["input", "button"])]. *)
Definition disable_controls : PageElement -> PageElement :=
  amap (only (by_names ["input"; "button"]) btn_attrs).

(** The passes of [sanitize_html_] before the notice, on one top-level
    node. *)
Definition neutralize (e : PageElement) : PageElement :=
  let e := fold_left (fun e x => prune (by_name x) e)
                     ["script"; "iframe"; "object"; "embed"; "noscript"; "base"] e in
  let e := prune (by_name "link") e in
  let e := prune (by_name "meta") e in
  let e := amap (only (by_attr "srcset") (del_attr "srcset")) e in
  let e := amap (only (by_name "img") strict_img_attrs) e in
  let e := amap (only (by_attr "href") strict_href_attrs) e in
  let e := amap (only (by_attr "src") (del_attr "src")) e in
  let e := amap (only any_tag (strip_prefix_on true)) e in
  let e := forms_rec false e in
  fold_left (fun e x => prune (by_name x) e) ["video"; "audio"; "source"; "track"] e.

(** A property of every tag at or below a node.  The flag tells whether
    the tag has a [form] ancestor. *)
Inductive all_tags (P : bool -> string -> dict -> Prop) : bool -> PageElement -> Prop :=
| all_tags_Tag inside n a cs :
    P inside n a ->
    Forall (all_tags P (inside || String.eqb n "form")) cs ->
    all_tags P inside (Tag n a cs)
| all_tags_NavigableString inside s : all_tags P inside (NavigableString s)
| all_tags_Comment inside s : all_tags P inside (Comment s)
| all_tags_Preformatted inside k s : all_tags P inside (Preformatted k s)
| all_tags_Decomposed inside : all_tags P inside Decomposed.

(** [needle in haystack] for strings *)
Definition contains (haystack needle : string) : Prop :=
  exists before after, haystack = (before ++ needle ++ after)%string.

(** The names [sanitize_html_] removes. *)
Definition removed_names : list string :=
  ["script"; "iframe"; "object"; "embed"; "noscript"; "base";
   "link"; "meta"; "video"; "audio"; "source"; "track"].

(** The attributes of a tag that survives the loops of
    [sanitize_html_]; [inside] tells whether it has a [form] ancestor. *)
Definition before_forms_attrs (n : string) (a : dict) : dict :=
  let a := only (by_attr "srcset") (del_attr "srcset") n a in
  let a := only (by_name "img") strict_img_attrs n a in
  let a := only (by_attr "href") strict_href_attrs n a in
  let a := only (by_attr "src") (del_attr "src") n a in
  only any_tag (strip_prefix_on true) n a.

Definition strict_attrs (inside : bool) (n : string) (a : dict) : dict :=
  forms_attrs inside n (before_forms_attrs n a).

(** The attributes of a tag after the two loops of [sanitize_html]. *)
Definition light_attrs (n : string) (a : dict) : dict :=
  let a := only (by_name_attr "a" "href") light_a_attrs n a in
  only (by_name_attr "img" "src") light_img_attrs n a.

(** What a reference to the tag [n] finds after passes that may have
    removed the tag or an ancestor of it: nothing, the empty slot, or
    the tag with attributes [a]. *)
Definition traced (n : string) (a : dict) (x : option PageElement) : Prop :=
  x = None \/ x = Some Decomposed \/ exists cs, x = Some (Tag n a cs).

(** A rewrite that leaves the value under [k] alone. *)
Definition keeps (k : string) (g : dict -> dict) : Prop :=
  forall a, dict_get (g a) k = dict_get a k.

(** The markup of the notice. *)
Definition notice_html : string := Serializer.decode "" Strict.notice.

(** No attribute name starts, case-insensitively, with "on". *)
Definition on_free (a : dict) : Prop :=
  forall k, In k (dict_keys a) -> startswith (lower k) "on" = false.

(** An [href], if there is one, is one the strict sanitizer leaves alone. *)
Definition href_inert (a : dict) : Prop :=
  forall v, dict_get a "href" = Some v -> exempt_href v = true.

(** What holds of every tag that [sanitize_html_] returns. *)
Definition clean (inside : bool) (n : string) (a : dict) : Prop :=
  str_in n removed_names = false
  /\ dict_has a "srcset" = false
  /\ dict_has a "src" = false
  /\ on_free a
  /\ href_inert a
  /\ forms_attrs inside n a = a.

(** A rewrite that leaves the value under [k] alone or removes it. *)
Definition keeps_or_drops (k : string) (g : dict -> dict) : Prop :=
  forall a, dict_get (g a) k = None \/ dict_get (g a) k = dict_get a k.

(* ================================================================= *)
(** * Example documents

    Parse trees of small documents, as [html.parser] builds them. *)

(** The document [<p><script>x</script>hi</p>]. *)
Definition C1_soup : Soup :=
  [Tag "p" [] [Tag "script" [] [NavigableString "x"]; NavigableString "hi"]].



(** The document
    [<p><a href="http://evil.test" class="x">click</a><a href="mailto:a@b.c"></a></p>]. *)
Definition C3_soup : Soup :=
  [Tag "p" []
       [Tag "a" [("href", "http://evil.test"); ("class", "x")] [NavigableString "click"];
        Tag "a" [("href", "mailto:a@b.c")] []]].

(** The document [<img src="http://evil.test/x.png">]. *)
Definition C4_soup : Soup := [Tag "img" [("src", "http://evil.test/x.png")] []].

(** The document
    [<form action="http://evil.test/collect"><button type="reset">Clear</button>
     <input name="q"><input type="Submit"></form>]. *)
Definition C5_soup : Soup :=
  [Tag "form" [("action", "http://evil.test/collect")]
       [Tag "button" [("type", "reset")] [NavigableString "Clear"];
        Tag "input" [("name", "q")] [];
        Tag "input" [("type", "Submit")] []]].

(** The document [<script src="x.js" onload="f()">alert(1)</script>]. *)
Definition C9_soup : Soup :=
  [Tag "script" [("src", "x.js"); ("onload", "f()")] [NavigableString "alert(1)"]].

(** The document [<a href="mailto:a@b.c">mail</a>]. *)
Definition C10_soup : Soup :=
  [Tag "a" [("href", "mailto:a@b.c")] [NavigableString "mail"]].

(** The document
    [<div><!--[if IE]>x<![endif]--><noscript><!--y--></noscript></div>]. *)
Definition comments_soup : Soup :=
  [Tag "div" []
       [Comment "[if IE]>x<![endif]";
        Tag "noscript" [] [Comment "y"]]].

(* ================================================================= *)
(** * [normalize_input_to_url] (lines 35-48)

    A Python [str] is here the string of the bytes of its UTF-8
    encoding.  Prefixes, equality, searching and splitting are the same
    on the bytes as on the characters, and so is stripping a set of
    ASCII characters; stripping white space has to know the encodings of
    the white-space characters. *)

(** White space, as [str.isspace] and [str.strip] see it, by the length
    of the encoding: U+0009-000D, U+001C-001F and U+0020 in one byte,
    U+0085 and U+00A0 in two, U+1680, U+2000-200A, U+2028, U+2029,
    U+202F, U+205F and U+3000 in three. *)
Definition space1 (a : ascii) : bool :=
  let n := nat_of_ascii a in
  (Nat.leb 9 n && Nat.leb n 13) || (Nat.leb 28 n && Nat.leb n 32).

Definition space2 (a b : ascii) : bool :=
  let n := nat_of_ascii b in
  Nat.eqb (nat_of_ascii a) 194 && (Nat.eqb n 133 || Nat.eqb n 160).

Definition space3 (a b c : ascii) : bool :=
  let x := nat_of_ascii a in
  let y := nat_of_ascii b in
  let z := nat_of_ascii c in
  (Nat.eqb x 225 && Nat.eqb y 154 && Nat.eqb z 128)
  || (Nat.eqb x 226 && Nat.eqb y 128
      && ((Nat.leb 128 z && Nat.leb z 138)
          || Nat.eqb z 168 || Nat.eqb z 169 || Nat.eqb z 175))
  || (Nat.eqb x 226 && Nat.eqb y 129 && Nat.eqb z 159)
  || (Nat.eqb x 227 && Nat.eqb y 128 && Nat.eqb z 128).

(** What follows the character at the head of [s] when that character
    is white space; [w1], [w2] and [w3] recognize the encodings of one,
    two and three bytes. *)
Definition after_space (w1 : ascii -> bool) (w2 : ascii -> ascii -> bool)
  (w3 : ascii -> ascii -> ascii -> bool) (s : string) : option string :=
  match s with
  | EmptyString => None
  | String a s1 =>
      if w1 a then Some s1
      else match s1 with
           | EmptyString => None
           | String b s2 =>
               if w2 a b then Some s2
               else match s2 with
                    | EmptyString => None
                    | String c s3 => if w3 a b c then Some s3 else None
                    end
           end
  end.

(** Dropping the white space at the head of [s]. *)
Fixpoint lstrip_seq (w1 : ascii -> bool) (w2 : ascii -> ascii -> bool)
  (w3 : ascii -> ascii -> ascii -> bool) (s : string) : string :=
  match s with
  | EmptyString => EmptyString
  | String a s1 =>
      if w1 a then lstrip_seq w1 w2 w3 s1
      else match s1 with
           | EmptyString => s
           | String b s2 =>
               if w2 a b then lstrip_seq w1 w2 w3 s2
               else match s2 with
                    | EmptyString => s
                    | String c s3 =>
                        if w3 a b c then lstrip_seq w1 w2 w3 s3 else s
                    end
           end
  end.

(** [s[::-1]] on the bytes *)
Fixpoint reverse (s : string) : string :=
  match s with
  | EmptyString => EmptyString
  | String c s' => (reverse s' ++ String c EmptyString)%string
  end.

(** [s.lstrip()] *)
Definition lstrip (s : string) : string := lstrip_seq space1 space2 space3 s.

(** [s.rstrip()]: the same from the end, where the bytes of a character
    come in the opposite order. *)
Definition rstrip (s : string) : string :=
  reverse (lstrip_seq space1 (fun b a => space2 a b) (fun c b a => space3 a b c)
             (reverse s)).

(** [s.strip()] *)
Definition strip (s : string) : string := rstrip (lstrip s).

(** [s.lstrip(chars)] for a set of ASCII characters, given by its test. *)
Fixpoint lstrip_by (f : ascii -> bool) (s : string) : string :=
  match s with
  | EmptyString => EmptyString
  | String c s' => if f c then lstrip_by f s' else s
  end.

(** [s.rstrip(chars)] *)
Fixpoint rstrip_by (f : ascii -> bool) (s : string) : string :=
  match s with
  | EmptyString => EmptyString
  | String c s' =>
      match rstrip_by f s' with
      | EmptyString => if f c then EmptyString else String c EmptyString
      | r => String c r
      end
  end.

Definition strip_by (f : ascii -> bool) (s : string) : string :=
  rstrip_by f (lstrip_by f s).

(** [s.strip(chars)] *)
Definition strip_chars (chars s : string) : string :=
  strip_by (fun c => Serializer.contains_char c chars) s.

(** [s[n:]] *)
Fixpoint drop (n : nat) (s : string) : string :=
  match n, s with
  | O, _ => s
  | S _, EmptyString => EmptyString
  | S k, String _ s' => drop k s'
  end.

(** The first occurrence of [sep] in [s]: what is before it and what is
    after it ([s.partition(sep)] when [sep] occurs). *)
Fixpoint partition (sep s : string) : option (string * string) :=
  if String.prefix sep s then Some (EmptyString, drop (String.length sep) s)
  else
    match s with
    | EmptyString => None
    | String c s' =>
        match partition sep s' with
        | Some (before, after) => Some (String c before, after)
        | None => None
        end
    end.

(** [sep in s] *)
Definition substr_in (sep s : string) : bool :=
  match partition sep s with Some _ => true | None => false end.

(** [s.split(sep)] for a non-empty [sep]: cut at the first occurrence
    and go on behind it.  Every cut removes at least one character, so
    that [length s] rounds suffice ([split_fuel_enough]). *)
Fixpoint split_fuel (fuel : nat) (sep s : string) : list string :=
  match fuel with
  | O => [s]
  | S fuel' =>
      match partition sep s with
      | None => [s]
      | Some (before, after) => before :: split_fuel fuel' sep after
      end
  end.

Definition split (sep s : string) : list string :=
  split_fuel (String.length s) sep s.

Definition normalize_input_to_url (user_input : string) : string :=
  let parts := split "://" user_input in
  match parts with
  | [] => ""
  | _ :: _ =>
      let last := strip (List.last parts "") in
      if negb (truthy last) then ""
      else ("https://" ++ last)%string
  end.

(* ================================================================= *)
(** * [sanitize_html_] as one traversal *)

(** The passes of [sanitize_html_] before the notice, on a node that
    has ([inside = true]) or has not a [form] ancestor. *)
Definition neutralize_at (inside : bool) (e : PageElement) : PageElement :=
  let e := fold_left (fun e x => prune (by_name x) e)
                     ["script"; "iframe"; "object"; "embed"; "noscript"; "base"] e in
  let e := fold_left (fun e x => prune (by_name x) e) ["link"] e in
  let e := fold_left (fun e x => prune (by_name x) e) ["meta"] e in
  let e := amap (only (by_attr "srcset") (del_attr "srcset")) e in
  let e := amap (only (by_name "img") strict_img_attrs) e in
  let e := amap (only (by_attr "href") strict_href_attrs) e in
  let e := amap (only (by_attr "src") (del_attr "src")) e in
  let e := amap (only any_tag (strip_prefix_on true)) e in
  let e := forms_rec inside e in
  fold_left (fun e x => prune (by_name x) e) ["video"; "audio"; "source"; "track"] e.

(** One traversal: a tag with a removed name goes, with all below it;
    any other tag keeps its name and its children's order and gets the
    attributes [strict_attrs]; text and comments stay. *)
Fixpoint sanitize_node (inside : bool) (e : PageElement) : PageElement :=
  match e with
  | Tag n a cs =>
      if str_in n removed_names then Decomposed
      else Tag n (strict_attrs inside n a)
               (map (sanitize_node (inside || String.eqb n "form")) cs)
  | _ => e
  end.

(** The names of the tags on the way from [e] down to the node that [q]
    refers to, that node excluded. *)
Fixpoint names_above (q : path) (e : PageElement) : list string :=
  match q, e with
  | i :: q', Tag n _ cs =>
      n :: match nth_error cs i with
           | Some c => names_above q' c
           | None => []
           end
  | _, _ => []
  end.

(** The names of the ancestors of the node that [p] refers to. *)
Definition ancestors (p : path) (soup : Soup) : list string :=
  match p with
  | [] => []
  | i :: q =>
      match nth_error soup i with
      | Some c => names_above q c
      | None => []
      end
  end.

(** Some ancestor is a tag that [sanitize_html_] removes. *)
Definition below_removed (p : path) (soup : Soup) : bool :=
  existsb (fun n => str_in n removed_names) (ancestors p soup).

(* ================================================================= *)
(** * The fetch and the Streamlit script (lines 22-27, 50-90, 245-305)

    The script talks to the network through [requests.get] and to the
    page through Streamlit.  What the libraries answer is not in
    [app.py]: it is the [World] below.  A run of the code is a function
    of the state of the network that gives the calls made, in order,
    the value returned or the exception raised, and the state of the
    network afterwards. *)

Module App.

Definition USER_AGENT : string :=
  ("Mozilla/5.0 (Windows NT 10.0; Win64; x64) "
   ++ "AppleWebKit/537.36 (KHTML, like Gecko) "
   ++ "Chrome/120.0.0.0 Safari/537.36")%string.

Definition REQUEST_TIMEOUT : nat := 10.

(** An exception that is raised: an instance of
    [requests.exceptions.RequestException] (of the class or of one of
    its subclasses, as [HTTPError] is) or of another class. *)
Inductive raised : Type :=
| RequestException (e : Pipeline.Exception)
| OtherException (e : Pipeline.Exception).

Inductive result (A : Type) : Type :=
| Ok (x : A)
| Err (e : raised).
Arguments Ok {A} x.
Arguments Err {A} e.

(** The named tuple that [urlparse] returns. *)
Record ParseResult : Type := {
  scheme : string;
  netloc : string;
  path : string;
  params : string;
  query : string;
  fragment : string
}.

(** What the libraries do.  [requests.get] depends on the network and
    changes it; the functions of [urllib.parse] depend on their argument
    only. *)
Record World : Type := {
  Response : Type;                                   (* requests.Response *)
  text : Response -> string;                         (* resp.text *)
  raise_for_status : Response -> result unit;        (* resp.raise_for_status() *)
  Net : Type;
  requests_get : string -> dict -> nat -> Net -> result Response * Net;
  urlparse : string -> result ParseResult;
  parse_qs : string -> result (list (string * list string));
  quote_plus : string -> result string
}.

(** The calls that leave the program, in the order made. *)
Inductive event : Type :=
| request (url : string) (headers : dict) (timeout : nat)   (* requests.get *)
| st_info (msg : string)
| st_warning (msg : string)
| ui (c : Pipeline.ui_call).

(** [qs[k]] when [k in qs], for the dictionary of lists of [parse_qs]. *)
Fixpoint qs_get (qs : list (string * list string)) (k : string) : option (list string) :=
  match qs with
  | [] => None
  | (k', v) :: qs' => if String.eqb k' k then Some v else qs_get qs' k
  end.

(** [a or b] for strings *)
Definition or_str (a b : string) : string := if truthy a then a else b.

(** The headers of the first fetch (lines 260-275). *)
Definition browser_headers : dict :=
  [("User-Agent",
    ("Mozilla/5.0 (Windows NT 10.0; Win64; x64) "
     ++ "AppleWebKit/537.36 (KHTML, like Gecko) "
     ++ "Chrome/131.0.0.0 Safari/537.36")%string);
   ("Accept-Language", "en-US,en;q=0.9");
   ("Accept",
    ("text/html,application/xhtml+xml,application/xml;"
     ++ "q=0.9,image/avif,image/webp,*/*;q=0.8")%string);
   ("Referer", "https://www.google.com/");
   ("Cookie",
    ("SOCS=CAI; "
     ++ "CONSENT=PENDING+123; "
     ++ "AEC=SomeValidFallbackToken;")%string)].

Section Program.

Variable Wd : World.

Definition io (A : Type) : Type :=
  Net Wd -> list event * result A * Net Wd.

Definition ret {A : Type} (x : A) : io A := fun w => ([], Ok x, w).

Definition bind {A B : Type} (m : io A) (f : A -> io B) : io B :=
  fun w =>
    match m w with
    | (l1, Ok x, w1) =>
        match f x w1 with
        | (l2, r, w2) => (l1 ++ l2, r, w2)
        end
    | (l1, Err e, w1) => (l1, Err e, w1)
    end.

Notation "x <- m ;; k" := (bind m (fun x => k))
  (at level 61, m at next level, right associativity).
Notation "m ;;; k" := (bind m (fun _ => k))
  (at level 61, right associativity).

(** A call that touches neither the network nor the page. *)
Definition lift {A : Type} (r : result A) : io A := fun w => ([], r, w).

Definition emit (ev : event) : io unit := fun w => ([ev], Ok tt, w).

(** [requests.get(url, headers=headers, timeout=timeout)] *)
Definition get (url : string) (headers : dict) (timeout : nat) : io (Response Wd) :=
  fun w =>
    match requests_get Wd url headers timeout w with
    | (r, w') => ([request url headers timeout], r, w')
    end.

(** [try: c  except RequestException as e: handler(e)]: an exception of
    another class passes through, and so does one that the handler
    raises. *)
Definition try_except_RequestException {A : Type}
  (c : io A) (handler : Pipeline.Exception -> io A) : io A :=
  fun w =>
    match c w with
    | (l1, Err (RequestException e), w1) =>
        match handler e w1 with
        | (l2, r, w2) => (l1 ++ l2, r, w2)
        end
    | run => run
    end.

Definition is_valid_url (url : string) : io bool :=
  parsed <- lift (urlparse Wd url) ;;
  ret (truthy (scheme parsed) && truthy (netloc parsed)).

(** [headers] is [None] when the argument is left out. *)
Definition fetch_url (url : string) (headers : option dict) : io (Response Wd) :=
  let hdrs := match headers with
              | Some ((_ :: _) as h) => h
              | _ => [("User-Agent", USER_AGENT)]
              end in
  resp <- get url hdrs REQUEST_TIMEOUT ;;
  lift (raise_for_status Wd resp) ;;;
  ret resp.

Definition google_fallback_search (original_url : string) : io (Response Wd) :=
  parsed <- lift (urlparse Wd original_url) ;;
  qs <- lift (parse_qs Wd (query parsed)) ;;
  let query :=
    match qs_get qs "q" with
    | Some (q0 :: _) => q0
    | _ =>
        let path_candidate := strip_chars "/ " (path parsed) in
        let fragment := strip (fragment parsed) in
        or_str path_candidate (or_str fragment "")
    end in
  let query := or_str query "" in
  safe_q <- (if truthy query then lift (quote_plus Wd query) else ret "") ;;
  let search_url :=
    if truthy safe_q
    then ("https://www.google.com/search?q=" ++ safe_q ++ "&num=1")%string
    else "https://www.google.com/search?num=1" in
  let hdrs := [("User-Agent", USER_AGENT)] in
  resp <- get search_url hdrs REQUEST_TIMEOUT ;;
  lift (raise_for_status Wd resp) ;;;
  ret resp.

(** Lines 289-305: the calls of [Pipeline.render], made. *)
Definition render (sanitize : string -> string -> Pipeline.outcome string)
  (html : option string) (final_url : string) : io unit :=
  fun w =>
    match Pipeline.render sanitize html final_url with
    | Pipeline.Returned calls => (map ui calls, Ok tt, w)
    | Pipeline.Raised e => ([], Err (OtherException e), w)
    end.

(** The body of [if submit:] (lines 245-305).  [sanitize] is the call
    [sanitize_html(html, base_url=final_url)].  The dash in the warning
    is, as all text here, the bytes of its UTF-8 encoding.  [lower] decides the
    test on the host as [str.lower] does: the only characters that
    lower to a letter of "google." are the ASCII capitals. *)
Definition on_submit (sanitize : string -> string -> Pipeline.outcome string)
  (user_input : string) : io unit :=
  if negb (truthy user_input) || negb (substr_in "://" user_input) then
    emit (ui (Pipeline.st_error
      "Please enter a string containing '://'. Example: https://abc://example.com/page"))
  else
    let final_url := normalize_input_to_url user_input in
    valid <- is_valid_url final_url ;;
    if negb valid then
      emit (ui (Pipeline.st_error ("Resulting URL is invalid: " ++ final_url)%string))
    else
      emit (st_info ("Attempting to fetch: " ++ final_url)%string) ;;;
      html <- try_except_RequestException
                (resp <- fetch_url final_url (Some browser_headers) ;;
                 ret (Some (text Wd resp)))
                (fun e =>
                   parsed <- lift (urlparse Wd final_url) ;;
                   let netloc := lower (netloc parsed) in
                   if substr_in "google." netloc then
                     emit (st_warning
                       "Direct fetch failed for Google — attempting a simple fallback search (num=1) with browser user-agent.") ;;;
                     try_except_RequestException
                       (resp <- google_fallback_search final_url ;;
                        ret (Some (text Wd resp)))
                       (fun e2 =>
                          emit (ui (Pipeline.st_error
                            ("Failed to fetch page even with Google fallback: "
                             ++ Pipeline.message e2)%string)) ;;;
                          ret None)
                   else
                     emit (ui (Pipeline.st_error
                       ("Failed to fetch URL: " ++ Pipeline.message e)%string)) ;;;
                     ret None) ;;
      render sanitize html final_url.

End Program.

Arguments ret {Wd A} x.
Arguments bind {Wd A B} m f.
Arguments lift {Wd A} r.
Arguments try_except_RequestException {Wd A} c handler.

(** What a run did. *)
Definition log_of {N A : Type} (run : list event * result A * N) : list event :=
  fst (fst run).
Definition result_of {N A : Type} (run : list event * result A * N) : result A :=
  snd (fst run).

(** The requests among the calls, and the documents handed to
    [components.html]. *)
Fixpoint requests_of (l : list event) : list (string * dict * nat) :=
  match l with
  | [] => []
  | request url headers timeout :: l' => (url, headers, timeout) :: requests_of l'
  | _ :: l' => requests_of l'
  end.


Fixpoint errors_of (l : list event) : list string :=
  match l with
  | [] => []
  | ui (Pipeline.st_error msg) :: l' => msg :: errors_of l'
  | _ :: l' => errors_of l'
  end.

(** A page was fetched: some request of the run was answered with a
    response that [raise_for_status] accepts and whose text is [html]. *)
Definition fetched (Wd : World) (l : list event) (html : string) : Prop :=
  exists url headers timeout w w' resp,
    In (request url headers timeout) l
    /\ requests_get Wd url headers timeout w = (Ok resp, w')
    /\ raise_for_status Wd resp = Ok tt
    /\ text Wd resp = html.

(** A world for examples: every request is answered with the same
    page, a response is its status and its text, and a URL is cut at
    its first "://" and at the first "/" behind it. *)
Definition example_world (status : nat) (page : string) : World := {|
  Response := nat * string;
  text := snd;
  raise_for_status := fun resp =>
    if Nat.leb 400 (fst resp) && Nat.ltb (fst resp) 600
    then Err (RequestException {| Pipeline.message := "HTTPError" |})
    else Ok tt;
  Net := unit;
  requests_get := fun _ _ _ w => (Ok (status, page), w);
  urlparse := fun url =>
    match partition "://" url with
    | Some (s, rest) =>
        match partition "/" rest with
        | Some (host, p) =>
            Ok {| scheme := s; netloc := host; path := String "/" p;
                  params := ""; query := ""; fragment := "" |}
        | None =>
            Ok {| scheme := s; netloc := rest; path := "";
                  params := ""; query := ""; fragment := "" |}
        end
    | None =>
        Ok {| scheme := ""; netloc := ""; path := url;
              params := ""; query := ""; fragment := "" |}
    end;
  parse_qs := fun _ => Ok [];
  quote_plus := fun s => Ok s
|}.

End App.

(* ================================================================= *)
(** * Well-formed markup

    The specification asks for syntactically valid HTML text.
    [valid_html] follows these words, read as the shape of the text:
    elements are nested and every start tag has its end tag, a void
    element is closed in its start tag, attribute values are quoted and
    hold neither their quote nor an angle bracket, text holds no angle
    bracket, and a comment, a preformatted string and the text of a
    [script] or [style] element end where their terminator first
    occurs.  [well_parsed] says what this asks of the tree that the
    parser hands over. *)

(** A tag or attribute name: not empty, and without white space, angle
    bracket, slash, equals sign and quote. *)
Definition name_char (c : ascii) : bool :=
  negb (space1 c
        || existsb (Ascii.eqb c)
             ["<"; ">"; "/"; "="; Serializer.dquote; Serializer.squote]%char).

Fixpoint all_chars (f : ascii -> bool) (s : string) : bool :=
  match s with
  | EmptyString => true
  | String c s' => f c && all_chars f s'
  end.

Definition is_name (s : string) : bool := truthy s && all_chars name_char s.

(** An attribute value in its quotes. *)
Definition quoted (s : string) : Prop :=
  exists q v,
    (q = Serializer.dquote \/ q = Serializer.squote)
    /\ s = String q (v ++ String q EmptyString)
    /\ Serializer.contains_char q v = false
    /\ Serializer.contains_char "<" v = false
    /\ Serializer.contains_char ">" v = false.

(** The attributes of a start tag. *)
Inductive attribute_string : string -> Prop :=
| attribute_string_nil : attribute_string ""
| attribute_string_cons k v rest :
    is_name k = true -> quoted v -> attribute_string rest ->
    attribute_string (" " ++ k ++ "=" ++ v ++ rest).





(* ================================================================= *)
(** * Loops over references *)

Section Loops.
Variable body : PageElement -> PageElement.

Lemma update_in_shift (p : path) (c : PageElement) (cs : Soup) :
  update_in body (shift p) (c :: cs) = c :: update_in body p cs.
Proof. destruct p; reflexivity. Qed.

Lemma for_each_head (ps : list path) (c : PageElement) (cs : Soup) :
  for_each (map (cons 0) ps) body (c :: cs) = for_each_at ps body c :: cs.
Proof.
  revert c. induction ps as [|p ps IH]; intro c; [reflexivity|].
  unfold for_each, for_each_at in *. simpl. apply IH.
Qed.

Lemma for_each_tail (ps : list path) (c : PageElement) (cs : Soup) :
  for_each (map shift ps) body (c :: cs) = c :: for_each ps body cs.
Proof.
  revert cs. induction ps as [|p ps IH]; intro cs; [reflexivity|].
  unfold for_each in *. simpl map. simpl fold_left.
  rewrite update_in_shift. apply IH.
Qed.

Lemma for_each_app (ps qs : list path) (s : Soup) :
  for_each (ps ++ qs) body s = for_each qs body (for_each ps body s).
Proof. apply fold_left_app. Qed.

(** The references below a list of siblings split per sibling. *)
Lemma for_each_children (f : PageElement -> list path)
  (c0 : PageElement) (cs0 : Soup) (c : PageElement) (cs : Soup) :
  for_each (in_children f (c0 :: cs0)) body (c :: cs)
  = for_each_at (f c0) body c :: for_each (in_children f cs0) body cs.
Proof.
  change (in_children f (c0 :: cs0))
    with (map (cons 0) (f c0) ++ map shift (in_children f cs0)).
  rewrite for_each_app, for_each_head, for_each_tail. reflexivity.
Qed.

Lemma for_each_nil_soup (ps : list path) : for_each ps body [] = [].
Proof.
  induction ps as [|p ps IH]; [reflexivity|].
  unfold for_each in *. simpl. destruct p as [|i p]; [exact IH|].
  destruct i; exact IH.
Qed.

Lemma for_each_at_app (ps qs : list path) (e : PageElement) :
  for_each_at (ps ++ qs) body e = for_each_at qs body (for_each_at ps body e).
Proof. apply fold_left_app. Qed.

Lemma for_each_at_self (e : PageElement) : for_each_at [[]] body e = body e.
Proof. reflexivity. Qed.

Lemma for_each_at_none (e : PageElement) : for_each_at [] body e = e.
Proof. reflexivity. Qed.

Lemma for_each_at_Tag (ps : list path) (n : string) (a : dict) (cs : Soup) :
  Forall (fun p => p <> []) ps ->
  for_each_at ps body (Tag n a cs) = Tag n a (for_each ps body cs).
Proof.
  intro H. revert cs. induction H as [|p ps Hp _ IH]; intro cs; [reflexivity|].
  unfold for_each_at, for_each in *. simpl fold_left.
  destruct p as [|i p]; [congruence|]. simpl update. apply IH.
Qed.

Lemma for_each_at_leaf (ps : list path) (e : PageElement) :
  Forall (fun p => p <> []) ps ->
  (forall n a cs, e <> Tag n a cs) ->
  for_each_at ps body e = e.
Proof.
  intros H He. induction H as [|p ps Hp _ IH]; [reflexivity|].
  unfold for_each_at in *. simpl fold_left.
  destruct p as [|i p]; [congruence|].
  destruct e; simpl update; try exact IH. exfalso. eapply He. reflexivity.
Qed.
End Loops.

Lemma in_children_nonempty (f : PageElement -> list path) (cs : Soup) :
  Forall (fun p => p <> []) (in_children f cs).
Proof.
  induction cs as [|c cs IH]; simpl; [constructor|].
  apply Forall_app. split.
  - apply Forall_forall. intros p Hp. apply in_map_iff in Hp.
    destruct Hp as [q [<- _]]. discriminate.
  - apply Forall_forall. intros p Hp. apply in_map_iff in Hp.
    destruct Hp as [q [<- Hq]]. rewrite Forall_forall in IH.
    specialize (IH q Hq). destruct q; [congruence|discriminate].
Qed.

Lemma find_all_nonempty (m : string -> dict -> bool) (cs : Soup) :
  Forall (fun p => p <> []) (find_all m cs).
Proof. apply in_children_nonempty. Qed.

(** From the children to the list: a loop over the references found
    below [cs0], run on siblings [cs] that are images of [cs0]. *)
Lemma for_each_in_children (body : PageElement -> PageElement)
  (f : PageElement -> list path) (pre post : PageElement -> PageElement)
  (cs : Soup) :
  Forall (fun c => for_each_at (f c) body (pre c) = post c) cs ->
  for_each (in_children f cs) body (map pre cs) = map post cs.
Proof.
  induction 1 as [|c cs Hc _ IH]; [reflexivity|].
  simpl map. rewrite for_each_children, Hc, IH. reflexivity.
Qed.

(* ----------------------------------------------------------------- *)
(** ** Loops that decompose, loops that rewrite attributes *)

Lemma for_each_decompose_at (m : string -> dict -> bool) (body : PageElement -> PageElement) :
  (forall n a cs, m n a = true -> body (Tag n a cs) = Decomposed) ->
  forall e, for_each_at (tag_paths m e) body e = prune m e.
Proof.
  intros Hbody. induction e as [n a cs IH| | | |] using PageElement_tree_ind;
    try reflexivity.
  simpl tag_paths. rewrite for_each_at_app.
  simpl prune. destruct (m n a) eqn:Hm.
  - rewrite for_each_at_self, Hbody by exact Hm.
    apply for_each_at_leaf; [apply in_children_nonempty | discriminate].
  - rewrite for_each_at_none, for_each_at_Tag by apply in_children_nonempty.
    f_equal. rewrite <- (map_id cs) at 2.
    apply for_each_in_children. exact IH.
Qed.

Lemma for_each_decompose (m : string -> dict -> bool) (body : PageElement -> PageElement)
  (soup : Soup) :
  (forall n a cs, m n a = true -> body (Tag n a cs) = Decomposed) ->
  for_each (find_all m soup) body soup = map (prune m) soup.
Proof.
  intro Hbody. unfold find_all. rewrite <- (map_id soup) at 2.
  apply for_each_in_children. apply Forall_forall. intros e _.
  apply for_each_decompose_at. exact Hbody.
Qed.

Lemma for_each_attrs_at (m : string -> dict -> bool) (g : string -> dict -> dict)
  (body : PageElement -> PageElement) :
  (forall n a cs, m n a = true -> body (Tag n a cs) = Tag n (g n a) cs) ->
  forall e, for_each_at (tag_paths m e) body e = amap (only m g) e.
Proof.
  intros Hbody. induction e as [n a cs IH| | | |] using PageElement_tree_ind;
    try reflexivity.
  simpl tag_paths. rewrite for_each_at_app.
  simpl amap. unfold only at 1. destruct (m n a) eqn:Hm.
  - rewrite for_each_at_self, Hbody by exact Hm.
    rewrite for_each_at_Tag by apply in_children_nonempty.
    f_equal. rewrite <- (map_id cs) at 2.
    apply for_each_in_children. exact IH.
  - rewrite for_each_at_none, for_each_at_Tag by apply in_children_nonempty.
    f_equal. rewrite <- (map_id cs) at 2.
    apply for_each_in_children. exact IH.
Qed.

Lemma for_each_attrs (m : string -> dict -> bool) (g : string -> dict -> dict)
  (body : PageElement -> PageElement) (soup : Soup) :
  (forall n a cs, m n a = true -> body (Tag n a cs) = Tag n (g n a) cs) ->
  for_each (find_all m soup) body soup = map (amap (only m g)) soup.
Proof.
  intro Hbody. unfold find_all. rewrite <- (map_id soup) at 2.
  apply for_each_in_children. apply Forall_forall. intros e _.
  apply for_each_attrs_at. exact Hbody.
Qed.

(* ================================================================= *)
(** * Dictionaries *)

Lemma dict_get_set (a : dict) (k v k' : string) :
  dict_get (dict_set a k v) k' = if String.eqb k k' then Some v else dict_get a k'.
Proof.
  induction a as [|[k0 v0] a IH]; simpl.
  - reflexivity.
  - destruct (String.eqb k0 k) eqn:E0; simpl.
    + apply String.eqb_eq in E0. subst k0.
      destruct (String.eqb k k'); reflexivity.
    + rewrite IH. destruct (String.eqb k0 k') eqn:E1; [|reflexivity].
      apply String.eqb_eq in E1. subst k0.
      rewrite String.eqb_sym, E0. reflexivity.
Qed.

Lemma dict_get_filter (q : string -> bool) (a : dict) (k : string) :
  dict_get (filter (fun kv => q (fst kv)) a) k = if q k then dict_get a k else None.
Proof.
  induction a as [|[k0 v0] a IH]; simpl.
  - destruct (q k); reflexivity.
  - destruct (q k0) eqn:Q0; simpl.
    + destruct (String.eqb k0 k) eqn:E; [|exact IH].
      apply String.eqb_eq in E. subst k0. rewrite Q0. reflexivity.
    + rewrite IH. destruct (String.eqb k0 k) eqn:E; [|reflexivity].
      apply String.eqb_eq in E. subst k0. rewrite Q0. reflexivity.
Qed.

Lemma dict_get_del (a : dict) (k k' : string) :
  dict_get (dict_del a k) k' = if String.eqb k k' then None else dict_get a k'.
Proof.
  unfold dict_del.
  rewrite (dict_get_filter (fun x => negb (String.eqb x k))).
  rewrite (String.eqb_sym k' k). destruct (String.eqb k k'); reflexivity.
Qed.

Lemma dict_has_set (a : dict) (k v k' : string) :
  dict_has (dict_set a k v) k' = String.eqb k k' || dict_has a k'.
Proof.
  unfold dict_has. rewrite dict_get_set. destruct (String.eqb k k'); reflexivity.
Qed.

Lemma dict_has_del (a : dict) (k k' : string) :
  dict_has (dict_del a k) k' = negb (String.eqb k k') && dict_has a k'.
Proof.
  unfold dict_has. rewrite dict_get_del. destruct (String.eqb k k'); reflexivity.
Qed.

Lemma dict_has_filter (q : string -> bool) (a : dict) (k : string) :
  dict_has (filter (fun kv => q (fst kv)) a) k = q k && dict_has a k.
Proof.
  unfold dict_has. rewrite dict_get_filter. destruct (q k); reflexivity.
Qed.

Lemma dict_get_In (a : dict) (k : string) :
  dict_get a k = None <-> ~ In k (dict_keys a).
Proof.
  induction a as [|[k0 v0] a IH]; simpl.
  - split; [intros _ []|reflexivity].
  - destruct (String.eqb k0 k) eqn:E.
    + apply String.eqb_eq in E. split; [discriminate|]. intro H. exfalso. auto.
    + apply String.eqb_neq in E. rewrite IH. split.
      * intros H [H0|H0]; [congruence|auto].
      * intros H H0. apply H. right. exact H0.
Qed.

Lemma dict_del_absent (a : dict) (k : string) :
  dict_has a k = false -> dict_del a k = a.
Proof.
  unfold dict_has, dict_del. intro H.
  assert (Hk : ~ In k (dict_keys a)).
  { apply dict_get_In. destruct (dict_get a k); [discriminate|reflexivity]. }
  clear H. induction a as [|[k0 v0] a IH]; [reflexivity|].
  simpl in *. destruct (String.eqb k0 k) eqn:E.
  - apply String.eqb_eq in E. exfalso. auto.
  - simpl. f_equal. apply IH. intro H. apply Hk. right. exact H.
Qed.

Lemma dict_set_same (a : dict) (k v : string) :
  dict_get a k = Some v -> dict_set a k v = a.
Proof.
  induction a as [|[k0 v0] a IH]; simpl; [discriminate|].
  destruct (String.eqb k0 k) eqn:E.
  - intro H. injection H as ->. reflexivity.
  - intro H. rewrite IH by exact H. reflexivity.
Qed.

Lemma dict_keys_set (a : dict) (k v k' : string) :
  In k' (dict_keys (dict_set a k v)) -> k' = k \/ In k' (dict_keys a).
Proof.
  induction a as [|[k0 v0] a IH]; simpl.
  - intros [H|[]]. left. symmetry. exact H.
  - destruct (String.eqb k0 k); simpl.
    + intros [H|H]; right; [left|right]; exact H.
    + intros [H|H]; [right; left; exact H|].
      destruct (IH H) as [H1|H1]; [left|right; right]; exact H1.
Qed.

(** Deleting, one key after the other, the keys of a snapshot that a
    test accepts is a filter. *)
Lemma fold_del_keys (q : string -> bool) (ks : list string) (n : string) (a : dict)
  (cs : Soup) :
  fold_left (fun e k => if q k then delitem k e else e) ks (Tag n a cs)
  = Tag n (filter (fun kv => negb (q (fst kv) && existsb (String.eqb (fst kv)) ks)) a) cs.
Proof.
  revert a. induction ks as [|k ks IH]; intro a; simpl fold_left.
  - f_equal. symmetry. rewrite <- (filter_ext (fun _ => true)).
    + induction a as [|x a IHa]; simpl; [reflexivity|]. rewrite IHa. reflexivity.
    + intro kv. simpl. rewrite andb_false_r. reflexivity.
  - destruct (q k) eqn:Q.
    + simpl delitem. rewrite IH. f_equal. unfold dict_del.
      induction a as [|[k0 v0] a IHa]; [reflexivity|]. simpl.
      destruct (String.eqb k0 k) eqn:E; simpl.
      * apply String.eqb_eq in E. subst k0. rewrite Q. simpl. exact IHa.
      * destruct (negb (q k0 && existsb (String.eqb k0) ks)); rewrite IHa; reflexivity.
    + rewrite IH. f_equal. apply filter_ext. intros [k0 v0]. simpl.
      destruct (String.eqb k0 k) eqn:E; [|reflexivity].
      apply String.eqb_eq in E. subst k0. rewrite Q. reflexivity.
Qed.

Lemma fold_del_own_keys (q : string -> bool) (n : string) (a : dict) (cs : Soup) :
  fold_left (fun e k => if q k then delitem k e else e) (dict_keys a) (Tag n a cs)
  = Tag n (filter (fun kv => negb (q (fst kv))) a) cs.
Proof.
  rewrite fold_del_keys. f_equal. apply filter_ext_in. intros [k v] Hin. simpl.
  assert (H : existsb (String.eqb k) (dict_keys a) = true).
  { apply existsb_exists. exists k. split; [|apply String.eqb_refl].
    unfold dict_keys. apply in_map_iff. exists (k, v). split; [reflexivity|exact Hin]. }
  rewrite H, andb_true_r. reflexivity.
Qed.

(* ================================================================= *)
(** * The loop bodies as attribute rewrites *)

Lemma meta_body_decomposes (e : PageElement) : Strict.meta_body e = Decomposed.
Proof. unfold Strict.meta_body. destruct (_ && _); reflexivity. Qed.

Lemma strict_img_body_attrs (n : string) (a : dict) (cs : Soup) :
  Strict.img_body (Tag n a cs) = Tag n (strict_img_attrs n a) cs.
Proof.
  unfold Strict.img_body, strict_img_attrs, strip_prefix_on.
  assert (H1 : (if has_attr (Tag n a cs) "src" then delitem "src" (Tag n a cs)
                else Tag n a cs) = Tag n (dict_del a "src") cs).
  { unfold has_attr. simpl attrs_of. destruct (dict_has a "src") eqn:E; [reflexivity|].
    rewrite dict_del_absent by exact E. reflexivity. }
  rewrite H1. clear H1.
  assert (H2 : (if has_attr (Tag n (dict_del a "src") cs) "srcset"
                then delitem "srcset" (Tag n (dict_del a "src") cs)
                else Tag n (dict_del a "src") cs)
               = Tag n (dict_del (dict_del a "src") "srcset") cs).
  { unfold has_attr. simpl attrs_of.
    destruct (dict_has (dict_del a "src") "srcset") eqn:E; [reflexivity|].
    rewrite (dict_del_absent (dict_del a "src") "srcset") by exact E. reflexivity. }
  rewrite H2. clear H2. simpl attrs_of.
  apply (fold_del_own_keys (fun k => startswith k "on")).
Qed.

Lemma strict_href_body_attrs (n : string) (a : dict) (cs : Soup) :
  Strict.href_body (Tag n a cs) = Tag n (strict_href_attrs n a) cs.
Proof.
  unfold Strict.href_body, strict_href_attrs, exempt_href, get, dict_get_default.
  simpl attrs_of.
  destruct (_ || _); reflexivity.
Qed.

Lemma handlers_body_attrs (n : string) (a : dict) (cs : Soup) :
  Strict.handlers_body (Tag n a cs) = Tag n (strip_prefix_on true n a) cs.
Proof.
  unfold Strict.handlers_body, strip_prefix_on. simpl attrs_of.
  apply (fold_del_own_keys (fun k => startswith (lower k) "on")).
Qed.

Lemma btn_body_attrs (n : string) (a : dict) (cs : Soup) :
  Strict.btn_body (Tag n a cs) = Tag n (btn_attrs n a) cs.
Proof.
  unfold Strict.btn_body, btn_attrs, submit_types, get, dict_get_default.
  cbn [name_of attrs_of].
  set (t := str_in _ _).
  destruct (String.eqb n "input") eqn:Ei.
  - apply String.eqb_eq in Ei. subst n. cbn [andb orb].
    destruct t; reflexivity.
  - cbn [andb orb name_of]. destruct (String.eqb n "button"); reflexivity.
Qed.

Lemma light_a_body_attrs (n : string) (a : dict) (cs : Soup) :
  Light.a_body (Tag n a cs) = Tag n (light_a_attrs n a) cs.
Proof.
  unfold Light.a_body, light_a_attrs, getitem, get, dict_get_default.
  simpl attrs_of. destruct (startswith _ _); reflexivity.
Qed.

Lemma light_img_body_attrs (n : string) (a : dict) (cs : Soup) :
  Light.img_body (Tag n a cs) = Tag n (light_img_attrs n a) cs.
Proof.
  unfold Light.img_body, light_img_attrs, getitem, get, dict_get_default.
  simpl attrs_of. simpl setitem. simpl attrs_of.
  destruct (negb _); reflexivity.
Qed.

(* ================================================================= *)
(** * What [find_all] returns *)

Lemma in_in_children (f : PageElement -> list path) (cs : Soup) (p : path) :
  In p (in_children f cs) ->
  exists i q c, p = i :: q /\ nth_error cs i = Some c /\ In q (f c).
Proof.
  revert p. induction cs as [|c cs IH]; intros p Hp; simpl in Hp; [contradiction|].
  apply in_app_or in Hp. destruct Hp as [Hp|Hp]; apply in_map_iff in Hp.
  - destruct Hp as [q [<- Hq]]. exists 0, q, c. auto.
  - destruct Hp as [q' [<- Hq']]. destruct (IH q' Hq') as [i [q [c' [-> [Hn Hq]]]]].
    exists (S i), q, c'. auto.
Qed.

Lemma in_children_ext (f g : PageElement -> list path) (cs : Soup) :
  Forall (fun c => f c = g c) cs -> in_children f cs = in_children g cs.
Proof.
  induction 1 as [|c cs Hc _ IH]; [reflexivity|]. simpl. rewrite Hc, IH. reflexivity.
Qed.

Lemma in_children_map (f : PageElement -> list path) (h : PageElement -> PageElement)
  (cs : Soup) :
  in_children f (map h cs) = in_children (fun c => f (h c)) cs.
Proof.
  induction cs as [|c cs IH]; [reflexivity|]. simpl. rewrite IH. reflexivity.
Qed.

Lemma in_children_none (f : PageElement -> list path) (cs : Soup) :
  Forall (fun c => f c = []) cs -> in_children f cs = [].
Proof.
  induction 1 as [|c cs Hc _ IH]; [reflexivity|]. simpl. rewrite Hc, IH. reflexivity.
Qed.

(** Every reference that a search returns points at a tag that the
    filter accepts. *)
Lemma tag_paths_matches (m : string -> dict -> bool) (e : PageElement) :
  forall p, In p (tag_paths m e) ->
  exists n a cs, get_node p e = Some (Tag n a cs) /\ m n a = true.
Proof.
  induction e as [n a cs IH| | | |] using PageElement_tree_ind;
    intros p Hp; simpl in Hp; try contradiction.
  apply in_app_or in Hp. destruct Hp as [Hp|Hp].
  - destruct (m n a) eqn:Hm; [|contradiction].
    destruct Hp as [<-|[]]. exists n, a, cs. auto.
  - apply in_in_children in Hp. destruct Hp as [i [q [c [-> [Hn Hq]]]]].
    rewrite Forall_forall in IH.
    destruct (IH c (nth_error_In _ _ Hn) q Hq) as [n' [a' [cs' [Hg Hm]]]].
    exists n', a', cs'. simpl. rewrite Hn. auto.
Qed.

Lemma find_all_matches (m : string -> dict -> bool) (soup : Soup) (p : path) :
  In p (find_all m soup) ->
  exists n a cs, get_in p soup = Some (Tag n a cs) /\ m n a = true.
Proof.
  intro Hp. apply in_in_children in Hp. destruct Hp as [i [q [c [-> [Hn Hq]]]]].
  destruct (tag_paths_matches m c q Hq) as [n [a [cs [Hg Hm]]]].
  exists n, a, cs. simpl. rewrite Hn. auto.
Qed.

Lemma find_Some_matches (m : string -> dict -> bool) (soup : Soup) (p : path) :
  find m soup = Some p ->
  exists n a cs, get_in p soup = Some (Tag n a cs) /\ m n a = true.
Proof.
  unfold find. intro H. apply find_all_matches.
  destruct (find_all m soup); [discriminate|]. injection H as ->. left. reflexivity.
Qed.

(* ================================================================= *)
(** * Attribute rewrites over the tree *)

Lemma amap_ext (g g' : string -> dict -> dict) (e : PageElement) :
  (forall n a, g n a = g' n a) -> amap g e = amap g' e.
Proof.
  intro H. induction e as [n a cs IH| | | |] using PageElement_tree_ind; try reflexivity.
  simpl. rewrite H. f_equal. apply map_ext_Forall. exact IH.
Qed.

Lemma amap_amap (g g' : string -> dict -> dict) (e : PageElement) :
  amap g (amap g' e) = amap (fun n a => g n (g' n a)) e.
Proof.
  induction e as [n a cs IH| | | |] using PageElement_tree_ind; try reflexivity.
  simpl. f_equal. rewrite map_map. apply map_ext_Forall. exact IH.
Qed.

Lemma tag_paths_amap (m : string -> dict -> bool) (g : string -> dict -> dict)
  (e : PageElement) :
  (forall n a, m n (g n a) = m n a) ->
  tag_paths m (amap g e) = tag_paths m e.
Proof.
  intro Hm. induction e as [n a cs IH| | | |] using PageElement_tree_ind; try reflexivity.
  simpl. rewrite Hm. f_equal.
  rewrite in_children_map. apply in_children_ext. exact IH.
Qed.

(* ================================================================= *)
(** * The form loop *)

Lemma form_body_Tag (n : string) (a : dict) (cs : Soup) :
  Strict.form_body (Tag n a cs) = Tag n (form_attrs a) (map disable_controls cs).
Proof.
  unfold Strict.form_body, form_attrs. cbn [setitem on_attrs]. f_equal.
  apply for_each_attrs. intros n' a' cs' _. apply btn_body_attrs.
Qed.

Lemma btn_attrs_idem (n : string) (a : dict) : btn_attrs n (btn_attrs n a) = btn_attrs n a.
Proof.
  unfold btn_attrs.
  destruct ((String.eqb n "input"
             && str_in (lower (dict_get_default a "type" "")) submit_types)
            || String.eqb n "button") eqn:E; [|rewrite E; reflexivity].
  assert (Ht : dict_get_default (dict_set a "disabled" "disabled") "type" ""
               = dict_get_default a "type" "").
  { unfold dict_get_default. rewrite dict_get_set. reflexivity. }
  rewrite Ht, E. apply dict_set_same. rewrite dict_get_set. reflexivity.
Qed.

Lemma disable_controls_idem (e : PageElement) :
  disable_controls (disable_controls e) = disable_controls e.
Proof.
  unfold disable_controls. rewrite amap_amap. apply amap_ext. intros n a.
  unfold only, by_names. destruct (str_in n ["input"; "button"]); [|reflexivity].
  apply btn_attrs_idem.
Qed.

(** The outer loop, run on a tree whose controls an enclosing form has
    ([d = true]) or has not ([d = false]) disabled already. *)
Lemma disable_forms_at (e : PageElement) :
  forall d : bool,
    for_each_at (tag_paths (by_name "form") e) Strict.form_body
                (if d then disable_controls e else e)
    = forms_rec d e.
Proof.
  induction e as [n a cs IH| | | |] using PageElement_tree_ind; intro d;
    try (destruct d; reflexivity).
  assert (Hpre : (if d then disable_controls (Tag n a cs) else Tag n a cs)
                 = Tag n (if d then only (by_names ["input"; "button"]) btn_attrs n a else a)
                       (map (fun c => if d then disable_controls c else c) cs)).
  { destruct d; [reflexivity|]. rewrite map_id. reflexivity. }
  rewrite Hpre. clear Hpre.
  simpl tag_paths. rewrite for_each_at_app.
  change (by_name "form" n a) with (String.eqb n "form").
  destruct (String.eqb n "form") eqn:En.
  - apply String.eqb_eq in En. subst n.
    rewrite for_each_at_self, form_body_Tag.
    rewrite for_each_at_Tag by apply in_children_nonempty.
    simpl forms_rec. rewrite orb_true_r. f_equal; [destruct d; reflexivity|].
    rewrite map_map.
    rewrite (map_ext _ disable_controls).
    + apply (for_each_in_children _ _ disable_controls (forms_rec true)).
      apply Forall_forall. intros c Hc. rewrite Forall_forall in IH.
      exact (IH c Hc true).
    + intro c. destruct d; [apply disable_controls_idem|reflexivity].
  - rewrite for_each_at_none.
    rewrite for_each_at_Tag by apply in_children_nonempty.
    simpl forms_rec. rewrite En, orb_false_r. f_equal.
    + unfold forms_attrs, only, by_names. rewrite En. destruct d; reflexivity.
    + apply (for_each_in_children _ _ (fun c => if d then disable_controls c else c)
               (forms_rec d)).
      apply Forall_forall. intros c Hc. rewrite Forall_forall in IH.
      exact (IH c Hc d).
Qed.

(* ================================================================= *)
(** * Each pass of [sanitize_html_] by recursion on the tree *)

Lemma remove_tags_prune (names : list string) (soup : Soup) :
  Strict.remove_tags names soup
  = fold_left (fun s x => map (prune (by_name x)) s) names soup.
Proof.
  unfold Strict.remove_tags. revert soup.
  induction names as [|x names IH]; intro soup; [reflexivity|].
  simpl. rewrite for_each_decompose by reflexivity. apply IH.
Qed.

Lemma remove_links_prune (soup : Soup) :
  Strict.remove_links soup = map (prune (by_name "link")) soup.
Proof. apply for_each_decompose. reflexivity. Qed.

Lemma remove_metas_prune (soup : Soup) :
  Strict.remove_metas soup = map (prune (by_name "meta")) soup.
Proof. apply for_each_decompose. intros. apply meta_body_decomposes. Qed.

Lemma strip_srcset_amap (soup : Soup) :
  Strict.strip_srcset soup = map (amap (only (by_attr "srcset") (del_attr "srcset"))) soup.
Proof. apply for_each_attrs. reflexivity. Qed.

Lemma neutralize_imgs_amap (soup : Soup) :
  Strict.neutralize_imgs soup = map (amap (only (by_name "img") strict_img_attrs)) soup.
Proof. apply for_each_attrs. intros. apply strict_img_body_attrs. Qed.

Lemma neutralize_hrefs_amap (soup : Soup) :
  Strict.neutralize_hrefs soup = map (amap (only (by_attr "href") strict_href_attrs)) soup.
Proof. apply for_each_attrs. intros. apply strict_href_body_attrs. Qed.

Lemma strip_src_amap (soup : Soup) :
  Strict.strip_src soup = map (amap (only (by_attr "src") (del_attr "src"))) soup.
Proof. apply for_each_attrs. reflexivity. Qed.

Lemma strip_handlers_amap (soup : Soup) :
  Strict.strip_handlers soup = map (amap (only any_tag (strip_prefix_on true))) soup.
Proof. apply for_each_attrs. intros. apply handlers_body_attrs. Qed.

Lemma disable_forms_rec (soup : Soup) :
  Strict.disable_forms soup = map (forms_rec false) soup.
Proof.
  unfold Strict.disable_forms, find_all. rewrite <- (map_id soup) at 2.
  apply (for_each_in_children _ _ (fun c => c) (forms_rec false)).
  apply Forall_forall. intros c _. exact (disable_forms_at c false).
Qed.

(** The comment loop finds nothing to extract: no text node is an
    instance of the class of [soup.Comment], which is a tag or [None]. *)
Lemma type_of_soup_Comment (soup : Soup) :
  Strict.type_of (Strict.soup_Comment soup) = Strict.NoneType
  \/ Strict.type_of (Strict.soup_Comment soup) = Strict.TagClass.
Proof.
  unfold Strict.soup_Comment.
  destruct (find (by_name "Comment") soup) as [p|] eqn:Hf; [|left; reflexivity].
  destruct (find_Some_matches _ _ _ Hf) as [n [a [cs [-> _]]]]. right. reflexivity.
Qed.

Lemma string_paths_none (m : PageElement -> bool) (e : PageElement) :
  (forall s, m (NavigableString s) = false) ->
  (forall s, m (Comment s) = false) ->
  (forall k s, m (Preformatted k s) = false) ->
  string_paths m e = [].
Proof.
  intros Hs Hc Hp. induction e as [n a cs IH| | | |] using PageElement_tree_ind; simpl.
  - apply in_children_none. exact IH.
  - rewrite Hs. reflexivity.
  - rewrite Hc. reflexivity.
  - reflexivity.
  - rewrite Hp. reflexivity.
Qed.

Lemma remove_comments_noop (soup : Soup) : Strict.remove_comments soup = soup.
Proof.
  unfold Strict.remove_comments, find_all_string.
  rewrite in_children_none; [reflexivity|].
  apply Forall_forall. intros e _. apply string_paths_none; intros;
    destruct (type_of_soup_Comment soup) as [-> | ->]; reflexivity.
Qed.

Lemma fold_prune_map (names : list string) (soup : Soup) :
  fold_left (fun s x => map (prune (by_name x)) s) names soup
  = map (fun e => fold_left (fun e x => prune (by_name x) e) names e) soup.
Proof.
  revert soup. induction names as [|x names IH]; intro soup; simpl.
  - symmetry. apply map_id.
  - rewrite IH, map_map. reflexivity.
Qed.

Theorem before_notice_neutralize (soup : Soup) :
  Strict.before_notice soup = map neutralize soup.
Proof.
  unfold Strict.before_notice.
  rewrite remove_comments_noop.
  rewrite !remove_tags_prune, remove_links_prune, remove_metas_prune,
    strip_srcset_amap, neutralize_imgs_amap, neutralize_hrefs_amap,
    strip_src_amap, strip_handlers_amap, disable_forms_rec.
  rewrite !fold_prune_map, !map_map. reflexivity.
Qed.

Theorem sanitize_html__soup_neutralize (soup : Soup) :
  Strict.sanitize_html__soup soup = Strict.add_notice (map neutralize soup).
Proof.
  unfold Strict.sanitize_html__soup. rewrite before_notice_neutralize. reflexivity.
Qed.

Theorem sanitize_html_soup_amap (soup : Soup) :
  Light.sanitize_html_soup soup
  = map (fun e => amap (only (by_name_attr "img" "src") light_img_attrs)
                    (amap (only (by_name_attr "a" "href") light_a_attrs) e)) soup.
Proof.
  unfold Light.sanitize_html_soup.
  rewrite (for_each_attrs (by_name_attr "a" "href") light_a_attrs Light.a_body)
    by (intros; apply light_a_body_attrs).
  rewrite (for_each_attrs (by_name_attr "img" "src") light_img_attrs Light.img_body)
    by (intros; apply light_img_body_attrs).
  apply map_map.
Qed.

(* ================================================================= *)
(** * Properties of every tag of a tree *)

Section AllTags.
Variables P Q : bool -> string -> dict -> Prop.

Lemma all_tags_impl (d : bool) (e : PageElement) :
  (forall d n a, P d n a -> Q d n a) -> all_tags P d e -> all_tags Q d e.
Proof.
  intro HPQ. revert d.
  induction e as [n a cs IH| | | |] using PageElement_tree_ind; intros d H;
    try constructor.
  - inversion H; subst. apply HPQ. assumption.
  - inversion H as [d0 n0 a0 cs0 _ Hcs| | | |]; subst.
    rewrite Forall_forall in *. intros c Hc. apply IH; auto.
Qed.

Lemma all_tags_prune (m : string -> dict -> bool) (d : bool) (e : PageElement) :
  (forall d n a, P d n a -> m n a = false -> Q d n a) ->
  all_tags P d e -> all_tags Q d (prune m e).
Proof.
  intro HPQ. revert d.
  induction e as [n a cs IH| | | |] using PageElement_tree_ind; intros d H;
    try constructor.
  simpl. destruct (m n a) eqn:Hm; [constructor|].
  inversion H as [d0 n0 a0 cs0 Hp Hcs| | | |]; subst. constructor.
  - apply HPQ; assumption.
  - rewrite Forall_forall in *. intros c' Hc'. apply in_map_iff in Hc'.
    destruct Hc' as [c [<- Hc]]. apply IH; auto.
Qed.

Lemma all_tags_amap (g : string -> dict -> dict) (d : bool) (e : PageElement) :
  (forall d n a, P d n a -> Q d n (g n a)) ->
  all_tags P d e -> all_tags Q d (amap g e).
Proof.
  intro HPQ. revert d.
  induction e as [n a cs IH| | | |] using PageElement_tree_ind; intros d H;
    try constructor.
  - inversion H; subst. apply HPQ. assumption.
  - inversion H as [d0 n0 a0 cs0 _ Hcs| | | |]; subst.
    rewrite Forall_forall in *. intros c' Hc'. apply in_map_iff in Hc'.
    destruct Hc' as [c [<- Hc]]. apply IH; auto.
Qed.

Lemma all_tags_forms_rec (d : bool) (e : PageElement) :
  (forall d n a, P d n a -> Q d n (forms_attrs d n a)) ->
  all_tags P d e -> all_tags Q d (forms_rec d e).
Proof.
  intro HPQ. revert d.
  induction e as [n a cs IH| | | |] using PageElement_tree_ind; intros d H;
    try constructor.
  - inversion H; subst. apply HPQ. assumption.
  - inversion H as [d0 n0 a0 cs0 _ Hcs| | | |]; subst.
    rewrite Forall_forall in *. intros c' Hc'. apply in_map_iff in Hc'.
    destruct Hc' as [c [<- Hc]]. apply IH; auto.
Qed.
End AllTags.

Lemma all_tags_True (d : bool) (e : PageElement) : all_tags (fun _ _ _ => True) d e.
Proof.
  revert d. induction e as [n a cs IH| | | |] using PageElement_tree_ind; intro d;
    constructor; [exact I|].
  rewrite Forall_forall in *. intros c Hc. apply IH. exact Hc.
Qed.

Lemma all_tags_fold_prune (P : bool -> string -> dict -> Prop) (names : list string) :
  forall (S : list string) (d : bool) (e : PageElement),
    all_tags (fun d n a => P d n a /\ str_in n S = false) d e ->
    all_tags (fun d n a => P d n a /\ str_in n (rev names ++ S) = false) d
             (fold_left (fun e x => prune (by_name x) e) names e).
Proof.
  induction names as [|x names IH]; intros S d e H; [exact H|].
  simpl fold_left. simpl rev. rewrite <- app_assoc. simpl app. apply IH.
  revert H. apply all_tags_prune. intros d' n a [Hp Hs] Hm. split; [exact Hp|].
  unfold by_name in Hm. simpl. rewrite Hm, Hs. reflexivity.
Qed.

(** The tag a reference points at satisfies what every tag satisfies. *)
Lemma all_tags_get_node (P : bool -> string -> dict -> Prop) (q : path) :
  forall (d : bool) (e e' : PageElement),
    all_tags P d e -> get_node q e = Some e' ->
    exists d', (d = true -> d' = true) /\ all_tags P d' e'.
Proof.
  induction q as [|i q IH]; intros d e e' H Hg; simpl in Hg.
  - injection Hg as <-. exists d. auto.
  - destruct e as [n a cs| | | |]; try discriminate.
    destruct (nth_error cs i) as [c|] eqn:Hn; [|discriminate].
    inversion H as [d0 n0 a0 cs0 _ Hcs| | | |]; subst.
    rewrite Forall_forall in Hcs. specialize (Hcs c (nth_error_In _ _ Hn)).
    destruct (IH _ _ _ Hcs Hg) as [d' [Hd He]]. exists d'. split; [|exact He].
    intro Hd0. apply Hd. rewrite Hd0. reflexivity.
Qed.

Lemma all_tags_get_in (P : bool -> string -> dict -> Prop) (p : path) (d : bool)
  (soup : Soup) (e' : PageElement) :
  Forall (all_tags P d) soup -> get_in p soup = Some e' ->
  exists d', (d = true -> d' = true) /\ all_tags P d' e'.
Proof.
  intros H Hg. destruct p as [|i q]; [discriminate|]. simpl in Hg.
  destruct (nth_error soup i) as [c|] eqn:Hn; [|discriminate].
  rewrite Forall_forall in H.
  exact (all_tags_get_node P q d c e' (H c (nth_error_In _ _ Hn)) Hg).
Qed.

(* ----------------------------------------------------------------- *)
(** ** In-place updates preserve what the new node satisfies *)

Lemma Forall_alter_nth {A : Type} (R : A -> Prop) (f : A -> A) (i : nat) (l : list A) :
  Forall R l -> (forall x, R x -> R (f x)) -> Forall R (alter_nth f i l).
Proof.
  intros H Hf. revert i. induction H as [|x l Hx Hl IH]; intro i.
  - destruct i; constructor.
  - destruct i; simpl; constructor; auto.
Qed.

Lemma all_tags_update (P : bool -> string -> dict -> Prop) (f : PageElement -> PageElement)
  (p : path) :
  (forall d e, all_tags P d e -> all_tags P d (f e)) ->
  forall d e, all_tags P d e -> all_tags P d (update f p e).
Proof.
  intro Hf. induction p as [|i p IH]; intros d e H; simpl; [apply Hf; exact H|].
  destruct e as [n a cs| | | |]; try exact H.
  inversion H as [d0 n0 a0 cs0 Hp Hcs| | | |]; subst. constructor; [exact Hp|].
  apply Forall_alter_nth; [exact Hcs|]. intros c Hc. apply IH. exact Hc.
Qed.

Lemma all_tags_update_in (P : bool -> string -> dict -> Prop)
  (f : PageElement -> PageElement) (p : path) (d : bool) (soup : Soup) :
  (forall d e, all_tags P d e -> all_tags P d (f e)) ->
  Forall (all_tags P d) soup -> Forall (all_tags P d) (update_in f p soup).
Proof.
  intros Hf H. destruct p as [|i p]; [exact H|]. simpl.
  apply Forall_alter_nth; [exact H|]. intros c Hc.
  apply all_tags_update; assumption.
Qed.

Lemma all_tags_notice (P : bool -> string -> dict -> Prop) (d : bool) :
  (forall d, P d "div" (attrs_of Strict.notice)) -> all_tags P d Strict.notice.
Proof.
  intro H. unfold Strict.notice. constructor; [apply H|].
  constructor; constructor.
Qed.

Lemma all_tags_add_notice (P : bool -> string -> dict -> Prop) (d : bool) (soup : Soup) :
  (forall d, P d "div" (attrs_of Strict.notice)) ->
  Forall (all_tags P d) soup -> Forall (all_tags P d) (Strict.add_notice soup).
Proof.
  intros Hn H. unfold Strict.add_notice.
  destruct (find (by_name "body") soup) as [body|].
  - apply all_tags_update_in; [|exact H]. intros d' e He.
    destruct e as [n a cs| | | |]; try exact He. simpl.
    inversion He as [d0 n0 a0 cs0 Hp Hcs| | | |]; subst. constructor; [exact Hp|].
    constructor; [|exact Hcs]. apply all_tags_notice. exact Hn.
  - constructor; [|exact H]. apply all_tags_notice. exact Hn.
Qed.

(* ================================================================= *)
(** * Attribute rewrites and the keys they touch *)

Lemma kod_del (k k' : string) : keeps_or_drops k (fun a => dict_del a k').
Proof.
  intro a. rewrite dict_get_del. destruct (String.eqb k' k); [left|right]; reflexivity.
Qed.

Lemma kod_set (k k' v : string) :
  String.eqb k' k = false -> keeps_or_drops k (fun a => dict_set a k' v).
Proof. intros H a. rewrite dict_get_set, H. right. reflexivity. Qed.

Lemma kod_filter (k : string) (q : string -> bool) :
  keeps_or_drops k (filter (fun kv => q (fst kv))).
Proof.
  intro a. rewrite dict_get_filter. destruct (q k); [right|left]; reflexivity.
Qed.

Lemma kod_id (k : string) : keeps_or_drops k (fun a => a).
Proof. intro a. right. reflexivity. Qed.

Lemma kod_comp (k : string) (g g' : dict -> dict) :
  keeps_or_drops k g -> keeps_or_drops k g' -> keeps_or_drops k (fun a => g (g' a)).
Proof.
  intros Hg Hg' a. destruct (Hg (g' a)) as [H|H]; [left; exact H|].
  rewrite H. apply Hg'.
Qed.

Lemma kod_if (k : string) (c : dict -> bool) (g g' : dict -> dict) :
  keeps_or_drops k g -> keeps_or_drops k g' ->
  keeps_or_drops k (fun a => if c a then g a else g' a).
Proof. intros Hg Hg' a. destruct (c a); [apply Hg|apply Hg']. Qed.

Lemma kod_absent (k : string) (g : dict -> dict) (a : dict) :
  keeps_or_drops k g -> dict_has a k = false -> dict_has (g a) k = false.
Proof.
  unfold dict_has. intros Hg H. destruct (Hg a) as [E|E]; rewrite E; [reflexivity|exact H].
Qed.

Lemma kod_href_inert (g : dict -> dict) (a : dict) :
  keeps_or_drops "href" g -> href_inert a -> href_inert (g a).
Proof.
  intros Hg H v Hv. destruct (Hg a) as [E|E]; rewrite E in Hv; [discriminate|].
  apply H. exact Hv.
Qed.

Lemma kod_only (k : string) (m : string -> dict -> bool) (g : string -> dict -> dict)
  (n : string) :
  keeps_or_drops k (g n) -> keeps_or_drops k (only m g n).
Proof. intro H. unfold only. apply (kod_if k (m n)); [exact H|apply kod_id]. Qed.

Lemma kod_strip (k : string) (c : bool) (n : string) :
  keeps_or_drops k (strip_prefix_on c n).
Proof.
  apply (kod_filter k (fun x => negb (startswith (if c then lower x else x) "on"))).
Qed.

Lemma kod_strict_img (k n : string) : keeps_or_drops k (strict_img_attrs n).
Proof.
  unfold strict_img_attrs.
  apply (kod_comp k (strip_prefix_on false n) (fun a => dict_del (dict_del a "src") "srcset")).
  - apply kod_strip.
  - apply (kod_comp k (fun a => dict_del a "srcset") (fun a => dict_del a "src"));
      apply kod_del.
Qed.

Lemma kod_strict_href (k n : string) :
  String.eqb "href" k = false -> keeps_or_drops k (strict_href_attrs n).
Proof.
  intro H. unfold strict_href_attrs.
  apply (kod_if k (fun a => exempt_href (dict_get_default a "href" ""))).
  - apply kod_id.
  - apply kod_set. exact H.
Qed.

Lemma kod_btn (k n : string) :
  String.eqb "disabled" k = false -> keeps_or_drops k (btn_attrs n).
Proof.
  intro H. unfold btn_attrs.
  apply (kod_if k (fun a => (String.eqb n "input"
                             && str_in (lower (dict_get_default a "type" "")) submit_types)
                            || String.eqb n "button")).
  - apply kod_set. exact H.
  - apply kod_id.
Qed.

Lemma kod_forms (k : string) (d : bool) (n : string) :
  String.eqb "action" k = false -> String.eqb "method" k = false ->
  String.eqb "disabled" k = false ->
  keeps_or_drops k (forms_attrs d n).
Proof.
  intros Ha Hm Hd. unfold forms_attrs.
  destruct (String.eqb n "form").
  - unfold form_attrs.
    apply (kod_comp k (fun a => dict_set a "method" "get") (fun a => dict_set a "action" "#"));
      apply kod_set; assumption.
  - destruct (d && str_in n ["input"; "button"]); [apply kod_btn; exact Hd|apply kod_id].
Qed.

(* ----------------------------------------------------------------- *)
(** ** Event handlers *)

Lemma startswith_on_lower (k : string) :
  startswith k "on" = true -> startswith (lower k) "on" = true.
Proof.
  unfold startswith.
  destruct k as [|c1 [|c2 k]]; cbn [String.prefix lower]; try discriminate.
  - destruct (Ascii.ascii_dec "o" c1); discriminate.
  - destruct (Ascii.ascii_dec "o" c1) as [<-|]; [|discriminate].
    destruct (Ascii.ascii_dec "n" c2) as [<-|]; [|discriminate].
    intros _. change (lower_ascii "o") with "o"%char.
    change (lower_ascii "n") with "n"%char.
    destruct (Ascii.ascii_dec "o" "o"); [|congruence].
    destruct (Ascii.ascii_dec "n" "n"); [|congruence].
    destruct (lower k); reflexivity.
Qed.

Lemma on_free_strip (n : string) (a : dict) : on_free (strip_prefix_on true n a).
Proof.
  intros k Hk. unfold dict_keys in Hk. apply in_map_iff in Hk.
  destruct Hk as [[k' v] [<- Hin]]. unfold strip_prefix_on in Hin.
  apply filter_In in Hin. destruct Hin as [_ Hq]. simpl in *.
  destruct (startswith (lower k') "on"); [discriminate|reflexivity].
Qed.

Lemma on_free_set (a : dict) (k v : string) :
  startswith (lower k) "on" = false -> on_free a -> on_free (dict_set a k v).
Proof.
  intros Hk H k' Hk'. apply dict_keys_set in Hk'. destruct Hk' as [->|Hk']; auto.
Qed.

Lemma on_free_forms (d : bool) (n : string) (a : dict) :
  on_free a -> on_free (forms_attrs d n a).
Proof.
  intro H. unfold forms_attrs, form_attrs, btn_attrs.
  destruct (String.eqb n "form").
  - apply on_free_set; [reflexivity|]. apply on_free_set; [reflexivity|exact H].
  - destruct (d && str_in n ["input"; "button"]); [|exact H].
    destruct (_ || _); [|exact H]. apply on_free_set; [reflexivity|exact H].
Qed.



(* ----------------------------------------------------------------- *)
(** ** Hyperlinks and forms *)

Lemma href_inert_strict (n : string) (a : dict) :
  href_inert (only (by_attr "href") strict_href_attrs n a).
Proof.
  intros v Hv. unfold only, by_attr, dict_has, strict_href_attrs, dict_get_default in Hv.
  destruct (dict_get a "href") as [v0|] eqn:E.
  - destruct (exempt_href v0) eqn:Ex.
    + rewrite E in Hv. injection Hv as <-. exact Ex.
    + rewrite dict_get_set in Hv. simpl in Hv. injection Hv as <-. reflexivity.
  - rewrite E in Hv. discriminate.
Qed.


Lemma form_attrs_idem (a : dict) : form_attrs (form_attrs a) = form_attrs a.
Proof.
  unfold form_attrs.
  rewrite (dict_set_same (dict_set (dict_set a "action" "#") "method" "get") "action" "#").
  - apply dict_set_same. rewrite dict_get_set. reflexivity.
  - rewrite !dict_get_set. reflexivity.
Qed.

Lemma forms_attrs_idem (d : bool) (n : string) (a : dict) :
  forms_attrs d n (forms_attrs d n a) = forms_attrs d n a.
Proof.
  unfold forms_attrs. destruct (String.eqb n "form"); [apply form_attrs_idem|].
  destruct (d && str_in n ["input"; "button"]); [apply btn_attrs_idem|reflexivity].
Qed.

(* ================================================================= *)
(** * What holds of every tag after the passes of [sanitize_html_] *)

Lemma only_absent (k n : string) (a : dict) :
  dict_has (only (by_attr k) (del_attr k) n a) k = false.
Proof.
  unfold only, by_attr, del_attr. destruct (dict_has a k) eqn:E; [|exact E].
  rewrite dict_has_del, String.eqb_refl. reflexivity.
Qed.

Lemma removed_names_order (n : string) :
  str_in n (rev ["video"; "audio"; "source"; "track"]
            ++ rev ["meta"] ++ rev ["link"]
            ++ rev ["script"; "iframe"; "object"; "embed"; "noscript"; "base"] ++ [])
  = false ->
  str_in n removed_names = false.
Proof.
  unfold str_in, removed_names. simpl. intro H.
  repeat (apply orb_false_iff in H; destruct H as [? H]).
  repeat (apply orb_false_iff; split); assumption.
Qed.

Lemma neutralize_clean (e : PageElement) : all_tags clean false (neutralize e).
Proof.
  unfold neutralize.
  pose (L6 := rev ["script"; "iframe"; "object"; "embed"; "noscript"; "base"] ++ []).
  pose (L8 := rev ["meta"] ++ rev ["link"] ++ L6).
  pose (R9 := fun (d : bool) (n : string) (a : dict) =>
                dict_has a "srcset" = false /\ dict_has a "src" = false
                /\ on_free a /\ href_inert a /\ forms_attrs d n a = a).
  apply (all_tags_impl
           (fun d n a => R9 d n a
                         /\ str_in n (rev ["video"; "audio"; "source"; "track"] ++ L8) = false)).
  { intros d n a [[H1 [H2 [H3 [H4 H5]]]] HN]. unfold clean.
    split; [apply removed_names_order; exact HN|]. auto. }
  apply (all_tags_fold_prune R9).
  (* the form loop *)
  apply (all_tags_forms_rec
           (fun _ n a => (dict_has a "srcset" = false /\ dict_has a "src" = false
                          /\ on_free a /\ href_inert a)
                         /\ str_in n L8 = false)).
  { intros d n a [[H1 [H2 [H3 H4]]] HN]. split; [|exact HN]. unfold R9.
    split; [apply kod_absent; [apply kod_forms; reflexivity|exact H1]|].
    split; [apply kod_absent; [apply kod_forms; reflexivity|exact H2]|].
    split; [apply on_free_forms; exact H3|].
    split; [apply kod_href_inert; [apply kod_forms; reflexivity|exact H4]|].
    apply forms_attrs_idem. }
  (* the event-handler loop *)
  apply (all_tags_amap
           (fun _ n a => (dict_has a "srcset" = false /\ dict_has a "src" = false
                          /\ href_inert a)
                         /\ str_in n L8 = false)).
  { intros d n a [[H1 [H2 H4]] HN]. split; [|exact HN].
    split; [apply kod_absent; [apply kod_only, kod_strip|exact H1]|].
    split; [apply kod_absent; [apply kod_only, kod_strip|exact H2]|].
    split; [apply on_free_strip|].
    apply kod_href_inert; [apply kod_only, kod_strip|exact H4]. }
  (* the src loop *)
  apply (all_tags_amap
           (fun _ n a => (dict_has a "srcset" = false /\ href_inert a)
                         /\ str_in n L8 = false)).
  { intros d n a [[H1 H4] HN]. split; [|exact HN].
    split; [apply kod_absent; [apply kod_only, kod_del|exact H1]|].
    split; [apply only_absent|].
    apply kod_href_inert; [apply kod_only, kod_del|exact H4]. }
  (* the href loop *)
  apply (all_tags_amap
           (fun _ n a => dict_has a "srcset" = false /\ str_in n L8 = false)).
  { intros d n a [H1 HN]. split; [|exact HN].
    split; [apply kod_absent; [apply kod_only, kod_strict_href; reflexivity|exact H1]|].
    apply href_inert_strict. }
  (* the img loop *)
  apply (all_tags_amap
           (fun _ n a => dict_has a "srcset" = false /\ str_in n L8 = false)).
  { intros d n a [H1 HN]. split; [|exact HN].
    apply kod_absent; [apply kod_only, kod_strict_img|exact H1]. }
  (* the srcset loop *)
  apply (all_tags_amap (fun _ n a => True /\ str_in n L8 = false)).
  { intros d n a [_ HN]. split; [|exact HN]. apply only_absent. }
  (* the loops that remove tags *)
  apply (all_tags_fold_prune (fun _ _ _ => True) ["meta"]).
  apply (all_tags_fold_prune (fun _ _ _ => True) ["link"]).
  apply (all_tags_fold_prune (fun _ _ _ => True)
           ["script"; "iframe"; "object"; "embed"; "noscript"; "base"]).
  apply (all_tags_impl (fun _ _ _ => True)); [|apply all_tags_True].
  intros. split; [exact I|reflexivity].
Qed.

Lemma clean_notice (d : bool) : clean d "div" (attrs_of Strict.notice).
Proof.
  unfold clean. repeat split; try reflexivity.
  - intros k [<-|[]]. reflexivity.
  - intros v Hv. discriminate.
  - destruct d; reflexivity.
Qed.

(** Every tag of the output of [sanitize_html_] is clean. *)
Lemma sanitize_html__soup_clean (soup : Soup) :
  Forall (all_tags clean false) (Strict.sanitize_html__soup soup).
Proof.
  rewrite sanitize_html__soup_neutralize.
  apply all_tags_add_notice; [apply clean_notice|].
  apply Forall_forall. intros e' He'. apply in_map_iff in He'.
  destruct He' as [e [<- _]]. apply neutralize_clean.
Qed.

Lemma sanitize_html__soup_tag (soup : Soup) (p : path) (n : string) (a : dict)
  (cs : Soup) :
  get_in p (Strict.sanitize_html__soup soup) = Some (Tag n a cs) ->
  exists d, clean d n a
            /\ Forall (all_tags clean (d || String.eqb n "form")) cs.
Proof.
  intro Hg.
  destruct (all_tags_get_in clean p false _ _ (sanitize_html__soup_clean soup) Hg)
    as [d [_ H]].
  inversion H; subst. exists d. auto.
Qed.

(* ================================================================= *)
(** * Following a reference through a pass *)

Lemma get_node_amap (g : string -> dict -> dict) (q : path) :
  forall e, get_node q (amap g e) = option_map (amap g) (get_node q e).
Proof.
  induction q as [|i q IH]; intro e; [reflexivity|].
  destruct e as [n a cs| | | |]; try reflexivity. simpl.
  rewrite nth_error_map. destruct (nth_error cs i) as [c|]; [apply IH|reflexivity].
Qed.

Lemma get_in_amap (g : string -> dict -> dict) (p : path) (soup : Soup) :
  get_in p (map (amap g) soup) = option_map (amap g) (get_in p soup).
Proof.
  destruct p as [|i q]; [reflexivity|]. simpl. rewrite nth_error_map.
  destruct (nth_error soup i) as [c|]; [apply get_node_amap|reflexivity].
Qed.

Lemma get_node_forms_rec (q : path) :
  forall d e, exists d',
    (d = true -> d' = true)
    /\ get_node q (forms_rec d e) = option_map (forms_rec d') (get_node q e).
Proof.
  induction q as [|i q IH]; intros d e; [exists d; auto|].
  destruct e as [n a cs| | | |]; try (exists d; split; [auto|reflexivity]). simpl.
  rewrite nth_error_map.
  destruct (nth_error cs i) as [c|]; [|exists d; split; [auto|reflexivity]].
  destruct (IH (d || String.eqb n "form") c) as [d' [Hd Hg]].
  exists d'. split; [|exact Hg]. intro Hd0. apply Hd. rewrite Hd0. reflexivity.
Qed.

Lemma get_node_prune (m : string -> dict -> bool) (q : path) :
  forall e,
    match get_node q e with
    | None => get_node q (prune m e) = None
    | Some x => get_node q (prune m e) = None
                \/ get_node q (prune m e) = Some (prune m x)
    end.
Proof.
  induction q as [|i q IH]; intro e; [right; reflexivity|].
  destruct e as [n a cs| | | |]; try reflexivity. simpl.
  destruct (nth_error cs i) as [c|] eqn:Hn.
  - destruct (m n a).
    + destruct (get_node q c); [left; reflexivity|reflexivity].
    + simpl. rewrite nth_error_map, Hn. apply IH.
  - destruct (m n a); [reflexivity|]. simpl. rewrite nth_error_map, Hn. reflexivity.
Qed.

(* ================================================================= *)
(** * C1: the tags [sanitize_html_] removes *)

(** C1, for the code as it is.  The output of the strict sanitizer [sanitize_html_]
    contains no [script], [iframe], [object], [embed], [noscript],
    [base], [link], [meta], [video], [audio], [source] or [track]
    element: no reference into the output tree points at a tag with one
    of these names. *)
Theorem C1_strict_output_has_no_removed_tag
  (soup : Soup) (p : path) (n : string) (a : dict) (cs : Soup) :
  get_in p (Strict.sanitize_html__soup soup) = Some (Tag n a cs) ->
  ~ In n removed_names.
Proof.
  intros Hg Hin.
  destruct (sanitize_html__soup_tag soup p n a cs Hg) as [d [[Hn _] _]].
  assert (H : str_in n removed_names = true).
  { apply existsb_exists. exists n. split; [exact Hin|apply String.eqb_refl]. }
  congruence.
Qed.

Lemma C1_witness :
  get_in [1] (Strict.sanitize_html__soup C1_soup)
  = Some (Tag "p" [] [Decomposed; NavigableString "hi"])
  /\ ~ In "p" removed_names.
Proof.
  assert (H : get_in [1] (Strict.sanitize_html__soup C1_soup)
              = Some (Tag "p" [] [Decomposed; NavigableString "hi"]))
    by reflexivity.
  split; [exact H|].
  exact (C1_strict_output_has_no_removed_tag C1_soup [1] "p" []
           [Decomposed; NavigableString "hi"] H).
Defined.

(** C1 as stated fails: the sanitizer that the pipeline calls,
    [sanitize_html], hands the [script] element of
    [<p><script>x</script>hi</p>] through. *)
Lemma C1_counterexample :
  get_in [0; 0] (Light.sanitize_html_soup C1_soup)
  = Some (Tag "script" [] [NavigableString "x"])
  /\ In "script" removed_names
  /\ Serializer.str (Light.sanitize_html_soup C1_soup) = "<p><script>x</script>hi</p>".
Proof. repeat split; try reflexivity. left. reflexivity. Qed.

(* ================================================================= *)
(** * C2: event-handler attributes *)




(* ================================================================= *)
(** * Passes that find nothing to do *)









(* ================================================================= *)
(** * C7: a second pass *)





(* ================================================================= *)
(** * Serialized output *)

Lemma append_nil_r (s : string) : (s ++ "")%string = s.
Proof. induction s as [|c s IH]; [reflexivity|]. simpl. rewrite IH. reflexivity. Qed.

Lemma append_assoc (s t u : string) : ((s ++ t) ++ u)%string = (s ++ t ++ u)%string.
Proof. induction s as [|c s IH]; [reflexivity|]. simpl. rewrite IH. reflexivity. Qed.


Lemma contains_inside (x y s t : string) :
  contains s t -> contains (x ++ s ++ y)%string t.
Proof.
  intros [b [a ->]]. exists (x ++ b)%string, (a ++ y)%string.
  rewrite !append_assoc. reflexivity.
Qed.




Lemma join_cons (x : string) (xs : list string) :
  Serializer.join (x :: xs) = (x ++ Serializer.join xs)%string.
Proof.
  unfold Serializer.join. simpl. destruct xs; [symmetry; apply append_nil_r|reflexivity].
Qed.







(* ----------------------------------------------------------------- *)
(** ** Where the notice is *)







(* ================================================================= *)
(** * C8: a failure of the sanitizer *)

(** C8.  Whatever the sanitizer is, the sanitize-and-render step of the
    pipeline never raises; and when the sanitizer raises on a fetched
    page, the step reports the error, and hands the renderer the
    fallback document, one paragraph saying that the content could not
    be sanitized. *)
Theorem C8_sanitizer_failure_gives_fallback
  (sanitize : string -> string -> Pipeline.outcome string)
  (html final_url : string) (e : Pipeline.Exception) :
  truthy html = true ->
  sanitize html final_url = Pipeline.Raised e ->
  Pipeline.render sanitize (Some html) final_url
  = Pipeline.Returned
      [Pipeline.st_error ("Error while sanitizing HTML: " ++ Pipeline.message e)%string;
       Pipeline.st_success "Rendering sanitized HTML below.";
       Pipeline.components_html "<p>Unable to sanitize content.</p>" 800 true]
  /\ (forall fetched url, exists calls,
         Pipeline.render sanitize fetched url = Pipeline.Returned calls).
Proof.
  intros Ht Hs. split.
  - unfold Pipeline.render. rewrite Ht, Hs. reflexivity.
  - intros fetched url. unfold Pipeline.render.
    destruct fetched as [h|]; [|eexists; reflexivity].
    destruct (truthy h); [|eexists; reflexivity].
    destruct (sanitize h url); eexists; reflexivity.
Qed.

Lemma C8_witness :
  truthy "<p>x</p>" = true
  /\ Pipeline.render (fun _ _ => Pipeline.Raised {| Pipeline.message := "boom" |})
                     (Some "<p>x</p>") "https://example.com"
     = Pipeline.Returned
         [Pipeline.st_error "Error while sanitizing HTML: boom";
          Pipeline.st_success "Rendering sanitized HTML below.";
          Pipeline.components_html "<p>Unable to sanitize content.</p>" 800 true].
Proof.
  split; [reflexivity|].
  exact (proj1 (C8_sanitizer_failure_gives_fallback
                  (fun _ _ => Pipeline.Raised {| Pipeline.message := "boom" |})
                  "<p>x</p>" "https://example.com" {| Pipeline.message := "boom" |}
                  eq_refl eq_refl)).
Defined.

(* ================================================================= *)
(** * [sanitize_html], node by node *)

Lemma light_get_in (soup : Soup) (p : path) :
  get_in p (Light.sanitize_html_soup soup)
  = option_map (amap light_attrs) (get_in p soup).
Proof.
  rewrite sanitize_html_soup_amap.
  rewrite (map_ext _ (amap light_attrs)).
  - apply get_in_amap.
  - intro e. rewrite amap_amap. reflexivity.
Qed.

Lemma light_attrs_a (a : dict) : light_attrs "a" a = only (by_attr "href") light_a_attrs "a" a.
Proof. reflexivity. Qed.

Lemma light_attrs_img (a : dict) :
  light_attrs "img" a = only (by_attr "src") light_img_attrs "img" a.
Proof. reflexivity. Qed.

Lemma light_attrs_other (n : string) (a : dict) :
  n <> "a" -> n <> "img" -> light_attrs n a = a.
Proof.
  intros Ha Hi. unfold light_attrs, only, by_name_attr.
  apply String.eqb_neq in Ha, Hi. rewrite Ha, Hi. reflexivity.
Qed.

Lemma light_a_attrs_href (n : string) (a : dict) (v : string) :
  dict_get a "href" = Some v ->
  dict_get (light_a_attrs n a) "href"
  = Some (if startswith v "#" then v else (Light.noice ++ v)%string).
Proof.
  intro H. unfold light_a_attrs, dict_get_default. rewrite H.
  destruct (startswith v "#"); [exact H|]. rewrite dict_get_set. reflexivity.
Qed.

Lemma light_a_attrs_other (n : string) (a : dict) (k : string) :
  k <> "href" -> dict_get (light_a_attrs n a) k = dict_get a k.
Proof.
  intro Hk. unfold light_a_attrs. destruct (startswith _ _); [reflexivity|].
  rewrite dict_get_set. apply not_eq_sym, String.eqb_neq in Hk. rewrite Hk. reflexivity.
Qed.

Lemma light_img_attrs_other (n : string) (a : dict) (k : string) :
  k <> "src" -> k <> "alt" -> dict_get (light_img_attrs n a) k = dict_get a k.
Proof.
  intros Hs Ha. unfold light_img_attrs.
  apply not_eq_sym, String.eqb_neq in Hs. apply not_eq_sym, String.eqb_neq in Ha.
  destruct (negb _); rewrite ?dict_get_set, ?Ha, ?dict_get_set, Hs; reflexivity.
Qed.

Lemma light_img_attrs_src (n : string) (a : dict) :
  dict_get (light_img_attrs n a) "src"
  = Some (Light.noice ++ dict_get_default a "src" "")%string.
Proof.
  unfold light_img_attrs. destruct (negb _); rewrite !dict_get_set; reflexivity.
Qed.

Lemma light_img_attrs_alt (n : string) (a : dict) :
  dict_get (light_img_attrs n a) "alt"
  = Some (if truthy (dict_get_default a "alt" "")
          then dict_get_default a "alt" "" else "[image disabled]").
Proof.
  unfold light_img_attrs.
  assert (E : dict_get_default
                (dict_set a "src" (Light.noice ++ dict_get_default a "src" "")%string)
                "alt" ""
              = dict_get_default a "alt" "").
  { unfold dict_get_default. rewrite dict_get_set. reflexivity. }
  rewrite E. unfold dict_get_default.
  destruct (dict_get a "alt") as [v|] eqn:Ea.
  - destruct (truthy v) eqn:Et; simpl negb; cbv iota.
    + rewrite dict_get_set. simpl. exact Ea.
    + rewrite dict_get_set. reflexivity.
  - simpl. rewrite dict_get_set. reflexivity.
Qed.

Lemma startswith_hash_other (v p : string) (c : ascii) (p' : string) :
  p = String c p' -> c <> "#"%char -> startswith v p = true -> startswith v "#" = false.
Proof.
  intros -> Hc. unfold startswith. destruct v as [|c0 v]; [reflexivity|].
  cbn [String.prefix].
  destruct (Ascii.ascii_dec c c0) as [<-|]; [|discriminate]. intros _.
  destruct (Ascii.ascii_dec "#" c); [congruence|reflexivity].
Qed.

(* ================================================================= *)
(** * Following a tag through the loops of [sanitize_html_] *)

Lemma traced_prune (m : string -> dict -> bool) (q : path) (e : PageElement)
  (n : string) (a : dict) :
  traced n a (get_node q e) -> traced n a (get_node q (prune m e)).
Proof.
  intro H. pose proof (get_node_prune m q e) as Hp. unfold traced in *.
  destruct H as [H|[H|[cs H]]]; rewrite H in Hp.
  - left. exact Hp.
  - destruct Hp as [Hp|Hp]; [left|right; left]; exact Hp.
  - destruct Hp as [Hp|Hp]; [left; exact Hp|]. simpl in Hp.
    destruct (m n a); [right; left; exact Hp|].
    right; right. eexists. exact Hp.
Qed.

Lemma traced_fold_prune (names : list string) (q : path) (n : string) (a : dict) :
  forall e, traced n a (get_node q e) ->
            traced n a (get_node q (fold_left (fun e x => prune (by_name x) e) names e)).
Proof.
  induction names as [|x names IH]; intros e H; [exact H|].
  simpl. apply IH. apply traced_prune. exact H.
Qed.

Lemma traced_amap (g : string -> dict -> dict) (q : path) (e : PageElement)
  (n : string) (a : dict) :
  traced n a (get_node q e) -> traced n (g n a) (get_node q (amap g e)).
Proof.
  intro H. rewrite get_node_amap. unfold traced in *.
  destruct H as [H|[H|[cs H]]]; rewrite H; simpl; eauto.
Qed.

Lemma traced_forms_rec (q : path) (e : PageElement) (n : string) (a : dict) (d : bool) :
  traced n a (get_node q e) ->
  exists d', traced n (forms_attrs d' n a) (get_node q (forms_rec d e)).
Proof.
  intro H. destruct (get_node_forms_rec q d e) as [d' [_ Hg]].
  exists d'. rewrite Hg. unfold traced in *.
  destruct H as [H|[H|[cs H]]]; rewrite H; simpl; eauto.
Qed.

Lemma neutralize_traced (q : path) (e : PageElement) (n : string) (a : dict) (cs : Soup) :
  get_node q e = Some (Tag n a cs) ->
  exists d, traced n (strict_attrs d n a) (get_node q (neutralize e)).
Proof.
  intro Hg. unfold neutralize, strict_attrs, before_forms_attrs.
  assert (H0 : traced n a (get_node q e)).
  { right; right. exists cs. exact Hg. }
  apply (traced_fold_prune ["script"; "iframe"; "object"; "embed"; "noscript"; "base"])
    in H0.
  apply (traced_prune (by_name "link")) in H0.
  apply (traced_prune (by_name "meta")) in H0.
  apply (traced_amap (only (by_attr "srcset") (del_attr "srcset"))) in H0.
  apply (traced_amap (only (by_name "img") strict_img_attrs)) in H0.
  apply (traced_amap (only (by_attr "href") strict_href_attrs)) in H0.
  apply (traced_amap (only (by_attr "src") (del_attr "src"))) in H0.
  apply (traced_amap (only any_tag (strip_prefix_on true))) in H0.
  apply (traced_forms_rec _ _ _ _ false) in H0. destruct H0 as [d H0].
  exists d.
  apply (traced_fold_prune ["video"; "audio"; "source"; "track"]). exact H0.
Qed.

(** A tag of the parsed document is, after the loops of
    [sanitize_html_], gone (with an ancestor, or by itself) or still in
    its place, under its name, with the attributes [strict_attrs]. *)
Lemma before_notice_traced (soup : Soup) (p : path) (n : string) (a : dict) (cs : Soup) :
  get_in p soup = Some (Tag n a cs) ->
  exists d, traced n (strict_attrs d n a) (get_in p (Strict.before_notice soup)).
Proof.
  intro Hg. rewrite before_notice_neutralize.
  destruct p as [|i q]; [discriminate|]. simpl in *. rewrite nth_error_map.
  destruct (nth_error soup i) as [c|]; [|discriminate]. simpl.
  apply (neutralize_traced q c n a cs Hg).
Qed.

(* ----------------------------------------------------------------- *)
(** ** Keys that the loops leave alone *)

Lemma keeps_id (k : string) : keeps k (fun a => a).
Proof. intro a. reflexivity. Qed.

Lemma keeps_del (k k' : string) : String.eqb k' k = false -> keeps k (fun a => dict_del a k').
Proof. intros H a. rewrite dict_get_del, H. reflexivity. Qed.

Lemma keeps_set (k k' v : string) :
  String.eqb k' k = false -> keeps k (fun a => dict_set a k' v).
Proof. intros H a. rewrite dict_get_set, H. reflexivity. Qed.

Lemma keeps_comp (k : string) (g g' : dict -> dict) :
  keeps k g -> keeps k g' -> keeps k (fun a => g (g' a)).
Proof. intros Hg Hg' a. rewrite Hg. apply Hg'. Qed.

Lemma keeps_if (k : string) (c : dict -> bool) (g g' : dict -> dict) :
  keeps k g -> keeps k g' -> keeps k (fun a => if c a then g a else g' a).
Proof. intros Hg Hg' a. destruct (c a); [apply Hg|apply Hg']. Qed.

Lemma keeps_only (k : string) (m : string -> dict -> bool) (g : string -> dict -> dict)
  (n : string) :
  keeps k (g n) -> keeps k (only m g n).
Proof. intro H. unfold only. apply (keeps_if k (m n)); [exact H|apply keeps_id]. Qed.

Lemma keeps_strip (k : string) (c : bool) (n : string) :
  startswith (if c then lower k else k) "on" = false -> keeps k (strip_prefix_on c n).
Proof.
  intros H a. unfold strip_prefix_on.
  rewrite (dict_get_filter (fun x => negb (startswith (if c then lower x else x) "on"))).
  rewrite H. reflexivity.
Qed.

Lemma keeps_strict_img (k n : string) :
  String.eqb "src" k = false -> String.eqb "srcset" k = false ->
  startswith k "on" = false ->
  keeps k (strict_img_attrs n).
Proof.
  intros H1 H2 H3. unfold strict_img_attrs.
  apply (keeps_comp k (strip_prefix_on false n) (fun a => dict_del (dict_del a "src") "srcset")).
  - apply keeps_strip. exact H3.
  - apply (keeps_comp k (fun a => dict_del a "srcset") (fun a => dict_del a "src"));
      apply keeps_del; assumption.
Qed.

Lemma keeps_strict_href (k n : string) :
  String.eqb "href" k = false -> keeps k (strict_href_attrs n).
Proof.
  intro H. unfold strict_href_attrs.
  apply (keeps_if k (fun a => exempt_href (dict_get_default a "href" ""))).
  - apply keeps_id.
  - apply keeps_set. exact H.
Qed.

Lemma keeps_btn (k n : string) :
  String.eqb "disabled" k = false -> keeps k (btn_attrs n).
Proof.
  intro H. unfold btn_attrs.
  apply (keeps_if k (fun a => (String.eqb n "input"
                               && str_in (lower (dict_get_default a "type" "")) submit_types)
                              || String.eqb n "button")).
  - apply keeps_set. exact H.
  - apply keeps_id.
Qed.

Lemma keeps_forms (k : string) (d : bool) (n : string) :
  String.eqb "action" k = false -> String.eqb "method" k = false ->
  String.eqb "disabled" k = false ->
  keeps k (forms_attrs d n).
Proof.
  intros Ha Hm Hd. unfold forms_attrs.
  destruct (String.eqb n "form").
  - unfold form_attrs.
    apply (keeps_comp k (fun a => dict_set a "method" "get") (fun a => dict_set a "action" "#"));
      apply keeps_set; assumption.
  - destruct (d && str_in n ["input"; "button"]); [apply keeps_btn; exact Hd|apply keeps_id].
Qed.

(** The loops before the href loop keep [href], the ones after it too. *)
Lemma strict_attrs_href (d : bool) (n : string) (a : dict) (v : string) :
  dict_get a "href" = Some v ->
  dict_get (strict_attrs d n a) "href" = Some (if exempt_href v then v else "#").
Proof.
  intro H. unfold strict_attrs, before_forms_attrs.
  rewrite (keeps_forms "href" d n) by reflexivity.
  rewrite (keeps_only "href" any_tag (strip_prefix_on true) n)
    by (apply keeps_strip; reflexivity).
  rewrite (keeps_only "href" (by_attr "src") (del_attr "src") n)
    by (apply keeps_del; reflexivity).
  set (a0 := only (by_name "img") strict_img_attrs n
               (only (by_attr "srcset") (del_attr "srcset") n a)).
  assert (H0 : dict_get a0 "href" = Some v).
  { unfold a0.
    rewrite (keeps_only "href" (by_name "img") strict_img_attrs n)
      by (apply keeps_strict_img; reflexivity).
    rewrite (keeps_only "href" (by_attr "srcset") (del_attr "srcset") n)
      by (apply keeps_del; reflexivity).
    exact H. }
  unfold only, by_attr, dict_has, strict_href_attrs, dict_get_default. rewrite H0.
  destruct (exempt_href v); [exact H0|]. rewrite dict_get_set. reflexivity.
Qed.

(** The loops before the form loop write no attribute and remove only
    [srcset], [src] and event handlers. *)
Lemma before_forms_attrs_keeps (k n : string) :
  String.eqb "srcset" k = false -> String.eqb "src" k = false ->
  String.eqb "href" k = false -> startswith (lower k) "on" = false ->
  keeps k (before_forms_attrs n).
Proof.
  intros H1 H2 H3 H4 a. unfold before_forms_attrs.
  rewrite (keeps_only k any_tag (strip_prefix_on true) n)
    by (apply keeps_strip; assumption).
  rewrite (keeps_only k (by_attr "src") (del_attr "src") n)
    by (apply keeps_del; assumption).
  rewrite (keeps_only k (by_attr "href") strict_href_attrs n)
    by (apply keeps_strict_href; assumption).
  rewrite (keeps_only k (by_name "img") strict_img_attrs n).
  - apply (keeps_only k (by_attr "srcset") (del_attr "srcset") n).
    apply keeps_del; assumption.
  - apply keeps_strict_img; try assumption.
    destruct (startswith k "on") eqn:E; [|reflexivity].
    apply startswith_on_lower in E. congruence.
Qed.

(** No loop of [sanitize_html_] writes, or removes, [alt] or [type]. *)
Lemma strict_attrs_keeps (k : string) (d : bool) (n : string) :
  String.eqb "srcset" k = false -> String.eqb "src" k = false ->
  String.eqb "href" k = false -> startswith (lower k) "on" = false ->
  String.eqb "action" k = false -> String.eqb "method" k = false ->
  String.eqb "disabled" k = false ->
  keeps k (strict_attrs d n).
Proof.
  intros H1 H2 H3 H4 H5 H6 H7 a. unfold strict_attrs.
  rewrite (keeps_forms k d n) by assumption.
  apply before_forms_attrs_keeps; assumption.
Qed.

Lemma traced_cases (n : string) (a : dict) (x : option PageElement) :
  traced n a x ->
  match x with
  | Some (Tag n' a' _) => n' = n /\ a' = a
  | Some Decomposed | None => True
  | Some _ => False
  end.
Proof.
  intros [->|[->|[cs ->]]]; auto.
Qed.

(* ================================================================= *)
(** * C3: the href loop of [sanitize_html_] *)

Lemma strict_href_only (n : string) (a : dict) (v : string) :
  dict_get a "href" = Some v ->
  only (by_attr "href") strict_href_attrs n a
  = if exempt_href v then a else dict_set a "href" "#".
Proof.
  intro H. unfold only, by_attr, dict_has, strict_href_attrs, dict_get_default.
  rewrite H. reflexivity.
Qed.

(** C3.  In [sanitize_html_], the href loop leaves an [href] that starts
    with "#", "mailto:" or "javascript:" as it is and replaces every
    other [href] with exactly "#", on every element that has one, and
    touches no other attribute.  That value is also the one the element
    has when all loops have run, unless the element has been removed;
    and every [href] in the output of [sanitize_html_] is "#" or starts
    with one of the three prefixes. *)
Theorem C3_strict_href_neutralized
  (soup : Soup) (p : path) (n : string) (a : dict) (cs : Soup) (v : string) :
  get_in p soup = Some (Tag n a cs) ->
  dict_get a "href" = Some v ->
  let keep :=
    startswith v "#" || startswith v "mailto:" || startswith v "javascript:" in
  (exists a' cs',
      get_in p (Strict.neutralize_hrefs soup) = Some (Tag n a' cs')
      /\ a' = (if keep then a else dict_set a "href" "#")
      /\ dict_get a' "href" = Some (if keep then v else "#")
      /\ forall k, k <> "href" -> dict_get a' k = dict_get a k)
  /\ match get_in p (Strict.before_notice soup) with
     | Some (Tag n' a' _) =>
         n' = n /\ dict_get a' "href" = Some (if keep then v else "#")
     | Some Decomposed | None => True
     | Some _ => False
     end
  /\ (forall p' n' a' cs' v',
         get_in p' (Strict.sanitize_html__soup soup) = Some (Tag n' a' cs') ->
         dict_get a' "href" = Some v' ->
         startswith v' "#" || startswith v' "mailto:" || startswith v' "javascript:"
         = true).
Proof.
  intros Hg Hv keep.
  change keep with (exempt_href v).
  split; [|split].
  - rewrite neutralize_hrefs_amap, get_in_amap, Hg. simpl.
    rewrite (strict_href_only n a v Hv).
    eexists. eexists. split; [reflexivity|]. split; [reflexivity|]. split.
    + destruct (exempt_href v); [exact Hv|]. rewrite dict_get_set. reflexivity.
    + intros k Hk. destruct (exempt_href v); [reflexivity|].
      rewrite dict_get_set. apply not_eq_sym, String.eqb_neq in Hk.
      rewrite Hk. reflexivity.
  - destruct (before_notice_traced soup p n a cs Hg) as [d Ht].
    apply traced_cases in Ht.
    destruct (get_in p (Strict.before_notice soup)) as [[n' a' cs'| | | |]|]; auto.
    destruct Ht as [-> ->]. split; [reflexivity|].
    apply strict_attrs_href. exact Hv.
  - intros p' n' a' cs' v' Hg' Hv'.
    destruct (sanitize_html__soup_tag soup p' n' a' cs' Hg')
      as [d [[_ [_ [_ [_ [Hh _]]]]] _]].
    exact (Hh v' Hv').
Qed.

(* ================================================================= *)
(** * C4: [alt] on images *)

(** C4, for the code as it is.  [sanitize_html] gives an [img] element that has a
    [src] attribute the [alt] text "[image disabled]" when its [alt] is
    missing or empty, keeps its [alt] otherwise, and prefixes its [src];
    an [img] without [src] is left as it is.  [sanitize_html_] never
    writes [alt]: its img loop removes [src] and keeps [alt] as it
    finds it, and so do all its loops together. *)
Theorem C4_alt_placeholder
  (soup : Soup) (p : path) (a : dict) (cs : Soup) :
  get_in p soup = Some (Tag "img" a cs) ->
  (exists a' cs',
      get_in p (Light.sanitize_html_soup soup) = Some (Tag "img" a' cs')
      /\ (dict_has a "src" = true ->
          dict_get a' "src" = Some (Light.noice ++ dict_get_default a "src" "")%string
          /\ dict_get a' "alt"
             = Some (if truthy (dict_get_default a "alt" "")
                     then dict_get_default a "alt" "" else "[image disabled]"))
      /\ (dict_has a "src" = false -> a' = a))
  /\ (exists a' cs',
         get_in p (Strict.neutralize_imgs soup) = Some (Tag "img" a' cs')
         /\ dict_get a' "src" = None
         /\ dict_get a' "alt" = dict_get a "alt")
  /\ match get_in p (Strict.before_notice soup) with
     | Some (Tag n' a' _) => n' = "img" /\ dict_get a' "alt" = dict_get a "alt"
     | Some Decomposed | None => True
     | Some _ => False
     end.
Proof.
  intro Hg. split; [|split].
  - rewrite light_get_in, Hg. simpl. rewrite light_attrs_img.
    eexists. eexists. split; [reflexivity|]. unfold only, by_attr. split.
    + intros ->. split; [apply light_img_attrs_src|apply light_img_attrs_alt].
    + intros ->. reflexivity.
  - rewrite neutralize_imgs_amap, get_in_amap, Hg. simpl.
    eexists. eexists. split; [reflexivity|].
    change (only (by_name "img") strict_img_attrs "img" a) with (strict_img_attrs "img" a).
    unfold strict_img_attrs. split.
    + rewrite (keeps_strip "src" false "img") by reflexivity.
      rewrite !dict_get_del. reflexivity.
    + rewrite (keeps_strip "alt" false "img") by reflexivity.
      rewrite !dict_get_del. reflexivity.
  - destruct (before_notice_traced soup p "img" a cs Hg) as [d Ht].
    apply traced_cases in Ht.
    destruct (get_in p (Strict.before_notice soup)) as [[n' a' cs'| | | |]|]; auto.
    destruct Ht as [-> ->]. split; [reflexivity|].
    apply strict_attrs_keeps; reflexivity.
Qed.

(* ================================================================= *)
(** * C5: forms *)






(* ================================================================= *)
(** * C9: what [sanitize_html] leaves alone *)

(** C9.  [sanitize_html] keeps the shape of the tree, every text and
    comment node, every tag name and every attribute except [href] on
    [a] elements and [src] and [alt] on [img] elements: in particular
    [script] and [iframe] elements, and the attributes whose names start
    with "on", are as the parser found them. *)
Theorem C9_light_changes_only_href_src_alt (soup : Soup) (p : path) :
  match get_in p soup with
  | Some (Tag n a cs) =>
      exists a' cs',
        get_in p (Light.sanitize_html_soup soup) = Some (Tag n a' cs')
        /\ length cs' = length cs
        /\ (n <> "a" -> n <> "img" -> a' = a)
        /\ (forall k, ~ (n = "a" /\ k = "href") ->
                      ~ (n = "img" /\ (k = "src" \/ k = "alt")) ->
                      dict_get a' k = dict_get a k)
        /\ (forall k, startswith (lower k) "on" = true -> dict_get a' k = dict_get a k)
  | Some x => get_in p (Light.sanitize_html_soup soup) = Some x
  | None => get_in p (Light.sanitize_html_soup soup) = None
  end.
Proof.
  rewrite light_get_in.
  destruct (get_in p soup) as [[n a cs| | | |]|]; try reflexivity. simpl.
  assert (Hk : forall k, ~ (n = "a" /\ k = "href") ->
                         ~ (n = "img" /\ (k = "src" \/ k = "alt")) ->
                         dict_get (light_attrs n a) k = dict_get a k).
  { intros k H1 H2.
    destruct (String.string_dec n "a") as [->|Ha].
    - rewrite light_attrs_a. unfold only. destruct (by_attr "href" "a" a); [|reflexivity].
      apply light_a_attrs_other. intro Hk. apply H1. auto.
    - destruct (String.string_dec n "img") as [->|Hi].
      + rewrite light_attrs_img. unfold only.
        destruct (by_attr "src" "img" a); [|reflexivity].
        apply light_img_attrs_other; intro Hk; apply H2; auto.
      + rewrite light_attrs_other by assumption. reflexivity. }
  eexists. eexists. split; [reflexivity|]. split; [apply length_map|].
  split; [apply light_attrs_other|]. split; [exact Hk|].
  intros k Hon. apply Hk.
  - intros [_ ->]. discriminate.
  - intros [_ [->| ->]]; discriminate.
Qed.

(* ================================================================= *)
(** * C10: the only exemption of [sanitize_html] *)

(** C10.  In [sanitize_html] the [href] of an [a] element is left as it
    is when it starts with "#" and is prefixed with "https://noice://"
    otherwise; an [href] that starts with "mailto:" or "javascript:" is
    therefore prefixed, whereas the href loop of [sanitize_html_]
    leaves the attributes of such an element as they are. *)
Theorem C10_light_exempts_only_fragments
  (soup : Soup) (p : path) (a : dict) (cs : Soup) (v : string) :
  get_in p soup = Some (Tag "a" a cs) ->
  dict_get a "href" = Some v ->
  exists a' cs',
    get_in p (Light.sanitize_html_soup soup) = Some (Tag "a" a' cs')
    /\ dict_get a' "href"
       = Some (if startswith v "#" then v else ("https://noice://" ++ v)%string)
    /\ (startswith v "mailto:" = true \/ startswith v "javascript:" = true ->
        dict_get a' "href" = Some ("https://noice://" ++ v)%string
        /\ exists cs'', get_in p (Strict.neutralize_hrefs soup) = Some (Tag "a" a cs'')).
Proof.
  intros Hg Hv. rewrite light_get_in, Hg. simpl. rewrite light_attrs_a.
  eexists. eexists. split; [reflexivity|].
  assert (Hh : dict_get (only (by_attr "href") light_a_attrs "a" a) "href"
               = Some (if startswith v "#" then v else ("https://noice://" ++ v)%string)).
  { unfold only, by_attr, dict_has. rewrite Hv. apply light_a_attrs_href. exact Hv. }
  split; [exact Hh|]. intro Hm. split.
  - rewrite Hh.
    assert (Hn : startswith v "#" = false).
    { destruct Hm as [Hm|Hm].
      - apply (startswith_hash_other v "mailto:" "m" "ailto:" eq_refl); [discriminate|exact Hm].
      - apply (startswith_hash_other v "javascript:" "j" "avascript:" eq_refl);
          [discriminate|exact Hm]. }
    rewrite Hn. reflexivity.
  - rewrite neutralize_hrefs_amap, get_in_amap, Hg. simpl.
    rewrite (strict_href_only "a" a v Hv).
    assert (He : exempt_href v = true).
    { unfold exempt_href. destruct Hm as [-> | ->];
        rewrite ?orb_true_r; reflexivity. }
    rewrite He. eexists. reflexivity.
Qed.

(* ================================================================= *)
(** * The theorems at concrete documents *)

Lemma C3_witness :
  get_in [0; 0] C3_soup
  = Some (Tag "a" [("href", "http://evil.test"); ("class", "x")] [NavigableString "click"])
  /\ dict_get [("href", "http://evil.test"); ("class", "x")] "href" = Some "http://evil.test"
  /\ exists a' cs',
      get_in [0; 0] (Strict.neutralize_hrefs C3_soup) = Some (Tag "a" a' cs')
      /\ a' = [("href", "#"); ("class", "x")]
      /\ dict_get a' "href" = Some "#"
      /\ forall k, k <> "href" ->
                   dict_get a' k = dict_get [("href", "http://evil.test"); ("class", "x")] k.
Proof.
  split; [reflexivity|]. split; [reflexivity|].
  exact (proj1 (C3_strict_href_neutralized C3_soup [0; 0] "a"
                  [("href", "http://evil.test"); ("class", "x")]
                  [NavigableString "click"] "http://evil.test" eq_refl eq_refl)).
Defined.

Lemma C4_witness :
  get_in [0] C4_soup = Some (Tag "img" [("src", "http://evil.test/x.png")] [])
  /\ exists a' cs',
      get_in [0] (Light.sanitize_html_soup C4_soup) = Some (Tag "img" a' cs')
      /\ (true = true ->
          dict_get a' "src" = Some "https://noice://http://evil.test/x.png"
          /\ dict_get a' "alt" = Some "[image disabled]")
      /\ (true = false -> a' = [("src", "http://evil.test/x.png")]).
Proof.
  split; [reflexivity|].
  exact (proj1 (C4_alt_placeholder C4_soup [0] [("src", "http://evil.test/x.png")] []
                  eq_refl)).
Defined.

(** C4 as stated fails.  [sanitize_html_] turns
    [<img src="http://evil.test/x.png">] into [<img/>], without [alt];
    [sanitize_html] leaves an [<img>] that has neither [src] nor [alt]
    as it is. *)
Lemma C4_counterexample :
  get_in [1] (Strict.sanitize_html__soup C4_soup) = Some (Tag "img" [] [])
  /\ Serializer.str (Strict.sanitize_html__soup C4_soup) = (notice_html ++ "<img/>")%string
  /\ Light.sanitize_html_soup [Tag "img" [] []] = [Tag "img" [] []].
Proof. repeat split; reflexivity. Qed.



Lemma C9_witness :
  exists a' cs',
    get_in [0] (Light.sanitize_html_soup C9_soup) = Some (Tag "script" a' cs')
    /\ length cs' = 1
    /\ ("script" <> "a" -> "script" <> "img" -> a' = [("src", "x.js"); ("onload", "f()")])
    /\ (forall k, ~ ("script" = "a" /\ k = "href") ->
                  ~ ("script" = "img" /\ (k = "src" \/ k = "alt")) ->
                  dict_get a' k = dict_get [("src", "x.js"); ("onload", "f()")] k)
    /\ (forall k, startswith (lower k) "on" = true ->
                  dict_get a' k = dict_get [("src", "x.js"); ("onload", "f()")] k).
Proof. exact (C9_light_changes_only_href_src_alt C9_soup [0]). Defined.

Lemma C10_witness :
  get_in [0] C10_soup = Some (Tag "a" [("href", "mailto:a@b.c")] [NavigableString "mail"])
  /\ dict_get [("href", "mailto:a@b.c")] "href" = Some "mailto:a@b.c"
  /\ exists a' cs',
      get_in [0] (Light.sanitize_html_soup C10_soup) = Some (Tag "a" a' cs')
      /\ dict_get a' "href" = Some "https://noice://mailto:a@b.c"
      /\ (true = true \/ false = true ->
          dict_get a' "href" = Some "https://noice://mailto:a@b.c"
          /\ exists cs'',
              get_in [0] (Strict.neutralize_hrefs C10_soup)
              = Some (Tag "a" [("href", "mailto:a@b.c")] cs'')).
Proof.
  split; [reflexivity|]. split; [reflexivity|].
  exact (C10_light_exempts_only_fragments C10_soup [0] [("href", "mailto:a@b.c")]
           [NavigableString "mail"] "mailto:a@b.c" eq_refl eq_refl).
Defined.

(* ================================================================= *)
(** * Strings: prefixes, occurrences, cuts *)

Lemma length_append (a b : string) :
  String.length (a ++ b)%string = String.length a + String.length b.
Proof. induction a as [|c a IH]; simpl; [reflexivity|]. rewrite IH. reflexivity. Qed.

Lemma append_inv_head (a x y : string) : (a ++ x)%string = (a ++ y)%string -> x = y.
Proof.
  induction a as [|c a IH]; simpl; intro H; [exact H|].
  injection H as H. apply IH. exact H.
Qed.

Lemma append_eq_split (a x : string) :
  forall b y, (a ++ x)%string = (b ++ y)%string ->
              String.length b <= String.length a ->
              exists d, a = (b ++ d)%string /\ y = (d ++ x)%string.
Proof.
  induction a as [|c a IH]; intros b y H Hl.
  - destruct b; [|simpl in Hl; lia]. exists "". simpl in *. auto.
  - destruct b as [|c' b].
    + exists (String c a). simpl in *. auto.
    + simpl in H, Hl. injection H as -> H.
      destruct (IH b y H) as [d [-> ->]]; [lia|]. exists d. auto.
Qed.

Lemma prefix_append (p r : string) : String.prefix p (p ++ r)%string = true.
Proof.
  induction p as [|c p IH]; simpl; [destruct r; reflexivity|].
  destruct (Ascii.ascii_dec c c); [exact IH|congruence].
Qed.

Lemma prefix_true (p : string) :
  forall s, String.prefix p s = true -> exists r, s = (p ++ r)%string.
Proof.
  induction p as [|c p IH]; intros s H.
  - exists s. reflexivity.
  - destruct s as [|c' s]; simpl in H; [discriminate|].
    destruct (Ascii.ascii_dec c c') as [<-|]; [|discriminate].
    destruct (IH s H) as [r ->]. exists r. reflexivity.
Qed.

Lemma drop_append (p r : string) : drop (String.length p) (p ++ r)%string = r.
Proof. induction p as [|c p IH]; simpl; [destruct r; reflexivity|exact IH]. Qed.

(** [partition] finds the first occurrence. *)
Lemma partition_Some (sep : string) :
  forall s before after,
    partition sep s = Some (before, after) ->
    s = (before ++ sep ++ after)%string
    /\ forall a t, s = (a ++ sep ++ t)%string -> String.length before <= String.length a.
Proof.
  induction s as [|c s IH]; intros before after H.
  - destruct sep; cbn in H; [|discriminate].
    injection H as <- <-. split; [reflexivity|intros; simpl; lia].
  - cbn [partition] in H. destruct (String.prefix sep (String c s)) eqn:Hp.
    + injection H as <- <-. destruct (prefix_true sep _ Hp) as [r Hr].
      split; [|intros; simpl; lia].
      simpl append. rewrite Hr. rewrite drop_append. reflexivity.
    + destruct (partition sep s) as [[b a0]|] eqn:Hs; [|discriminate].
      injection H as <- <-. destruct (IH b a0 eq_refl) as [-> Hmin]. split.
      * reflexivity.
      * intros a t Heq. destruct a as [|c' a].
        -- simpl in Heq. rewrite Heq, prefix_append in Hp. discriminate.
        -- simpl in Heq. injection Heq as -> Heq. simpl.
           apply le_n_S. apply (Hmin a t Heq).
Qed.

Lemma partition_None (sep : string) :
  forall s, partition sep s = None -> ~ contains s sep.
Proof.
  induction s as [|c s IH]; intros H [a [t Heq]].
  - destruct sep; cbn in H; [discriminate|].
    destruct a; discriminate.
  - cbn [partition] in H. destruct (String.prefix sep (String c s)) eqn:Hp; [discriminate|].
    destruct (partition sep s) as [[b a0]|] eqn:Hs; [discriminate|].
    destruct a as [|c' a].
    + simpl in Heq. rewrite Heq, prefix_append in Hp. discriminate.
    + simpl in Heq. injection Heq as _ Heq. apply (IH eq_refl). exists a, t. exact Heq.
Qed.

Lemma partition_absent (sep s : string) : ~ contains s sep -> partition sep s = None.
Proof.
  intro H. destruct (partition sep s) as [[b a]|] eqn:Hp; [|reflexivity].
  exfalso. apply H. exists b, a. apply (partition_Some sep s b a Hp).
Qed.

Lemma substr_in_contains (sep s : string) : substr_in sep s = true <-> contains s sep.
Proof.
  unfold substr_in. split.
  - destruct (partition sep s) as [[b a]|] eqn:Hp; [|discriminate].
    intros _. exists b, a. apply (partition_Some sep s b a Hp).
  - intro H. destruct (partition sep s) eqn:Hp; [reflexivity|].
    exfalso. exact (partition_None sep s Hp H).
Qed.

(** Two occurrences of "://" do not overlap. *)
Lemma scheme_sep_borderless (a t b r : string) :
  (a ++ "://" ++ t)%string = (b ++ "://" ++ r)%string ->
  String.length b < String.length a ->
  exists a', a = (b ++ "://" ++ a')%string.
Proof.
  intros H Hl.
  destruct (append_eq_split a ("://" ++ t)%string b ("://" ++ r)%string H) as [d [-> Hd]];
    [lia|].
  rewrite length_append in Hl.
  destruct d as [|c1 d]; [simpl in Hl; lia|].
  simpl in Hd. injection Hd as <- Hd.
  destruct d as [|c2 d]; [simpl in Hd; discriminate|].
  simpl in Hd. injection Hd as <- Hd.
  destruct d as [|c3 d]; [simpl in Hd; discriminate|].
  simpl in Hd. injection Hd as <- Hd.
  exists d. reflexivity.
Qed.

(* ----------------------------------------------------------------- *)
(** ** [split] *)

Lemma split_fuel_nonempty (fuel : nat) (sep s : string) : split_fuel fuel sep s <> [].
Proof.
  destruct fuel; simpl; [discriminate|].
  destruct (partition sep s) as [[b a]|]; discriminate.
Qed.

(** More fuel than the length of the string changes nothing. *)
Lemma split_fuel_enough (sep : string) :
  sep <> "" ->
  forall fuel s, String.length s <= fuel ->
                 split_fuel fuel sep s = split_fuel (String.length s) sep s.
Proof.
  intro Hsep.
  assert (Hgen : forall n fuel s, String.length s <= n -> n <= fuel ->
                                  split_fuel fuel sep s = split_fuel n sep s).
  { induction n as [|n IH]; intros fuel s Hs Hf.
    - destruct s; [|simpl in Hs; lia]. destruct fuel; [reflexivity|]. simpl.
      destruct sep; [congruence|reflexivity].
    - destruct fuel as [|fuel]; [lia|]. simpl.
      destruct (partition sep s) as [[b a]|] eqn:Hp; [|reflexivity].
      f_equal. apply IH; [|lia].
      destruct (partition_Some sep s b a Hp) as [-> _].
      rewrite !length_append in Hs.
      destruct sep; [congruence|]. simpl in Hs. lia. }
  intros fuel s Hs. apply Hgen; [lia|exact Hs].
Qed.

Lemma last_cons_nonempty {A : Type} (x : A) (l : list A) (d : A) :
  l <> [] -> List.last (x :: l) d = List.last l d.
Proof. destruct l; [congruence|reflexivity]. Qed.

(** The last part holds no separator. *)
Lemma last_split_fuel_absent (sep : string) :
  sep <> "" ->
  forall fuel s, String.length s <= fuel ->
                 ~ contains (List.last (split_fuel fuel sep s) "") sep.
Proof.
  intro Hsep. induction fuel as [|fuel IH]; intros s Hs.
  - destruct s; [|simpl in Hs; lia]. simpl. intros [a [t H]].
    destruct a; [|discriminate]. destruct sep; [congruence|discriminate].
  - simpl. destruct (partition sep s) as [[b a]|] eqn:Hp.
    + rewrite last_cons_nonempty by apply split_fuel_nonempty. apply IH.
      destruct (partition_Some sep s b a Hp) as [-> _].
      rewrite !length_append in Hs. destruct sep; [congruence|]. simpl in Hs. lia.
    + simpl. apply partition_None. exact Hp.
Qed.

(** The last part is what follows the last "://". *)
Lemma last_split_fuel_scheme (fuel : nat) :
  forall s a t,
    String.length s <= fuel ->
    s = (a ++ "://" ++ t)%string ->
    ~ contains t "://" ->
    List.last (split_fuel fuel "://" s) "" = t.
Proof.
  induction fuel as [|fuel IH]; intros s a t Hs Heq Ht.
  - rewrite Heq, !length_append in Hs. simpl in Hs. lia.
  - simpl. destruct (partition "://" s) as [[b r]|] eqn:Hp.
    2:{ exfalso. apply (partition_None _ _ Hp). exists a, t. exact Heq. }
    rewrite last_cons_nonempty by apply split_fuel_nonempty.
    destruct (partition_Some "://" s b r Hp) as [Hbr Hmin].
    specialize (Hmin a t Heq).
    destruct (Nat.eq_dec (String.length b) (String.length a)) as [Hl|Hl].
    + assert (Hd : exists d, a = (b ++ d)%string /\ ("://" ++ r)%string = (d ++ "://" ++ t)%string).
      { apply append_eq_split; [congruence|lia]. }
      destruct Hd as [d [-> Hd]]. rewrite length_append in Hl.
      destruct d; [|simpl in Hl; lia].
      simpl in Hd. injection Hd as ->.
      destruct fuel; [reflexivity|]. simpl.
      rewrite (partition_absent "://" t Ht). reflexivity.
    + assert (Hlt : String.length b < String.length a) by lia.
      assert (Hab : (a ++ "://" ++ t)%string = (b ++ "://" ++ r)%string) by congruence.
      destruct (scheme_sep_borderless a t b r Hab Hlt) as [a' ->].
      apply (IH r a' t); [| |exact Ht].
      * rewrite Hbr, !length_append in Hs. simpl in Hs. lia.
      * rewrite !append_assoc in Hab. apply append_inv_head in Hab.
        simpl in Hab. injection Hab as Hab. symmetry. exact Hab.
Qed.

(* ----------------------------------------------------------------- *)
(** ** [strip] of a set of characters *)

Lemma contains_trans (s x y : string) : contains s x -> contains x y -> contains s y.
Proof. intros [b [a ->]] H. apply contains_inside. exact H. Qed.

Lemma lstrip_by_suffix (f : ascii -> bool) (s : string) :
  exists pre, s = (pre ++ lstrip_by f s)%string.
Proof.
  induction s as [|c s [pre IH]]; [exists ""; reflexivity|]. simpl.
  destruct (f c); [|exists ""; reflexivity].
  exists (String c pre). simpl. rewrite <- IH. reflexivity.
Qed.

Lemma rstrip_by_prefix (f : ascii -> bool) (s : string) :
  exists post, s = (rstrip_by f s ++ post)%string.
Proof.
  induction s as [|c s [post IH]]; [exists ""; reflexivity|]. simpl.
  destruct (rstrip_by f s) as [|c' r] eqn:Hr.
  - destruct (f c); [exists (String c s)|exists s]; reflexivity.
  - exists post. simpl in *. rewrite <- IH. reflexivity.
Qed.

Lemma contains_strip_by (f : ascii -> bool) (s : string) : contains s (strip_by f s).
Proof.
  unfold strip_by. destruct (lstrip_by_suffix f s) as [pre Hpre].
  destruct (rstrip_by_prefix f (lstrip_by f s)) as [post Hpost].
  exists pre, post. rewrite <- Hpost. exact Hpre.
Qed.

Lemma lstrip_by_head (f : ascii -> bool) (s : string) :
  match lstrip_by f s with EmptyString => True | String c _ => f c = false end.
Proof.
  induction s as [|c s IH]; simpl; [exact I|].
  destruct (f c) eqn:E; [exact IH|exact E].
Qed.

Lemma rstrip_by_head (f : ascii -> bool) (s : string) :
  match s with EmptyString => True | String c _ => f c = false end ->
  match rstrip_by f s with EmptyString => True | String c _ => f c = false end.
Proof.
  destruct s as [|c s]; simpl; [auto|]. intro H.
  destruct (rstrip_by f s); [rewrite H|]; exact H.
Qed.

Lemma lstrip_by_fixed (f : ascii -> bool) (s : string) :
  match s with EmptyString => True | String c _ => f c = false end ->
  lstrip_by f s = s.
Proof. destruct s as [|c s]; simpl; [reflexivity|]. intros ->. reflexivity. Qed.

Lemma rstrip_by_idem (f : ascii -> bool) (s : string) :
  rstrip_by f (rstrip_by f s) = rstrip_by f s.
Proof.
  induction s as [|c s IH]; [reflexivity|]. simpl.
  destruct (rstrip_by f s) as [|c' r] eqn:Hr.
  - destruct (f c) eqn:E; [reflexivity|]. simpl. rewrite E. reflexivity.
  - cbn [rstrip_by]. cbn [rstrip_by] in IH. rewrite IH. reflexivity.
Qed.

Lemma strip_by_idem (f : ascii -> bool) (s : string) :
  strip_by f (strip_by f s) = strip_by f s.
Proof.
  unfold strip_by.
  rewrite (lstrip_by_fixed f (rstrip_by f (lstrip_by f s))).
  - apply rstrip_by_idem.
  - apply rstrip_by_head, lstrip_by_head.
Qed.

(* ----------------------------------------------------------------- *)
(** ** [strip] of white space *)

Lemma reverse_append (a b : string) :
  reverse (a ++ b) = (reverse b ++ reverse a)%string.
Proof.
  induction a as [|c a IH]; simpl.
  - rewrite append_nil_r. reflexivity.
  - rewrite IH, append_assoc. reflexivity.
Qed.

Lemma reverse_involutive (s : string) : reverse (reverse s) = s.
Proof.
  induction s as [|c s IH]; [reflexivity|]. simpl.
  rewrite reverse_append, IH. reflexivity.
Qed.

Section Lstrip.

Variable w1 : ascii -> bool.
Variable w2 : ascii -> ascii -> bool.
Variable w3 : ascii -> ascii -> ascii -> bool.

Lemma lstrip_seq_step (s : string) :
  lstrip_seq w1 w2 w3 s
  = match after_space w1 w2 w3 s with
    | Some rest => lstrip_seq w1 w2 w3 rest
    | None => s
    end.
Proof.
  destruct s as [|a [|b [|c s3]]]; cbn [lstrip_seq after_space]; try reflexivity.
  - destruct (w1 a); reflexivity.
  - destruct (w1 a); [reflexivity|]. destruct (w2 a b); reflexivity.
  - destruct (w1 a); [reflexivity|]. destruct (w2 a b); [reflexivity|].
    destruct (w3 a b c); reflexivity.
Qed.

Lemma after_space_Some (s rest : string) :
  after_space w1 w2 w3 s = Some rest ->
  exists w, s = (w ++ rest)%string /\ String.length rest < String.length s.
Proof.
  destruct s as [|a [|b [|c s3]]]; cbn [after_space]; try discriminate.
  - destruct (w1 a); [|discriminate]. intro H. injection H as <-.
    exists (String a ""). split; [reflexivity|simpl; lia].
  - destruct (w1 a).
    + intro H. injection H as <-. exists (String a ""). split; [reflexivity|simpl; lia].
    + destruct (w2 a b); [|discriminate]. intro H. injection H as <-.
      exists (String a (String b "")). split; [reflexivity|simpl; lia].
  - destruct (w1 a).
    + intro H. injection H as <-. exists (String a ""). split; [reflexivity|simpl; lia].
    + destruct (w2 a b).
      * intro H. injection H as <-.
        exists (String a (String b "")). split; [reflexivity|simpl; lia].
      * destruct (w3 a b c); [|discriminate]. intro H. injection H as <-.
        exists (String a (String b (String c ""))). split; [reflexivity|simpl; lia].
Qed.

(** White space at the head of a text is at the head of every text that
    starts with it. *)
Lemma after_space_append (p q : string) :
  after_space w1 w2 w3 (p ++ q) = None -> after_space w1 w2 w3 p = None.
Proof.
  destruct p as [|a [|b [|c p3]]]; cbn [after_space append]; try reflexivity.
  - destruct (w1 a); [discriminate|reflexivity].
  - destruct (w1 a); [discriminate|]. destruct (w2 a b); [discriminate|reflexivity].
  - destruct (w1 a); [discriminate|]. destruct (w2 a b); [discriminate|].
    destruct (w3 a b c); [discriminate|reflexivity].
Qed.

Lemma lstrip_seq_spec (n : nat) :
  forall s, String.length s <= n ->
    (exists pre, s = (pre ++ lstrip_seq w1 w2 w3 s)%string)
    /\ after_space w1 w2 w3 (lstrip_seq w1 w2 w3 s) = None.
Proof.
  induction n as [|n IH]; intros s Hn.
  - destruct s; [|simpl in Hn; lia]. split; [exists ""|]; reflexivity.
  - rewrite lstrip_seq_step.
    destruct (after_space w1 w2 w3 s) as [rest|] eqn:Ha.
    + destruct (after_space_Some s rest Ha) as [w [-> Hl]].
      destruct (IH rest ltac:(lia)) as [[pre Hpre] Hnone].
      split; [|exact Hnone].
      exists (w ++ pre)%string. rewrite append_assoc, <- Hpre. reflexivity.
    + split; [exists ""; reflexivity|exact Ha].
Qed.

Lemma lstrip_seq_suffix (s : string) :
  exists pre, s = (pre ++ lstrip_seq w1 w2 w3 s)%string.
Proof. exact (proj1 (lstrip_seq_spec (String.length s) s (le_n _))). Qed.

Lemma lstrip_seq_head (s : string) :
  after_space w1 w2 w3 (lstrip_seq w1 w2 w3 s) = None.
Proof. exact (proj2 (lstrip_seq_spec (String.length s) s (le_n _))). Qed.

Lemma lstrip_seq_fixed (s : string) :
  after_space w1 w2 w3 s = None -> lstrip_seq w1 w2 w3 s = s.
Proof. intro H. rewrite lstrip_seq_step, H. reflexivity. Qed.

Lemma lstrip_seq_idem (s : string) :
  lstrip_seq w1 w2 w3 (lstrip_seq w1 w2 w3 s) = lstrip_seq w1 w2 w3 s.
Proof. apply lstrip_seq_fixed, lstrip_seq_head. Qed.

End Lstrip.

Lemma rstrip_prefix (s : string) : exists post, s = (rstrip s ++ post)%string.
Proof.
  unfold rstrip.
  destruct (lstrip_seq_suffix space1 (fun b a => space2 a b) (fun c b a => space3 a b c)
              (reverse s)) as [pre H].
  exists (reverse pre). rewrite <- reverse_append, <- H, reverse_involutive. reflexivity.
Qed.

Lemma rstrip_idem (s : string) : rstrip (rstrip s) = rstrip s.
Proof. unfold rstrip. rewrite reverse_involutive, lstrip_seq_idem. reflexivity. Qed.

Lemma contains_strip (s : string) : contains s (strip s).
Proof.
  unfold strip. destruct (lstrip_seq_suffix space1 space2 space3 s) as [pre Hpre].
  destruct (rstrip_prefix (lstrip s)) as [post Hpost].
  exists pre, post. rewrite <- Hpost. exact Hpre.
Qed.

(** A stripped text has no white space at either end: stripping it
    again changes nothing. *)
Lemma strip_idem (s : string) : strip (strip s) = strip s.
Proof.
  unfold strip.
  assert (H : lstrip (rstrip (lstrip s)) = rstrip (lstrip s)).
  { apply lstrip_seq_fixed.
    destruct (rstrip_prefix (lstrip s)) as [post Hpost].
    apply (after_space_append _ _ _ _ post). rewrite <- Hpost.
    apply lstrip_seq_head. }
  rewrite H. apply rstrip_idem.
Qed.

(* ================================================================= *)
(** * [normalize_input_to_url] *)

Lemma normalize_input_to_url_last (user_input : string) :
  normalize_input_to_url user_input
  = let last := strip (List.last (split "://" user_input) "") in
    if truthy last then ("https://" ++ last)%string else "".
Proof.
  unfold normalize_input_to_url, split.
  pose proof (split_fuel_nonempty (String.length user_input) "://" user_input) as Hne.
  destruct (split_fuel (String.length user_input) "://" user_input) as [|p ps];
    [congruence|].
  cbv zeta. destruct (truthy _); reflexivity.
Qed.

Lemma normalize_cases (user_input : string) :
  normalize_input_to_url user_input = ""
  \/ exists rest,
      normalize_input_to_url user_input = ("https://" ++ rest)%string
      /\ rest <> ""
      /\ strip rest = rest
      /\ ~ contains rest "://".
Proof.
  rewrite normalize_input_to_url_last. cbv zeta.
  set (l := List.last (split "://" user_input) "").
  destruct (truthy (strip l)) eqn:Ht; [right|left; reflexivity].
  exists (strip l). split; [reflexivity|]. split; [|split].
  - intro H. rewrite H in Ht. discriminate.
  - apply strip_idem.
  - intro H. apply (last_split_fuel_absent "://" ltac:(discriminate)
                      (String.length user_input) user_input (le_n _)).
    fold (split "://" user_input). fold l.
    apply (contains_trans l (strip l) "://"); [apply contains_strip|exact H].
Qed.

Lemma normalize_after_separator (junk rest : string) :
  ~ contains rest "://" ->
  normalize_input_to_url (junk ++ "://" ++ rest)%string
  = if truthy (strip rest) then ("https://" ++ strip rest)%string else "".
Proof.
  intro H. rewrite normalize_input_to_url_last. cbv zeta. unfold split.
  rewrite (last_split_fuel_scheme _ _ junk rest (le_n _) eq_refl H). reflexivity.
Qed.

(** Whatever is typed, the result is empty or "https://" followed by a
    non-empty text without surrounding white space and without a second
    "://". *)
Theorem normalize_input_to_url_shape (user_input : string) :
  normalize_input_to_url user_input = ""
  \/ exists rest,
      normalize_input_to_url user_input = ("https://" ++ rest)%string
      /\ rest <> ""
      /\ strip rest = rest
      /\ ~ contains rest "://".
Proof. exact (normalize_cases user_input). Qed.

(** Everything up to and including the last "://" is dropped, the rest
    is stripped of white space and prefixed: the docstring's
    ['https://abc://example.com/page'] gives ['https://example.com/page']. *)
Theorem normalize_input_to_url_keeps_last_part (junk rest : string) :
  ~ contains rest "://" ->
  normalize_input_to_url (junk ++ "://" ++ rest)%string
  = if truthy (strip rest) then ("https://" ++ strip rest)%string else "".
Proof. exact (normalize_after_separator junk rest). Qed.

Lemma normalize_input_to_url_witness :
  ~ contains "example.com/page " "://"
  /\ normalize_input_to_url "https://abc://example.com/page " = "https://example.com/page"
  /\ ~ contains "　a.com　" "://"
  /\ normalize_input_to_url "x://　a.com　" = "https://a.com".
Proof.
  assert (H : ~ contains "example.com/page " "://")
    by (apply partition_None; reflexivity).
  assert (H' : ~ contains "　a.com　" "://")
    by (apply partition_None; reflexivity).
  split; [exact H|]. split; [|split; [exact H'|]].
  - exact (normalize_input_to_url_keeps_last_part "https://abc" "example.com/page " H).
  - exact (normalize_input_to_url_keeps_last_part "x" "　a.com　" H').
Defined.

(** Normalizing a normalized URL changes nothing. *)
Theorem normalize_input_to_url_idempotent (user_input : string) :
  normalize_input_to_url (normalize_input_to_url user_input)
  = normalize_input_to_url user_input.
Proof.
  destruct (normalize_cases user_input) as [->|[rest [-> [Hne [Hs Hc]]]]];
    [reflexivity|].
  change ("https://" ++ rest)%string with ("https" ++ "://" ++ rest)%string.
  rewrite (normalize_after_separator "https" rest Hc), Hs.
  destruct rest; [congruence|reflexivity].
Qed.

(* ================================================================= *)
(** * The loops of [sanitize_html_] are one traversal *)

Lemma fold_prune_leaf (names : list string) (e : PageElement) :
  (forall n a cs, e <> Tag n a cs) ->
  fold_left (fun e x => prune (by_name x) e) names e = e.
Proof.
  intro H. induction names as [|x names IH]; [reflexivity|]. simpl.
  destruct e; try exact IH. exfalso. eapply H. reflexivity.
Qed.

Lemma fold_prune_Tag (names : list string) :
  forall n a cs,
    fold_left (fun e x => prune (by_name x) e) names (Tag n a cs)
    = if str_in n names then Decomposed
      else Tag n a (map (fun c => fold_left (fun e x => prune (by_name x) e) names c) cs).
Proof.
  induction names as [|x names IH]; intros n a cs.
  - simpl. rewrite map_id. reflexivity.
  - cbn [fold_left prune]. unfold str_in. cbn [existsb].
    change (by_name x n a) with (String.eqb n x).
    destruct (String.eqb n x); cbn [orb].
    + apply fold_prune_leaf. discriminate.
    + rewrite IH. unfold str_in.
      destruct (existsb (String.eqb n) names); [reflexivity|].
      rewrite map_map. reflexivity.
Qed.

Lemma removed_names_split (n : string) :
  str_in n removed_names
  = str_in n ["script"; "iframe"; "object"; "embed"; "noscript"; "base"]
    || (str_in n ["link"] || (str_in n ["meta"]
    || str_in n ["video"; "audio"; "source"; "track"])).
Proof.
  unfold str_in, removed_names. simpl.
  repeat rewrite ?orb_false_r, <- ?orb_assoc. reflexivity.
Qed.

Lemma neutralize_at_false (e : PageElement) : neutralize e = neutralize_at false e.
Proof. reflexivity. Qed.

Lemma neutralize_at_sanitize_node (e : PageElement) :
  forall d, neutralize_at d e = sanitize_node d e.
Proof.
  induction e as [n a cs IH| | | |] using PageElement_tree_ind; intro d;
    try reflexivity.
  unfold neutralize_at. cbn [sanitize_node].
  rewrite removed_names_split.
  rewrite fold_prune_Tag.
  destruct (str_in n ["script"; "iframe"; "object"; "embed"; "noscript"; "base"]);
    [reflexivity|].
  rewrite fold_prune_Tag. destruct (str_in n ["link"]); [reflexivity|].
  rewrite fold_prune_Tag. destruct (str_in n ["meta"]); [reflexivity|].
  cbn [amap forms_rec]. rewrite fold_prune_Tag.
  destruct (str_in n ["video"; "audio"; "source"; "track"]); [reflexivity|].
  cbn [orb]. f_equal. rewrite !map_map.
  apply map_ext_Forall. revert IH. apply Forall_impl. intros c Hc.
  exact (Hc (d || String.eqb n "form")).
Qed.

(** The loops of [sanitize_html_] before the notice compute
    [sanitize_node] at every top-level node. *)
Lemma before_notice_sanitize_node (soup : Soup) :
  Strict.before_notice soup = map (sanitize_node false) soup.
Proof.
  rewrite before_notice_neutralize. apply map_ext. intro e.
  rewrite neutralize_at_false. apply neutralize_at_sanitize_node.
Qed.

Lemma get_node_sanitize_node (q : path) :
  forall e d x,
    get_node q e = Some x ->
    get_node q (sanitize_node d e)
    = if existsb (fun n => str_in n removed_names) (names_above q e) then None
      else Some (sanitize_node (d || str_in "form" (names_above q e)) x).
Proof.
  induction q as [|i q IH]; intros e d x Hg.
  - simpl in Hg. injection Hg as ->. simpl. rewrite orb_false_r. reflexivity.
  - destruct e as [n a cs| | | |]; try discriminate. simpl in Hg.
    destruct (nth_error cs i) as [c|] eqn:Hn; [|discriminate].
    cbn [sanitize_node names_above existsb]. rewrite Hn.
    destruct (str_in n removed_names); [reflexivity|].
    cbn [orb get_node]. rewrite nth_error_map, Hn. cbn [option_map].
    rewrite (IH c _ x Hg).
    destruct (existsb _ (names_above q c)); [reflexivity|].
    unfold str_in at 2. cbn [existsb]. fold (str_in "form" (names_above q c)).
    rewrite (String.eqb_sym "form" n), orb_assoc. reflexivity.
Qed.

Lemma get_in_before_notice (soup : Soup) (p : path) (x : PageElement) :
  get_in p soup = Some x ->
  get_in p (Strict.before_notice soup)
  = if below_removed p soup then None
    else Some (sanitize_node (str_in "form" (ancestors p soup)) x).
Proof.
  intro Hg. rewrite before_notice_sanitize_node.
  destruct p as [|i q]; [discriminate|]. unfold below_removed, ancestors.
  simpl in *. rewrite nth_error_map.
  destruct (nth_error soup i) as [c|]; [|discriminate]. cbn [option_map].
  apply (get_node_sanitize_node q c false x Hg).
Qed.

(** No loop of [sanitize_html_] touches or removes a text node or a
    comment: it is where it was, as it was, unless one of its ancestors
    is a tag that is removed.  In particular the comment loop of
    lines 180-182 removes nothing. *)
Theorem strict_keeps_text_and_comments
  (soup : Soup) (p : path) (x : PageElement) :
  get_in p soup = Some x ->
  (exists s, x = NavigableString s \/ x = Comment s) ->
  get_in p (Strict.before_notice soup)
  = if below_removed p soup then None else Some x.
Proof.
  intros Hg [s [-> | ->]]; rewrite (get_in_before_notice soup p _ Hg); reflexivity.
Qed.

Lemma strict_keeps_text_and_comments_witness :
  get_in [0; 0] comments_soup = Some (Comment "[if IE]>x<![endif]")
  /\ get_in [0; 0] (Strict.before_notice comments_soup)
     = Some (Comment "[if IE]>x<![endif]")
  /\ get_in [0; 1; 0] (Strict.before_notice comments_soup) = None.
Proof.
  split; [reflexivity|]. split.
  - exact (strict_keeps_text_and_comments comments_soup [0; 0]
             (Comment "[if IE]>x<![endif]") eq_refl
             (ex_intro _ "[if IE]>x<![endif]" (or_intror eq_refl))).
  - exact (strict_keeps_text_and_comments comments_soup [0; 1; 0]
             (Comment "y") eq_refl (ex_intro _ "y" (or_intror eq_refl))).
Defined.

(** What [sanitize_html_] does to a tag, read off the parsed document:
    it is gone when an ancestor is removed, it is taken out of the tree
    when its own name is one of the removed ones, and otherwise it is
    still there, under its name and with the attributes [strict_attrs],
    for which only the tag's own name and attributes and the presence
    of a [form] ancestor matter. *)
Theorem strict_fate_of_a_tag
  (soup : Soup) (p : path) (n : string) (a : dict) (cs : Soup) :
  get_in p soup = Some (Tag n a cs) ->
  if below_removed p soup then get_in p (Strict.before_notice soup) = None
  else if str_in n removed_names
       then get_in p (Strict.before_notice soup) = Some Decomposed
       else exists cs',
           get_in p (Strict.before_notice soup)
           = Some (Tag n (strict_attrs (str_in "form" (ancestors p soup)) n a) cs').
Proof.
  intro Hg. rewrite (get_in_before_notice soup p _ Hg).
  destruct (below_removed p soup); [reflexivity|]. cbn [sanitize_node].
  destruct (str_in n removed_names); [reflexivity|].
  eexists. reflexivity.
Qed.

Lemma strict_fate_of_a_tag_witness :
  get_in [0; 2] C5_soup = Some (Tag "input" [("type", "Submit")] [])
  /\ exists cs',
      get_in [0; 2] (Strict.before_notice C5_soup)
      = Some (Tag "input" [("type", "Submit"); ("disabled", "disabled")] cs').
Proof.
  split; [reflexivity|].
  exact (strict_fate_of_a_tag C5_soup [0; 2] "input" [("type", "Submit")] [] eq_refl).
Defined.

(** No element of the output of [sanitize_html_] has a [src] or a
    [srcset] attribute. *)
Theorem strict_output_has_no_src
  (soup : Soup) (p : path) (n : string) (a : dict) (cs : Soup) :
  get_in p (Strict.sanitize_html__soup soup) = Some (Tag n a cs) ->
  dict_get a "src" = None /\ dict_get a "srcset" = None.
Proof.
  intro Hg.
  destruct (sanitize_html__soup_tag soup p n a cs Hg) as [d [[_ [H1 [H2 _]]] _]].
  unfold dict_has in H1, H2.
  destruct (dict_get a "src"); [discriminate|].
  destruct (dict_get a "srcset"); [discriminate|]. auto.
Qed.

Lemma strict_output_has_no_src_witness :
  get_in [1] (Strict.sanitize_html__soup C4_soup) = Some (Tag "img" [] [])
  /\ dict_get [] "src" = None /\ dict_get [] "srcset" = None.
Proof.
  assert (H : get_in [1] (Strict.sanitize_html__soup C4_soup) = Some (Tag "img" [] []))
    by reflexivity.
  split; [exact H|].
  exact (strict_output_has_no_src C4_soup [1] "img" [] [] H).
Defined.

(* ================================================================= *)
(** * The output of [sanitize_html] *)

(** In the output of [sanitize_html] every [href] of an [a] element
    starts with "#" or with "https://noice://", and every [img] element
    that has a [src] has one that starts with "https://noice://" and has
    a non-empty [alt]. *)
Theorem light_output_links_prefixed
  (soup : Soup) (p : path) (n : string) (a : dict) (cs : Soup) :
  get_in p (Light.sanitize_html_soup soup) = Some (Tag n a cs) ->
  (n = "a" ->
   forall v, dict_get a "href" = Some v ->
             startswith v "#" = true \/ startswith v "https://noice://" = true)
  /\ (n = "img" ->
      forall v, dict_get a "src" = Some v ->
                startswith v "https://noice://" = true
                /\ exists alt, dict_get a "alt" = Some alt /\ alt <> "").
Proof.
  intro Hg. rewrite light_get_in in Hg.
  destruct (get_in p soup) as [[n0 a0 cs0| | | |]|]; try discriminate.
  simpl in Hg. injection Hg as <- <- _. split.
  - intros -> v Hv. rewrite light_attrs_a in Hv. unfold only, by_attr, dict_has in Hv.
    destruct (dict_get a0 "href") as [v0|] eqn:E.
    + rewrite (light_a_attrs_href "a" a0 v0 E) in Hv.
      destruct (startswith v0 "#") eqn:Es; injection Hv as <-.
      * left. exact Es.
      * right. exact (prefix_append "https://noice://" v0).
    + rewrite E in Hv. discriminate.
  - intros -> v Hv. rewrite light_attrs_img in *. unfold only, by_attr, dict_has in *.
    destruct (dict_get a0 "src") as [v0|] eqn:E.
    + rewrite light_img_attrs_src in Hv. injection Hv as <-. split.
      * exact (prefix_append "https://noice://" (dict_get_default a0 "src" "")).
      * rewrite light_img_attrs_alt. eexists. split; [reflexivity|].
        destruct (truthy (dict_get_default a0 "alt" "")) eqn:Et; [|discriminate].
        intro H. rewrite H in Et. discriminate.
    + rewrite E in Hv. discriminate.
Qed.

Lemma light_output_links_prefixed_witness :
  get_in [0] (Light.sanitize_html_soup C4_soup)
  = Some (Tag "img" [("src", "https://noice://http://evil.test/x.png");
                     ("alt", "[image disabled]")] [])
  /\ forall v,
      dict_get [("src", "https://noice://http://evil.test/x.png");
                ("alt", "[image disabled]")] "src" = Some v ->
      startswith v "https://noice://" = true
      /\ exists alt,
          dict_get [("src", "https://noice://http://evil.test/x.png");
                    ("alt", "[image disabled]")] "alt" = Some alt /\ alt <> "".
Proof.
  assert (H : get_in [0] (Light.sanitize_html_soup C4_soup)
              = Some (Tag "img" [("src", "https://noice://http://evil.test/x.png");
                                 ("alt", "[image disabled]")] []))
    by reflexivity.
  split; [exact H|].
  exact (proj2 (light_output_links_prefixed C4_soup [0] "img" _ [] H) eq_refl).
Defined.

(* ================================================================= *)
(** * The serializer writes well-formed markup *)

Lemma contains_char_append (c : ascii) (a b : string) :
  Serializer.contains_char c (a ++ b)
  = Serializer.contains_char c a || Serializer.contains_char c b.
Proof.
  induction a as [|x a IH]; [reflexivity|]. simpl. rewrite IH, orb_assoc. reflexivity.
Qed.


Lemma substitute_xml_quote (q : ascii) (s : string) :
  q = Serializer.dquote \/ q = Serializer.squote ->
  Serializer.contains_char q (Serializer.substitute_xml s)
  = Serializer.contains_char q s.
Proof.
  intro Hq. induction s as [|x s IH]; [reflexivity|].
  cbn [Serializer.substitute_xml Serializer.contains_char].
  rewrite contains_char_append, IH. f_equal.
  destruct (Ascii.eqb x "&") eqn:E1.
  { apply Ascii.eqb_eq in E1. subst x. destruct Hq as [-> | ->]; reflexivity. }
  destruct (Ascii.eqb x "<") eqn:E2.
  { apply Ascii.eqb_eq in E2. subst x. destruct Hq as [-> | ->]; reflexivity. }
  destruct (Ascii.eqb x ">") eqn:E3.
  { apply Ascii.eqb_eq in E3. subst x. destruct Hq as [-> | ->]; reflexivity. }
  cbn [Serializer.contains_char]. apply orb_false_r.
Qed.










Lemma join_live (f : PageElement -> string) (cs : Soup) :
  f Decomposed = "" ->
  Serializer.join (map f cs) = Serializer.join (map f (filter Serializer.is_live cs)).
Proof.
  intro Hf. induction cs as [|c cs IH]; [reflexivity|].
  cbn [map filter]. destruct c; cbn [Serializer.is_live map];
    rewrite ?join_cons, ?IH, ?Hf; reflexivity.
Qed.



(* ----------------------------------------------------------------- *)
(** ** The slots of removed nodes are not printed *)

Lemma filter_idem {A : Type} (f : A -> bool) (l : list A) :
  filter f (filter f l) = filter f l.
Proof.
  induction l as [|x l IH]; [reflexivity|].
  cbn [filter]. destruct (f x) eqn:E; [|exact IH].
  cbn [filter]. rewrite E, IH. reflexivity.
Qed.

Lemma live_erase (cs : Soup) :
  filter Serializer.is_live (map erase cs) = map erase (filter Serializer.is_live cs).
Proof.
  induction cs as [|c cs IH]; [reflexivity|].
  cbn [map filter]. rewrite IH. destruct c; reflexivity.
Qed.

(** The slots are a device of the model: what is printed is what is
    printed for the tree without them. *)
Lemma decode_erase (e : PageElement) :
  forall parent, Serializer.decode parent (erase e) = Serializer.decode parent e.
Proof.
  induction e as [n a cs IH|s|s| |k s] using PageElement_tree_ind;
    intro parent; try reflexivity.
  cbn [erase Serializer.decode]. cbv zeta.
  assert (He : Serializer.is_empty_element n (filter Serializer.is_live (map erase cs))
               = Serializer.is_empty_element n cs).
  { unfold Serializer.is_empty_element. rewrite filter_idem, live_erase.
    destruct (filter Serializer.is_live cs); reflexivity. }
  rewrite He.
  assert (Hj : Serializer.join (map (Serializer.decode n)
                                  (filter Serializer.is_live (map erase cs)))
               = Serializer.join (map (Serializer.decode n) cs)).
  { rewrite <- (join_live (Serializer.decode n) (map erase cs) eq_refl). f_equal.
    rewrite map_map. apply map_ext_Forall.
    eapply Forall_impl; [|exact IH]. intros c Hc. apply Hc. }
  rewrite Hj. reflexivity.
Qed.

Lemma str_erase (soup : Soup) :
  Serializer.str (filter Serializer.is_live (map erase soup)) = Serializer.str soup.
Proof.
  unfold Serializer.str.
  rewrite <- (join_live (Serializer.decode "[document]") (map erase soup) eq_refl).
  f_equal. rewrite map_map. apply map_ext. intro c. apply decode_erase.
Qed.

(* ----------------------------------------------------------------- *)
(** ** The sanitizers keep a tree well parsed *)




















(* ================================================================= *)
(** * C6: what the sanitizers return *)





(* ================================================================= *)
(** * The fetch and the script *)

Lemma requests_of_app (l1 l2 : list App.event) :
  App.requests_of (l1 ++ l2) = App.requests_of l1 ++ App.requests_of l2.
Proof.
  induction l1 as [|ev l1 IH]; [reflexivity|].
  destruct ev; simpl; rewrite IH; reflexivity.
Qed.


Lemma errors_of_app (l1 l2 : list App.event) :
  App.errors_of (l1 ++ l2) = App.errors_of l1 ++ App.errors_of l2.
Proof.
  induction l1 as [|ev l1 IH]; [reflexivity|].
  destruct ev as [| | |[]]; simpl; rewrite IH; reflexivity.
Qed.

Lemma requests_of_ui (calls : list Pipeline.ui_call) :
  App.requests_of (map App.ui calls) = [].
Proof. induction calls as [|c calls IH]; [reflexivity|exact IH]. Qed.

(** The sanitize-and-render step returns, with no call at all when
    there is no text, and else with one document for the renderer. *)
Lemma render_calls (sanitize : string -> string -> Pipeline.outcome string)
  (html : option string) (final_url : string) :
  exists calls,
    Pipeline.render sanitize html final_url = Pipeline.Returned calls
    /\ ((calls = [] /\ (html = None \/ html = Some ""))
        \/ exists h,
            html = Some h /\ h <> ""
            /\ ((exists s,
                    sanitize h final_url = Pipeline.Returned s
                    /\ calls = [Pipeline.st_success "Rendering sanitized HTML below.";
                                Pipeline.components_html s 800 true])
                \/ (exists e,
                       sanitize h final_url = Pipeline.Raised e
                       /\ calls = [Pipeline.st_error
                                     ("Error while sanitizing HTML: " ++ Pipeline.message e);
                                   Pipeline.st_success "Rendering sanitized HTML below.";
                                   Pipeline.components_html Pipeline.fallback 800 true]))).
Proof.
  unfold Pipeline.render. destruct html as [h|].
  - destruct h as [|c h].
    + eexists. split; [reflexivity|]. left. auto.
    + cbn [truthy]. destruct (sanitize (String c h) final_url) as [s|e] eqn:Hs.
      * eexists. split; [reflexivity|]. right. exists (String c h).
        split; [reflexivity|]. split; [discriminate|]. left. exists s. auto.
      * eexists. split; [reflexivity|]. right. exists (String c h).
        split; [reflexivity|]. split; [discriminate|]. right. exists e. auto.
  - eexists. split; [reflexivity|]. left. auto.
Qed.

Section Runs.

Variable Wd : App.World.

(** [fetch_url] makes one request, whatever happens then, and returns
    only a response that [raise_for_status] accepts. *)
Lemma fetch_url_run (url : string) (headers : option dict) (w : App.Net Wd) :
  exists hdrs r w',
    App.fetch_url Wd url headers w = ([App.request url hdrs 10], r, w')
    /\ hdrs = match headers with
              | Some ((_ :: _) as h) => h
              | _ => [("User-Agent", App.USER_AGENT)]
              end
    /\ forall resp, r = App.Ok resp ->
         App.requests_get Wd url hdrs 10 w = (App.Ok resp, w')
         /\ App.raise_for_status Wd resp = App.Ok tt.
Proof.
  unfold App.fetch_url. cbv zeta.
  match goal with |- context [App.get Wd url ?h _] => set (hdrs := h) end.
  unfold App.bind, App.get, App.lift, App.ret, App.REQUEST_TIMEOUT.
  exists hdrs. destruct (App.requests_get Wd url hdrs 10 w) as [[resp|e] w'].
  - destruct (App.raise_for_status Wd resp) as [[]|e] eqn:Hr.
    + eexists _, _. split; [reflexivity|]. split; [reflexivity|].
      intros resp' H. injection H as <-. auto.
    + eexists _, _. split; [reflexivity|]. split; [reflexivity|]. discriminate.
  - eexists _, _. split; [reflexivity|]. split; [reflexivity|]. discriminate.
Qed.

Lemma bind_lift_Ok {A B : Type} (x : A) (f : A -> App.io Wd B) (w : App.Net Wd) :
  App.bind (App.lift (App.Ok x)) f w = f x w.
Proof. unfold App.bind, App.lift. destruct (f x w) as [[l r] w']. reflexivity. Qed.

Lemma bind_lift_Err {A B : Type} (e : App.raised) (f : A -> App.io Wd B) (w : App.Net Wd) :
  App.bind (App.lift (App.Err e)) f w = ([], App.Err e, w).
Proof. reflexivity. Qed.

Lemma bind_ret {A B : Type} (x : A) (f : A -> App.io Wd B) (w : App.Net Wd) :
  App.bind (App.ret x) f w = f x w.
Proof. unfold App.bind, App.ret. destruct (f x w) as [[l r] w']. reflexivity. Qed.

Lemma bind_run {A B : Type} (m : App.io Wd A) (f : A -> App.io Wd B) (w : App.Net Wd)
  (l1 : list App.event) (r1 : App.result A) (w1 : App.Net Wd) :
  m w = (l1, r1, w1) ->
  App.bind m f w
  = match r1 with
    | App.Ok x => (l1 ++ App.log_of (f x w1), App.result_of (f x w1), snd (f x w1))
    | App.Err e => (l1, App.Err e, w1)
    end.
Proof.
  intro H. unfold App.bind. rewrite H. destruct r1 as [x|e]; [|reflexivity].
  destruct (f x w1) as [[l r] w']. reflexivity.
Qed.

Lemma google_fallback_search_eq (original_url : string) :
  App.google_fallback_search Wd original_url
  = App.bind (App.lift (App.urlparse Wd original_url)) (fun parsed =>
    App.bind (App.lift (App.parse_qs Wd (App.query parsed))) (fun qs =>
    let query :=
      App.or_str
        match App.qs_get qs "q" with
        | Some (q0 :: _) => q0
        | _ => App.or_str (strip_chars "/ " (App.path parsed))
                          (App.or_str (strip (App.fragment parsed)) "")
        end "" in
    App.bind (if truthy query then App.lift (App.quote_plus Wd query) else App.ret "")
      (fun safe_q =>
         App.fetch_url Wd
           (if truthy safe_q
            then ("https://www.google.com/search?q=" ++ safe_q ++ "&num=1")%string
            else "https://www.google.com/search?num=1")
           None))).
Proof. reflexivity. Qed.

Lemma google_fallback_search_run (original_url : string) (w : App.Net Wd) :
  (exists e, App.google_fallback_search Wd original_url w = ([], App.Err e, w))
  \/ exists search_url r w',
      App.google_fallback_search Wd original_url w
      = ([App.request search_url [("User-Agent", App.USER_AGENT)] 10], r, w')
      /\ (search_url = "https://www.google.com/search?num=1"
          \/ exists safe_q,
              safe_q <> ""
              /\ search_url = ("https://www.google.com/search?q=" ++ safe_q ++ "&num=1")%string)
      /\ forall resp, r = App.Ok resp ->
           App.requests_get Wd search_url [("User-Agent", App.USER_AGENT)] 10 w
           = (App.Ok resp, w')
           /\ App.raise_for_status Wd resp = App.Ok tt.
Proof.
  rewrite google_fallback_search_eq.
  destruct (App.urlparse Wd original_url) as [parsed|e];
    [rewrite bind_lift_Ok|left; exists e; reflexivity].
  destruct (App.parse_qs Wd (App.query parsed)) as [qs|e];
    [rewrite bind_lift_Ok|left; exists e; reflexivity].
  cbv zeta. set (query := App.or_str _ "").
  assert (Hq : (exists e, (if truthy query then App.lift (App.quote_plus Wd query)
                           else @App.ret Wd string "") = App.lift (App.Err e))
               \/ exists safe_q, (if truthy query then App.lift (App.quote_plus Wd query)
                                  else @App.ret Wd string "") = App.lift (App.Ok safe_q)).
  { destruct (truthy query); [|right; exists ""; reflexivity].
    destruct (App.quote_plus Wd query) as [s|e]; [right; exists s|left; exists e]; reflexivity. }
  destruct Hq as [[e Hq]|[safe_q Hq]]; rewrite Hq.
  - left. exists e. reflexivity.
  - right. rewrite bind_lift_Ok.
    set (search_url := if truthy safe_q then _ else _).
    destruct (fetch_url_run search_url None w) as [hdrs [r [w' [Hf [-> Hr]]]]].
    exists search_url, r, w'. split; [exact Hf|]. split; [|exact Hr].
    subst search_url. destruct safe_q as [|c s]; [left; reflexivity|].
    right. exists (String c s). split; [discriminate|reflexivity].
Qed.

Lemma on_submit_cases (sanitize : string -> string -> Pipeline.outcome string)
  (user_input : string) (w : App.Net Wd) :
  let final_url := normalize_input_to_url user_input in
  let run := App.on_submit Wd sanitize user_input w in
  let info := App.st_info ("Attempting to fetch: " ++ final_url) in
  let warning := App.st_warning
    "Direct fetch failed for Google — attempting a simple fallback search (num=1) with browser user-agent." in
  ((user_input = "" \/ substr_in "://" user_input = false)
   /\ run = ([App.ui (Pipeline.st_error
        "Please enter a string containing '://'. Example: https://abc://example.com/page")],
             App.Ok tt, w))
  \/ (exists e, App.urlparse Wd final_url = App.Err e /\ run = ([], App.Err e, w))
  \/ (exists p,
         App.urlparse Wd final_url = App.Ok p
         /\ truthy (App.scheme p) && truthy (App.netloc p) = false
         /\ run = ([App.ui (Pipeline.st_error ("Resulting URL is invalid: " ++ final_url))],
                   App.Ok tt, w))
  \/ (exists p l1 r1 w1,
         substr_in "://" user_input = true
         /\ App.urlparse Wd final_url = App.Ok p
         /\ truthy (App.scheme p) && truthy (App.netloc p) = true
         /\ App.fetch_url Wd final_url (Some App.browser_headers) w = (l1, r1, w1)
         /\ match r1 with
            | App.Ok resp =>
                exists calls,
                  Pipeline.render sanitize (Some (App.text Wd resp)) final_url
                  = Pipeline.Returned calls
                  /\ run = (info :: l1 ++ map App.ui calls, App.Ok tt, w1)
            | App.Err (App.OtherException e) =>
                run = (info :: l1, App.Err (App.OtherException e), w1)
            | App.Err (App.RequestException e) =>
                if substr_in "google." (lower (App.netloc p)) then
                  exists l2 r2 w2,
                    App.google_fallback_search Wd final_url w1 = (l2, r2, w2)
                    /\ match r2 with
                       | App.Ok resp =>
                           exists calls,
                             Pipeline.render sanitize (Some (App.text Wd resp)) final_url
                             = Pipeline.Returned calls
                             /\ run = (info :: l1 ++ warning :: l2 ++ map App.ui calls,
                                       App.Ok tt, w2)
                       | App.Err (App.OtherException e2) =>
                           run = (info :: l1 ++ warning :: l2,
                                  App.Err (App.OtherException e2), w2)
                       | App.Err (App.RequestException e2) =>
                           run = (info :: l1 ++ warning :: l2
                                  ++ [App.ui (Pipeline.st_error
                                        ("Failed to fetch page even with Google fallback: "
                                         ++ Pipeline.message e2))],
                                  App.Ok tt, w2)
                       end
                else
                  run = (info :: l1
                         ++ [App.ui (Pipeline.st_error
                               ("Failed to fetch URL: " ++ Pipeline.message e))],
                         App.Ok tt, w1)
            end).
Proof.
  cbv zeta. unfold App.on_submit.
  destruct (negb (truthy user_input) || negb (substr_in "://" user_input)) eqn:G.
  { left. split; [|reflexivity]. apply orb_true_iff in G. destruct G as [G|G].
    - left. destruct user_input; [reflexivity|discriminate].
    - right. destruct (substr_in "://" user_input); [discriminate|reflexivity]. }
  apply orb_false_iff in G. destruct G as [_ G]. apply negb_false_iff in G.
  right. cbv zeta. set (final_url := normalize_input_to_url user_input).
  unfold App.is_valid_url, App.try_except_RequestException, App.render,
    App.bind, App.lift, App.ret, App.emit.
  destruct (App.urlparse Wd final_url) as [p|e] eqn:Hp;
    [|left; exists e; split; reflexivity].
  right. destruct (truthy (App.scheme p) && truthy (App.netloc p)) eqn:Hv; cbn [negb];
    [|left; exists p; split; [reflexivity|]; split; [exact Hv|reflexivity]].
  right. destruct (App.fetch_url Wd final_url (Some App.browser_headers) w)
    as [[l1 r1] w1] eqn:Hf.
  exists p, l1, r1, w1. repeat (split; [reflexivity || assumption|]).
  destruct r1 as [resp|[e|e]].
  - destruct (render_calls sanitize (Some (App.text Wd resp)) final_url) as [calls [Hr _]].
    exists calls. split; [exact Hr|]. rewrite Hr. cbn [app]. rewrite app_nil_r. reflexivity.
  - destruct (substr_in "google." (lower (App.netloc p))).
    + destruct (App.google_fallback_search Wd final_url w1) as [[l2 r2] w2] eqn:Hg.
      exists l2, r2, w2. split; [reflexivity|].
      destruct r2 as [resp|[e2|e2]].
      * destruct (render_calls sanitize (Some (App.text Wd resp)) final_url)
          as [calls [Hr _]].
        exists calls. split; [exact Hr|]. rewrite Hr. cbn [app].
        rewrite ?app_nil_r, <- ?app_assoc. reflexivity.
      * cbn [Pipeline.render map app]. rewrite ?app_nil_r, <- ?app_assoc. reflexivity.
      * cbn [app]. rewrite ?app_nil_r, <- ?app_assoc. reflexivity.
    + cbn [Pipeline.render map app]. rewrite ?app_nil_r, <- ?app_assoc. reflexivity.
  - cbn [app]. rewrite ?app_nil_r, <- ?app_assoc. reflexivity.
Qed.

End Runs.

(** [google_fallback_search] asks the network at most once.  When it
    does not ask, it raises; when it asks, the URL is that of a Google
    search, with the query string [num=1] or [q=...&num=1] around a
    non-empty quoted query, whatever the host of the original URL was;
    the only header is the User-Agent and the timeout is 10 seconds;
    and a response it returns has passed [raise_for_status]. *)
Theorem google_fallback_search_request
  (Wd : App.World) (original_url : string) (w : App.Net Wd) :
  let run := App.google_fallback_search Wd original_url w in
  (App.log_of run = [] /\ exists e, App.result_of run = App.Err e)
  \/ exists search_url,
      App.log_of run = [App.request search_url [("User-Agent", App.USER_AGENT)] 10]
      /\ (search_url = "https://www.google.com/search?num=1"
          \/ exists safe_q,
              safe_q <> ""
              /\ search_url
                 = ("https://www.google.com/search?q=" ++ safe_q ++ "&num=1")%string)
      /\ forall resp, App.result_of run = App.Ok resp ->
                      App.raise_for_status Wd resp = App.Ok tt.
Proof.
  cbv zeta.
  destruct (google_fallback_search_run Wd original_url w)
    as [[e H]|[u [r [w' [H [Hu Hr]]]]]]; rewrite H.
  - left. split; [reflexivity|]. exists e. reflexivity.
  - right. exists u. split; [reflexivity|]. split; [exact Hu|].
    intros resp Hres. exact (proj2 (Hr resp Hres)).
Qed.

(** The requests of one run of the script, exactly.  There is none when
    the input is empty or has no "://", or when [is_valid_url] does not
    return [True] for the normalized URL.  Otherwise the first request
    goes to the normalized URL, with the browser headers; it is followed
    by the requests of [google_fallback_search], run on the network as
    the first fetch left it, exactly when the first fetch raised a
    [RequestException] and the lower-cased host contains "google."; and
    that is at most one request, to the Google search URL, with the
    User-Agent as its only header.  Every request has a timeout of 10
    seconds. *)
Theorem on_submit_requests
  (Wd : App.World) (sanitize : string -> string -> Pipeline.outcome string)
  (user_input : string) (w : App.Net Wd) :
  let final_url := normalize_input_to_url user_input in
  let first := (final_url, App.browser_headers, 10) in
  let run1 := App.fetch_url Wd final_url (Some App.browser_headers) w in
  let fallback := App.google_fallback_search Wd final_url (snd run1) in
  let asked :=
    truthy user_input && substr_in "://" user_input
    && match App.result_of (App.is_valid_url Wd final_url w) with
       | App.Ok true => true
       | _ => false
       end in
  let falls_back :=
    match App.result_of run1, App.urlparse Wd final_url with
    | App.Err (App.RequestException _), App.Ok p =>
        substr_in "google." (lower (App.netloc p))
    | _, _ => false
    end in
  App.requests_of (App.log_of (App.on_submit Wd sanitize user_input w))
  = (if asked
     then first :: (if falls_back then App.requests_of (App.log_of fallback) else [])
     else [])
  /\ (App.requests_of (App.log_of fallback) = []
      \/ exists search_url,
          App.requests_of (App.log_of fallback)
          = [(search_url, [("User-Agent", App.USER_AGENT)], 10)]
          /\ startswith search_url "https://www.google.com/search?" = true).
Proof.
  cbv zeta. split.
  - pose proof (on_submit_cases Wd sanitize user_input w) as H. cbv zeta in H.
    set (final_url := normalize_input_to_url user_input) in *.
    assert (Hvalid : forall p, App.urlparse Wd final_url = App.Ok p ->
                       App.result_of (App.is_valid_url Wd final_url w)
                       = App.Ok (truthy (App.scheme p) && truthy (App.netloc p))).
    { intros p Hp. unfold App.is_valid_url, App.bind, App.lift, App.ret.
      rewrite Hp. reflexivity. }
    destruct H as [[G H]|[[e [Hp H]]|[[p [Hp [Hv H]]]|[p [l1 [r1 [w1 [G [Hp [Hv [Hf H]]]]]]]]]]].
    + rewrite H. destruct G as [->|G]; [reflexivity|].
      rewrite G, andb_false_r. reflexivity.
    + rewrite H. unfold App.is_valid_url, App.bind, App.lift. rewrite Hp.
      cbn [App.result_of fst snd]. rewrite andb_false_r. reflexivity.
    + rewrite H, (Hvalid p Hp), Hv, andb_false_r. reflexivity.
    + rewrite (Hvalid p Hp), Hv, G, Hp, Hf. cbn [snd].
      assert (Ht : truthy user_input = true).
      { destruct user_input; [discriminate G|reflexivity]. }
      rewrite Ht. cbn [andb].
      destruct (fetch_url_run Wd final_url (Some App.browser_headers) w)
        as [hdrs [r [w' [Hf' [Hh _]]]]].
      change (hdrs = App.browser_headers) in Hh. subst hdrs.
      rewrite Hf in Hf'. injection Hf' as -> <- <-.
      unfold App.result_of at 1. cbn [fst snd].
      destruct r1 as [resp|[e|e]].
      * destruct H as [calls [_ H]]. rewrite H. unfold App.log_of.
        cbn [fst app App.requests_of]. rewrite requests_of_ui. reflexivity.
      * destruct (substr_in "google." (lower (App.netloc p))).
        -- destruct H as [l2 [r2 [w2 [Hg H]]]]. rewrite Hg.
           destruct r2 as [resp|[e2|e2]].
           ++ destruct H as [calls [_ H]]. rewrite H. unfold App.log_of.
              cbn [fst app App.requests_of].
              rewrite requests_of_app, requests_of_ui, app_nil_r. reflexivity.
           ++ rewrite H. unfold App.log_of. cbn [fst app App.requests_of].
              rewrite requests_of_app, app_nil_r. reflexivity.
           ++ rewrite H. reflexivity.
        -- rewrite H. reflexivity.
      * rewrite H. reflexivity.
  - match goal with |- context [App.google_fallback_search Wd ?u ?w1] =>
      destruct (google_fallback_search_run Wd u w1)
        as [[e H]|[s [r [w' [H [Hu _]]]]]]; rewrite H
    end.
    + left. reflexivity.
    + right. exists s. split; [reflexivity|].
      destruct Hu as [->|[q [_ ->]]]; reflexivity.
Qed.

(** When [urlparse] finds no scheme in the empty string, every request
    of the script goes to a URL that starts with "https://": it never
    fetches over another scheme, whatever was typed. *)
Theorem on_submit_requests_are_https
  (Wd : App.World) (sanitize : string -> string -> Pipeline.outcome string)
  (user_input : string) (w : App.Net Wd)
  (url : string) (headers : dict) (timeout : nat) :
  (forall p, App.urlparse Wd "" = App.Ok p -> App.scheme p = "") ->
  In (url, headers, timeout)
     (App.requests_of (App.log_of (App.on_submit Wd sanitize user_input w))) ->
  startswith url "https://" = true.
Proof.
  intros Hempty Hin.
  pose proof (on_submit_cases Wd sanitize user_input w) as H. cbv zeta in H.
  assert (Hfinal : forall p, App.urlparse Wd (normalize_input_to_url user_input) = App.Ok p ->
                     truthy (App.scheme p) && truthy (App.netloc p) = true ->
                     startswith (normalize_input_to_url user_input) "https://" = true).
  { intros p Hp Hv.
    destruct (normalize_cases user_input) as [E|[rest [E _]]]; rewrite E in *.
    - rewrite (Hempty p Hp) in Hv. discriminate.
    - exact (prefix_append "https://" rest). }
  set (final_url := normalize_input_to_url user_input) in *.
  destruct H as [[_ H]|[[e [_ H]]|[[p [_ [_ H]]]|[p [l1 [r1 [w1 [G [Hp [Hv [Hf H]]]]]]]]]]];
    try (rewrite H in Hin; contradiction).
  specialize (Hfinal p Hp Hv).
  destruct (fetch_url_run Wd final_url (Some App.browser_headers) w)
    as [hdrs [r [w' [Hf' _]]]].
  rewrite Hf in Hf'. injection Hf' as -> <- <-.
  assert (Hfirst : forall l,
             In (url, headers, timeout) ((final_url, hdrs, 10) :: l) ->
             (In (url, headers, timeout) l -> startswith url "https://" = true) ->
             startswith url "https://" = true).
  { intros l [E|Hl] Hrest; [injection E as <- _ _; exact Hfinal|exact (Hrest Hl)]. }
  destruct r1 as [resp|[e|e]].
  - destruct H as [calls [_ H]]. rewrite H in Hin. unfold App.log_of in Hin.
    cbn [fst app App.requests_of] in Hin. rewrite requests_of_ui in Hin.
    apply (Hfirst _ Hin). contradiction.
  - destruct (substr_in "google." (lower (App.netloc p))).
    + destruct H as [l2 [r2 [w2 [Hg H]]]].
      assert (Hl2 : forall x, In x (App.requests_of l2) ->
                      startswith (fst (fst x)) "https://" = true).
      { destruct (google_fallback_search_run Wd final_url w1)
          as [[e' Hg']|[u [r [w' [Hg' [Hu _]]]]]]; rewrite Hg in Hg'.
        - injection Hg' as -> _ _. contradiction.
        - injection Hg' as -> _ _. intros x [<-|[]].
          destruct Hu as [->|[s [_ ->]]]; reflexivity. }
      assert (Hlog : App.requests_of (App.log_of (App.on_submit Wd sanitize user_input w))
                     = (final_url, hdrs, 10) :: App.requests_of l2).
      { destruct r2 as [resp|[e2|e2]].
        - destruct H as [calls [_ H]]. rewrite H. unfold App.log_of.
          cbn [fst app App.requests_of]. rewrite requests_of_app, requests_of_ui, app_nil_r.
          reflexivity.
        - rewrite H. unfold App.log_of. cbn [fst app App.requests_of].
          rewrite requests_of_app, app_nil_r. reflexivity.
        - rewrite H. reflexivity. }
      rewrite Hlog in Hin. apply (Hfirst _ Hin). intro Hl. exact (Hl2 _ Hl).
    + rewrite H in Hin. apply (Hfirst _ Hin). contradiction.
  - rewrite H in Hin. apply (Hfirst _ Hin). contradiction.
Qed.

Lemma on_submit_requests_are_https_witness :
  (forall p, App.urlparse (App.example_world 200 "<p>x</p>") "" = App.Ok p ->
             App.scheme p = "")
  /\ In ("https://example.com/page", App.browser_headers, 10)
        (App.requests_of
           (App.log_of
              (App.on_submit (App.example_world 200 "<p>x</p>")
                 (fun html _ => Pipeline.Returned html)
                 "https://abc://example.com/page" tt)))
  /\ startswith "https://example.com/page" "https://" = true.
Proof.
  assert (H1 : forall p, App.urlparse (App.example_world 200 "<p>x</p>") "" = App.Ok p ->
                         App.scheme p = "").
  { intros p H. vm_compute in H. injection H as <-. reflexivity. }
  assert (H2 : In ("https://example.com/page", App.browser_headers, 10)
                 (App.requests_of
                    (App.log_of
                       (App.on_submit (App.example_world 200 "<p>x</p>")
                          (fun html _ => Pipeline.Returned html)
                          "https://abc://example.com/page" tt)))).
  { vm_compute. left. reflexivity. }
  split; [exact H1|]. split; [exact H2|].
  exact (on_submit_requests_are_https (App.example_world 200 "<p>x</p>")
           (fun html _ => Pipeline.Returned html)
           "https://abc://example.com/page" tt
           "https://example.com/page" App.browser_headers 10 H1 H2).
Defined.


(** What the script does with a [RequestException].  When [urlparse]
    raises none, no run ends with one.  When the first fetch raises one
    and the lower-cased host does not contain "google.", the run shows
    "Failed to fetch URL: " with the exception's text, renders nothing
    and ends normally.  When the host does contain "google.", the run
    shows the warning and tries the fallback search; when that raises a
    [RequestException] too, the run shows "Failed to fetch page even
    with Google fallback: " with its text, renders nothing and ends
    normally. *)
Theorem on_submit_reports_request_failures
  (Wd : App.World) (sanitize : string -> string -> Pipeline.outcome string)
  (user_input : string) (w : App.Net Wd) :
  (forall url e, App.urlparse Wd url <> App.Err (App.RequestException e)) ->
  let final_url := normalize_input_to_url user_input in
  let run := App.on_submit Wd sanitize user_input w in
  let run1 := App.fetch_url Wd final_url (Some App.browser_headers) w in
  let run2 := App.google_fallback_search Wd final_url (snd run1) in
  let info := App.st_info ("Attempting to fetch: " ++ final_url) in
  let warning := App.st_warning
    "Direct fetch failed for Google — attempting a simple fallback search (num=1) with browser user-agent." in
  (forall e, App.result_of run <> App.Err (App.RequestException e))
  /\ (substr_in "://" user_input = true ->
      App.result_of (App.is_valid_url Wd final_url w) = App.Ok true ->
      forall e1 p,
        App.result_of run1 = App.Err (App.RequestException e1) ->
        App.urlparse Wd final_url = App.Ok p ->
        if substr_in "google." (lower (App.netloc p))
        then forall e2,
            App.result_of run2 = App.Err (App.RequestException e2) ->
            run = (info :: App.log_of run1 ++ warning :: App.log_of run2
                   ++ [App.ui (Pipeline.st_error
                         ("Failed to fetch page even with Google fallback: "
                          ++ Pipeline.message e2))],
                   App.Ok tt, snd run2)
        else run = (info :: App.log_of run1
                    ++ [App.ui (Pipeline.st_error
                          ("Failed to fetch URL: " ++ Pipeline.message e1))],
                    App.Ok tt, snd run1)).
Proof.
  intros Hparse. cbv zeta.
  pose proof (on_submit_cases Wd sanitize user_input w) as H. cbv zeta in H.
  set (final_url := normalize_input_to_url user_input) in *.
  assert (Hvalid : forall p, App.urlparse Wd final_url = App.Ok p ->
                     App.result_of (App.is_valid_url Wd final_url w)
                     = App.Ok (truthy (App.scheme p) && truthy (App.netloc p))).
  { intros p Hp. unfold App.is_valid_url, App.bind, App.lift, App.ret.
    rewrite Hp. reflexivity. }
  destruct H as [[G H]|[[e0 [Hp H]]|[[p [Hp [Hv H]]]|[p [l1 [r1 [w1 [G [Hp [Hv [Hf H]]]]]]]]]]].
  - split; [intro e; rewrite H; discriminate|].
    intros G'. destruct G as [->|G]; [discriminate G'|congruence].
  - split.
    + intro e. rewrite H. unfold App.result_of. cbn [fst snd]. intro E.
      injection E as ->. exact (Hparse _ _ Hp).
    + intros _ _ e1 p _ Hp'. congruence.
  - split; [intro e; rewrite H; discriminate|].
    intros _ Hval. rewrite (Hvalid p Hp), Hv in Hval. discriminate.
  - rewrite Hf. cbn [snd]. split.
    + intro e. destruct r1 as [resp|[e1|e1]].
      * destruct H as [calls [_ H]]. rewrite H. discriminate.
      * destruct (substr_in "google." (lower (App.netloc p))).
        -- destruct H as [l2 [r2 [w2 [_ H]]]].
           destruct r2 as [resp|[e2|e2]].
           ++ destruct H as [calls [_ H]]. rewrite H. discriminate.
           ++ rewrite H. discriminate.
           ++ rewrite H. discriminate.
        -- rewrite H. discriminate.
      * rewrite H. discriminate.
    + intros _ _ e1 p' E1 Hp'. rewrite Hp in Hp'. injection Hp' as <-.
      unfold App.result_of in E1. cbn [fst snd] in E1. subst r1.
      destruct (substr_in "google." (lower (App.netloc p))).
      * destruct H as [l2 [r2 [w2 [Hg H]]]]. rewrite Hg.
        unfold App.log_of, App.result_of. cbn [fst snd].
        intros e2 E2. subst r2. exact H.
      * exact H.
Qed.

Lemma on_submit_reports_request_failures_witness :
  (forall url e, App.urlparse (App.example_world 404 "Not Found") url
                 <> App.Err (App.RequestException e))
  /\ App.on_submit (App.example_world 404 "Not Found")
       (fun html _ => Pipeline.Returned html) "https://abc://example.com/page" tt
     = ([App.st_info "Attempting to fetch: https://example.com/page";
         App.request "https://example.com/page" App.browser_headers 10;
         App.ui (Pipeline.st_error "Failed to fetch URL: HTTPError")],
        App.Ok tt, tt).
Proof.
  assert (H : forall url e, App.urlparse (App.example_world 404 "Not Found") url
                            <> App.Err (App.RequestException e)).
  { intros url e. cbn [App.urlparse App.example_world].
    destruct (partition "://" url) as [[s rest]|]; [|discriminate].
    destruct (partition "/" rest) as [[host p]|]; discriminate. }
  split; [exact H|].
  exact (proj2 (on_submit_reports_request_failures (App.example_world 404 "Not Found")
                  (fun html _ => Pipeline.Returned html)
                  "https://abc://example.com/page" tt H)
           eq_refl eq_refl
           {| Pipeline.message := "HTTPError" |}
           {| App.scheme := "https"; App.netloc := "example.com"; App.path := "/page";
              App.params := ""; App.query := ""; App.fragment := "" |}
           eq_refl eq_refl).
Defined.


